(** * lucky: identifier codec, entity store, conflict and retry layer

    A shallow embedding of [lucky/models.py], [lucky/schemas.py],
    [lucky/dependencies.py] and [lucky/router.py].

    Python values are modelled as follows.
    - [int] is [Z] (unbounded); [sys.maxsize] is [2^63 - 1].
    - [str] is [string]; [len] is [String.length].
    - a [dict] with string keys (keyword arguments, the column attributes of
      a mapped object, a table row) is a [gmap string Value].
    - an exception is a constructor of [exn]; a call that can raise returns a
      [Result]; a coroutine that uses the session is a function of [M], which
      threads the session and keeps it when an exception is raised. *)

From stdpp Require Import base numbers strings list gmap pretty.
From Stdlib Require Import ZArith String Ascii Lia.

Local Open Scope string_scope.
Local Open Scope Z_scope.

(** ** Exceptions *)

(** The exception classes that the service raises, catches or lets through.
    [CancelledError] stands for the classes that derive from [BaseException]
    but not from [Exception]. *)
Inductive exn : Type :=
| ValueError (msg : string)
| AttributeError (msg : string)
| OverflowError (msg : string)
| IntegrityError (orig : string)
| OperationalError (orig : string)
| PendingRollbackError
| StaleDataError
| InvalidRequestError
| MultipleResultsFound
| EntityExistsError (msg : string)
| HTTPException (status_code : nat) (detail : string)
| CancelledError.

#[global] Instance exn_eq_dec : EqDecision exn.
Proof. solve_decision. Defined.

(** [isinstance(e, Exception)] *)
Definition is_Exception (e : exn) : bool :=
  match e with
  | CancelledError => false
  | _ => true
  end.

(** The outcome of a call: the value it returns or the exception it raises. *)
Definition Result (A : Type) : Type := exn + A.
Abbreviation Return a := (inr a).
Abbreviation Raise e := (inl e).

(** ** State and exceptions

    [ST S E A] is a computation over a state [S] that returns an [A] or
    fails with an [E]; the state survives a failure, as the session and the
    objects of a Python program survive an exception. *)
Definition ST (S E A : Type) : Type := S -> (E + A) * S.

Definition ret {S E A} (a : A) : ST S E A := fun s => (inr a, s).

Definition throw {S E A} (e : E) : ST S E A := fun s => (inl e, s).

Definition bind {S E A B} (m : ST S E A) (k : A -> ST S E B) : ST S E B :=
  fun s =>
    match m s with
    | (inl e, s') => (inl e, s')
    | (inr a, s') => k a s'
    end.

(** [try: m except E as e: h e] *)
Definition try_except {S E A} (m : ST S E A) (h : E -> ST S E A) : ST S E A :=
  fun s =>
    match m s with
    | (inl e, s') => h e s'
    | (inr a, s') => (inr a, s')
    end.

Definition lift {S E A} (r : E + A) : ST S E A := fun s => (r, s).

Definition gets {S E A} (f : S -> A) : ST S E A := fun s => (inr (f s), s).

Definition modify {S E} (f : S -> S) : ST S E unit := fun s => (inr tt, f s).

Notation "x <- m ;; k" := (bind m (fun x => k))
  (at level 100, m at next level, right associativity).
Notation "m ;; k" := (bind m (fun _ => k))
  (at level 100, right associativity).

(** [for x in xs: ys.append(await f(x))] *)
Fixpoint mapM {S E A B} (f : A -> ST S E B) (xs : list A) : ST S E (list B) :=
  match xs with
  | [] => ret []
  | x :: xs' => y <- f x ;; ys <- mapM f xs' ;; ret (y :: ys)
  end.

(** ** The TSID codec (package [tsidpy]) *)

Module TSID.

(** Modelled from the spec: [tsidpy.TSID], the third-party class behind
    [entity_id_from_string] and [entity_id_to_string], is not part of the
    repository.  The spec fixes a 64-bit number and a 13-character
    base-encoded string; the layout below is the canonical TSID string:
    13 Crockford base-32 symbols of 5 bits each, most significant first.
    The repository's test vectors ([0K27TH4PYWP1P], [aaaaaaaaaaaaa]) are
    replayed against it below. *)
Definition ALPHABET : string := "0123456789ABCDEFGHJKMNPQRSTVWXYZ".

Definition TSID_CHARS : nat := 13.

(** Modelled from the spec: the decoding table of [tsidpy], indexed by
    character, [-1] where the character is not a symbol.  Lower case is
    accepted, and so are the Crockford aliases O (0) and I, L (1). *)
Definition ALPHABET_VALUES (c : ascii) : Z :=
  match c with
  | "0" | "O" | "o" => 0
  | "1" | "I" | "i" | "L" | "l" => 1
  | "2" => 2 | "3" => 3 | "4" => 4 | "5" => 5 | "6" => 6 | "7" => 7
  | "8" => 8 | "9" => 9
  | "A" | "a" => 10 | "B" | "b" => 11 | "C" | "c" => 12 | "D" | "d" => 13
  | "E" | "e" => 14 | "F" | "f" => 15 | "G" | "g" => 16 | "H" | "h" => 17
  | "J" | "j" => 18 | "K" | "k" => 19 | "M" | "m" => 20 | "N" | "n" => 21
  | "P" | "p" => 22 | "Q" | "q" => 23 | "R" | "r" => 24 | "S" | "s" => 25
  | "T" | "t" => 26 | "V" | "v" => 27 | "W" | "w" => 28 | "X" | "x" => 29
  | "Y" | "y" => 30 | "Z" | "z" => 31
  | _ => -1
  end%char.

(** [ALPHABET[d]] *)
Definition alphabet_at (d : Z) : ascii :=
  nth (Z.to_nat d) (list_ascii_of_string ALPHABET) "0"%char.

(** Bit offsets of the 13 symbols: [60, 55, ..., 5, 0]. *)
Definition shifts : list Z := [60; 55; 50; 45; 40; 35; 30; 25; 20; 15; 10; 5; 0].

(** Modelled from the spec: [TSID(number).to_string()]:
    [chars[i] = ALPHABET[(number >> (60 - 5 * i)) & 0b11111]]. *)
Definition to_string (number : Z) : string :=
  string_of_list_ascii
    (map (fun s => alphabet_at (Z.land (Z.shiftr number s) 31)) shifts).

(** [number |= ALPHABET_VALUES[ord(chars[i])] << (60 - 5 * i)] for every
    position. *)
Fixpoint assemble (chars : list ascii) (ss : list Z) (number : Z) : Z :=
  match chars, ss with
  | c :: chars', s :: ss' =>
      assemble chars' ss' (Z.lor number (Z.shiftl (ALPHABET_VALUES c) s))
  | _, _ => number
  end.

Definition is_symbol (c : ascii) : bool := negb (ALPHABET_VALUES c =? -1).

(** Modelled from the spec: [TSID.from_string(value).number]: the string
    must have 13 characters, all of them symbols, and the bit that the
    first symbol adds beyond 64 must be zero; anything else is a
    [ValueError]. *)
Definition from_string (value : string) : Result Z :=
  let chars := list_ascii_of_string value in
  if negb (Nat.eqb (String.length value) TSID_CHARS) then
    Raise (ValueError "Invalid TSID string")
  else if negb (forallb is_symbol chars) then
    Raise (ValueError "Invalid TSID string")
  else if negb (Z.land (ALPHABET_VALUES (hd "0"%char chars)) 16 =? 0) then
    Raise (ValueError "Invalid TSID string")
  else Return (assemble chars shifts 0).

(** The value that [to_string] encodes at offset [s]. *)
Definition chunk (x s : Z) : Z := Z.shiftl (Z.land (Z.shiftr x s) 31) s.

End TSID.

(** ** [lucky/models.py]: identifiers *)

(** [sys.maxsize] *)
Definition maxsize : Z := 2 ^ 63 - 1.

(** [entity_id_from_string] *)
Definition entity_id_from_string (s : string) : Result Z :=
  match TSID.from_string s with
  | Raise e => Raise e
  | Return number =>
      if (number <? 0) || (number >? maxsize) then
        Raise (ValueError "invalid string")
      else Return number
  end.

(** [entity_id_to_string] *)
Definition entity_id_to_string (id : Z) : string := TSID.to_string id.

(** ** [lucky/models.py]: the schema *)

(** The mapped classes. *)
Inductive Cls : Type := Author | Fortune | Tag.

#[global] Instance Cls_eq_dec : EqDecision Cls.
Proof. solve_decision. Defined.

(** [cls.__name__] *)
Definition class_name (cls : Cls) : string :=
  match cls with
  | Author => "Author"
  | Fortune => "Fortune"
  | Tag => "Tag"
  end.

(** [cls.__tablename__] *)
Definition tablename (cls : Cls) : string :=
  match cls with
  | Author => "authors"
  | Fortune => "fortunes"
  | Tag => "tags"
  end.

(** The mapped columns of the three tables. *)
Inductive Column : Type :=
| c_id | c_name | c_content | c_tag | c_author_id | c_created_at | c_updated_at.

#[global] Instance Column_eq_dec : EqDecision Column.
Proof. solve_decision. Defined.

Definition column_name (c : Column) : string :=
  match c with
  | c_id => "id"
  | c_name => "name"
  | c_content => "content"
  | c_tag => "tag"
  | c_author_id => "author_id"
  | c_created_at => "created_at"
  | c_updated_at => "updated_at"
  end.

(** Columns of [Base] ([created_at], [updated_at]) and of each class. *)
Definition columns (cls : Cls) : list Column :=
  match cls with
  | Author => [c_id; c_name; c_created_at; c_updated_at]
  | Fortune => [c_id; c_content; c_author_id; c_created_at; c_updated_at]
  | Tag => [c_id; c_tag; c_created_at; c_updated_at]
  end.

(** [Mapped[int]], [Mapped[str]]: NOT NULL.  [created_at] is NOT NULL as well
    but is filled by its server default. *)
Definition not_null (cls : Cls) : list Column :=
  match cls with
  | Author => [c_id; c_name]
  | Fortune => [c_id; c_content; c_author_id]
  | Tag => [c_id; c_tag]
  end.

(** [primary_key=True] and [unique=True]. *)
Definition unique (cls : Cls) : list Column :=
  match cls with
  | Author => [c_id; c_name]
  | Fortune => [c_id; c_content]
  | Tag => [c_id; c_tag]
  end.

(** Python values held by column attributes: [None], [int], [str],
    [datetime] (seconds, the resolution of the database clock). *)
Inductive Value : Type :=
| VNone
| VInt (n : Z)
| VStr (s : string)
| VTime (t : Z).

#[global] Instance Value_eq_dec : EqDecision Value.
Proof. solve_decision. Defined.

(** [getattr(o, k, None)] on an attribute dictionary. *)
Definition attr (o : gmap string Value) (k : string) : Value :=
  default VNone (o !! k).

(** ** The database

    Every table keeps its rows in the order in which they were inserted; a
    scan returns them in that order (the queries of the service carry no
    ORDER BY).  A row maps column names to values. *)
Record DB : Type := mkDB {
  authors : list (gmap string Value);
  fortunes : list (gmap string Value);
  tags : list (gmap string Value);
  fortunes_tags : list (Z * Z) }.

Definition empty_db : DB := mkDB [] [] [] [].

Definition table (cls : Cls) (d : DB) : list (gmap string Value) :=
  match cls with
  | Author => authors d
  | Fortune => fortunes d
  | Tag => tags d
  end.

Definition with_table (cls : Cls) (rows : list (gmap string Value)) (d : DB) : DB :=
  match cls with
  | Author => mkDB rows (fortunes d) (tags d) (fortunes_tags d)
  | Fortune => mkDB (authors d) rows (tags d) (fortunes_tags d)
  | Tag => mkDB (authors d) (fortunes d) rows (fortunes_tags d)
  end.

Definition with_fortunes_tags (ft : list (Z * Z)) (d : DB) : DB :=
  mkDB (authors d) (fortunes d) (tags d) ft.

(** [row.id == key] *)
Definition has_key (key : Z) (row : gmap string Value) : bool :=
  bool_decide (attr row "id" = VInt key).

Definition find_row (cls : Cls) (key : Z) (d : DB) : option (gmap string Value) :=
  List.find (has_key key) (table cls d).

(** The constraints that the database enforces. *)
Inductive Constraint : Type :=
| UNIQUE (cls : Cls) (c : Column)
| UNIQUE_fortunes_tags
| NOT_NULL (cls : Cls) (c : Column)
| FOREIGN_KEY
| DATATYPE.

(** What SQLite reports when a constraint fails. *)
Definition sqlite_message (k : Constraint) : string :=
  match k with
  | UNIQUE cls c =>
      "UNIQUE constraint failed: " ++ tablename cls ++ "." ++ column_name c
  | UNIQUE_fortunes_tags =>
      "UNIQUE constraint failed: fortunes_tags.fortune_id, fortunes_tags.tag_id"
  | NOT_NULL cls c =>
      "NOT NULL constraint failed: " ++ tablename cls ++ "." ++ column_name c
  | FOREIGN_KEY => "FOREIGN KEY constraint failed"
  | DATATYPE => "datatype mismatch"
  end%string.

Definition is_unique_violation (k : Constraint) : bool :=
  match k with
  | UNIQUE _ _ | UNIQUE_fortunes_tags => true
  | _ => false
  end.

(** Failures of a statement. *)
Inductive DBError : Type :=
| Violation (k : Constraint)
| IntTooLarge
| NoRowMatched.

(** The exception that the driver and the ORM raise for a failed statement. *)
Definition exn_of_DBError (err : DBError) : exn :=
  match err with
  | Violation k => IntegrityError (sqlite_message k)
  | IntTooLarge =>
      OverflowError "Python int too large to convert to SQLite INTEGER"
  | NoRowMatched => StaleDataError
  end.

(** ** Statements

    A transaction works on a copy of the database; [entity_id] draws from
    the identifier generator. *)
Record Tx : Type := mkTx { tx_db : DB; tx_tsid : Z }.

(** Modelled from the spec: [entity_id()] is [TSID.create().number]; the
    generator of [tsidpy] is not part of the repository.  The spec asks for
    fresh identifiers that increase with creation time: a counter. *)
Definition entity_id : ST Tx DBError Z :=
  fun tx => let n := tx_tsid tx + 1 in (inr n, mkTx (tx_db tx) n).

Definition put_db (d : DB) : ST Tx DBError unit :=
  fun tx => (inr tt, mkTx d (tx_tsid tx)).

(** A Python [int] must fit the 64-bit INTEGER of SQLite. *)
Definition fits_int64 (v : Value) : bool :=
  match v with
  | VInt n => (- 2 ^ 63 <=? n) && (n <=? 2 ^ 63 - 1)
  | _ => true
  end.

(** The checks on a row that is inserted or updated, against the other rows
    of its table. *)
Definition check_row (cls : Cls) (others : list (gmap string Value))
    (row : gmap string Value) : DBError + unit :=
  if negb (forallb (fun c => fits_int64 (attr row (column_name c))) (columns cls))
  then inl IntTooLarge
  else
    match List.find (fun c => bool_decide (attr row (column_name c) = VNone))
            (not_null cls) with
    | Some c => inl (Violation (NOT_NULL cls c))
    | None =>
        match attr row "id" with
        | VInt _ =>
            match List.find
                    (fun c =>
                       existsb (fun r => bool_decide (attr r (column_name c)
                                                      = attr row (column_name c)))
                         others)
                    (unique cls) with
            | Some c => inl (Violation (UNIQUE cls c))
            | None => inr tt
            end
        | _ => inl (Violation DATATYPE)
        end
    end.

(** Foreign keys ([PRAGMA foreign_keys=ON]): [fortunes.author_id] and both
    columns of [fortunes_tags]. *)
Definition fk_ok (d : DB) : bool :=
  forallb (fun f => match attr f "author_id" with
                    | VNone => true
                    | VInt a => existsb (has_key a) (authors d)
                    | _ => false
                    end) (fortunes d)
  && forallb (fun p => existsb (has_key (fst p)) (fortunes d)
                       && existsb (has_key (snd p)) (tags d))
       (fortunes_tags d).

Definition check_fk (d : DB) : DBError + unit :=
  if fk_ok d then inr tt else inl (Violation FOREIGN_KEY).

(** The row that an INSERT writes: [created_at] defaults to the server's
    [now()]; the other columns take the values of the object, [None] where
    it has none. *)
Definition new_row (cls : Cls) (now : Z) (values : gmap string Value)
    (id : Value) : gmap string Value :=
  let created := match attr values "created_at" with
                 | VNone => VTime now
                 | v => v
                 end in
  <["id" := id]>
    (<["created_at" := created]>
       (list_to_map
          (map (fun c => (column_name c, attr values (column_name c)))
             (columns cls)))).

(** [INSERT INTO <table> ...]: [id] defaults to [entity_id()]; the new row
    goes after the existing ones. *)
Definition INSERT (cls : Cls) (now : Z) (values : gmap string Value)
  : ST Tx DBError (gmap string Value) :=
  id <- match attr values "id" with
        | VNone => n <- entity_id ;; ret (VInt n)
        | v => ret v
        end ;;
  let row := new_row cls now values id in
  d <- gets tx_db ;;
  lift (check_row cls (table cls d) row) ;;
  let d' := with_table cls (table cls d ++ [row]) d in
  lift (check_fk d') ;;
  put_db d' ;;
  ret row.

(** The columns that an UPDATE sets: the attributes whose value differs from
    the row, and the attributes marked by [flag_modified]. *)
Definition changed_columns (cls : Cls) (values : gmap string Value)
    (flagged : list string) (row : gmap string Value) : list Column :=
  List.filter
    (fun c =>
       bool_decide (column_name c ∈ flagged)
       || match values !! column_name c with
          | Some v => negb (bool_decide (v = attr row (column_name c)))
          | None => false
          end)
    (columns cls).

Fixpoint replace_row (key : Z) (new : gmap string Value)
    (rows : list (gmap string Value)) : list (gmap string Value) :=
  match rows with
  | [] => []
  | r :: rs => if has_key key r then new :: rs else r :: replace_row key new rs
  end.

(** The row that an UPDATE leaves: the changed columns take the values of
    the object, and [updated_at] takes [now()] ([onupdate]) unless it is
    among them. *)
Definition updated_row (now : Z) (values : gmap string Value)
    (changed : list Column) (row : gmap string Value) : gmap string Value :=
  let row1 :=
    foldr (fun c r => <[column_name c := attr values (column_name c)]> r)
      row changed in
  if bool_decide (c_updated_at ∈ changed) then row1
  else <["updated_at" := VTime now]> row1.

(** [UPDATE <table> SET ... WHERE id = key]: nothing is sent when no column
    changed.  The row keeps its place in the table. *)
Definition UPDATE (cls : Cls) (now : Z) (key : Z) (values : gmap string Value)
    (flagged : list string) : ST Tx DBError (gmap string Value) :=
  d <- gets tx_db ;;
  match find_row cls key d with
  | None => throw NoRowMatched
  | Some row =>
      match changed_columns cls values flagged row with
      | [] => ret row
      | changed =>
          let row2 := updated_row now values changed row in
          lift (check_row cls
                  (List.filter (fun r => negb (has_key key r)) (table cls d))
                  row2) ;;
          let d' := with_table cls (replace_row key row2 (table cls d)) d in
          lift (check_fk d') ;;
          put_db d' ;;
          ret row2
      end
  end.

(** Rows of [fortunes_tags] for the tags in [tids], added one by one. *)
Fixpoint link (fid : Z) (tids : list Z) (ft : list (Z * Z))
  : DBError + list (Z * Z) :=
  match tids with
  | [] => inr ft
  | t :: ts =>
      if existsb (fun p => bool_decide (p = (fid, t))) ft
      then inl (Violation UNIQUE_fortunes_tags)
      else link fid ts (ft ++ [(fid, t)])
  end.

(** The [tags] collection of fortune [fid] written to [fortunes_tags]: rows
    of tags that left the collection are deleted, rows of tags that joined
    it are inserted. *)
Definition sync_tags (fid : Z) (tids : list Z) : ST Tx DBError unit :=
  d <- gets tx_db ;;
  let kept :=
    List.filter (fun p => negb (fst p =? fid) || existsb (Z.eqb (snd p)) tids)
      (fortunes_tags d) in
  let added :=
    List.filter (fun t => negb (existsb (fun p => bool_decide (p = (fid, t))) kept))
      tids in
  ft <- lift (link fid added kept) ;;
  let d' := with_fortunes_tags ft d in
  lift (check_fk d') ;;
  put_db d'.

(** ** Mapped objects *)

(** The column state of a mapped object.  [o_key] is the primary key under
    which the object is persistent, [None] while it is transient;
    [o_flagged] lists the attributes marked by [flag_modified]. *)
Record Obj : Type := mkObj {
  o_cls : Cls;
  o_key : option Z;
  o_attrs : gmap string Value;
  o_flagged : list string }.

(** A mapped object with the relationships of a [Fortune]: [author] and
    [tags] (both empty for an [Author] or a [Tag]). *)
Record Entity : Type := mkEntity {
  e_obj : Obj;
  e_author : option Obj;
  e_tags : list Obj }.

Definition e_cls (e : Entity) : Cls := o_cls (e_obj e).
Definition e_key (e : Entity) : option Z := o_key (e_obj e).
Definition e_attrs (e : Entity) : gmap string Value := o_attrs (e_obj e).

Definition row_key (row : gmap string Value) : option Z :=
  match attr row "id" with
  | VInt n => Some n
  | _ => None
  end.

(** The object that a row loads into. *)
Definition load_obj (cls : Cls) (row : gmap string Value) : Obj :=
  mkObj cls (row_key row) row [].

(** A [Fortune] arrives with its author ([lazy='joined', innerjoin=True]) and
    its tags ([lazy='selectin']); a fortune row without an author row is not
    returned by the join. *)
Definition load (d : DB) (cls : Cls) (row : gmap string Value) : option Entity :=
  match cls with
  | Fortune =>
      match attr row "author_id", row_key row with
      | VInt a, Some fid =>
          match find_row Author a d with
          | Some arow =>
              let tids :=
                map snd (List.filter (fun p => fst p =? fid) (fortunes_tags d)) in
              Some (mkEntity (load_obj Fortune row)
                      (Some (load_obj Author arow))
                      (map (load_obj Tag)
                         (omap (fun t => find_row Tag t d) tids)))
          | None => None
          end
      | _, _ => None
      end
  | _ => Some (mkEntity (load_obj cls row) None [])
  end.

(** The flush of one object: INSERT when transient, UPDATE when persistent.
    Afterwards the object holds the row as stored. *)
Definition flush_obj (now : Z) (o : Obj) : ST Tx DBError Obj :=
  row <- match o_key o with
         | None => INSERT (o_cls o) now (o_attrs o)
         | Some key => UPDATE (o_cls o) now key (o_attrs o) (o_flagged o)
         end ;;
  ret (load_obj (o_cls o) row).

(** The flush of an object and of what it reaches by cascade: the author,
    the tags, the object itself (its [author_id] taken from the author),
    the rows of [fortunes_tags]. *)
Definition flush_entity (now : Z) (e : Entity) : ST Tx DBError Entity :=
  author <- match e_author e with
            | None => ret None
            | Some a => a' <- flush_obj now a ;; ret (Some a')
            end ;;
  tags <- mapM (flush_obj now) (e_tags e) ;;
  let o := e_obj e in
  let o1 :=
    match author with
    | Some a =>
        mkObj (o_cls o) (o_key o)
          (<["author_id" := attr (o_attrs a) "id"]> (o_attrs o)) (o_flagged o)
    | None => o
    end in
  o2 <- flush_obj now o1 ;;
  match o_cls o2, o_key o2 with
  | Fortune, Some fid => sync_tags fid (omap o_key tags)
  | _, _ => ret tt
  end ;;
  ret (mkEntity o2 author tags).

(** ** The session

    - [db]: the committed database;
    - [pending]: the objects added to the session and not yet flushed;
    - [inactive]: a flush failed and the session waits for [rollback()];
    - [clock]: the wall clock, in milliseconds;
    - [tsid]: the state of the identifier generator;
    - [statements]: how many times the session went to the database;
    - [faults]: what the storage layer will do to the coming commits, [true]
      for a commit that finds the database locked. *)
Record Session : Type := mkSession {
  db : DB;
  pending : list Entity;
  inactive : bool;
  clock : Z;
  tsid : Z;
  statements : nat;
  faults : list bool }.

Definition M (A : Type) : Type := ST Session exn A.

(** [func.now()]: SQLite's CURRENT_TIMESTAMP, in whole seconds. *)
Definition func_now (s : Session) : Z := clock s / 1000.

(** Every round trip to the database needs an active transaction. *)
Definition execute : M unit :=
  fun s =>
    if inactive s then (Raise PendingRollbackError, s)
    else (Return tt,
          mkSession (db s) (pending s) (inactive s) (clock s) (tsid s)
            (S (statements s)) (faults s)).

(** [session.add(e)] *)
Definition session_add (e : Entity) : M unit :=
  fun s =>
    (Return tt,
     mkSession (db s) (pending s ++ [e]) (inactive s) (clock s) (tsid s)
       (statements s) (faults s)).

(** [await session.commit()]: flushes the pending objects in one transaction.
    When a statement fails the transaction is undone, the new objects are
    expunged and the session stays inactive until [rollback()].  The result
    lists the flushed objects in the order in which they were added: the
    in-place update of the objects by the flush. *)
Definition commit : M (list Entity) :=
  fun s =>
    if inactive s then (Raise PendingRollbackError, s)
    else
      match faults s with
      | true :: rest =>
          (Raise (OperationalError "database is locked"),
           mkSession (db s) [] true (clock s) (tsid s)
             (S (statements s)) rest)
      | _ =>
          match mapM (flush_entity (func_now s)) (pending s)
                  (mkTx (db s) (tsid s)) with
          | (inl err, tx) =>
              (Raise (exn_of_DBError err),
               mkSession (db s) [] true (clock s) (tx_tsid tx)
                 (S (statements s)) (tl (faults s)))
          | (inr flushed, tx) =>
              (Return flushed,
               mkSession (tx_db tx) [] false (clock s) (tx_tsid tx)
                 (S (statements s)) (tl (faults s)))
          end
      end.

(** [await session.rollback()] *)
Definition rollback : M unit :=
  fun s =>
    (Return tt,
     mkSession (db s) [] false (clock s) (tsid s) (statements s) (faults s)).

(** [await session.get(cls, key)] *)
Definition session_get (cls : Cls) (key : Z) : M (option Entity) :=
  execute ;;
  d <- gets db ;;
  ret (match find_row cls key d with
       | Some row => load d cls row
       | None => None
       end).

(** [await session.refresh(e)] *)
Definition refresh (e : Entity) : M Entity :=
  execute ;;
  d <- gets db ;;
  match e_key e with
  | None => throw InvalidRequestError
  | Some key =>
      match find_row (e_cls e) key d with
      | Some row =>
          match load d (e_cls e) row with
          | Some e' => ret e'
          | None => throw InvalidRequestError
          end
      | None => throw InvalidRequestError
      end
  end.

(** [await asyncio.sleep(ms / 1000)] *)
Definition sleep (ms : Z) : M unit :=
  fun s =>
    (Return tt,
     mkSession (db s) (pending s) (inactive s) (clock s + ms) (tsid s)
       (statements s) (faults s)).

(** ** Queries *)

(** [select(cls).where(c1 == v1).where(c2 == v2)...] *)
Record Query : Type := mkQuery { q_cls : Cls; q_where : list (Column * Value) }.

Definition select_ (cls : Cls) : Query := mkQuery cls [].

Definition where_ (q : Query) (c : Column) (v : Value) : Query :=
  mkQuery (q_cls q) (q_where q ++ [(c, v)]).

(** [getattr(cls, attr)] for a mapped column. *)
Definition getattr (cls : Cls) (name : string) : Result Column :=
  match List.find (fun c => bool_decide (column_name c = name)) (columns cls) with
  | Some c => Return c
  | None =>
      Raise (AttributeError
               ("type object '" ++ class_name cls ++ "' has no attribute '"
                  ++ name ++ "'"))
  end.

Definition matches (conds : list (Column * Value)) (row : gmap string Value) : bool :=
  forallb (fun cv => bool_decide (attr row (column_name (fst cv)) = snd cv)) conds.

(** The rows that a query returns, as objects. *)
Definition eval (q : Query) (d : DB) : list Entity :=
  omap (load d (q_cls q)) (List.filter (matches (q_where q)) (table (q_cls q) d)).

(** [await session.stream_scalars(query)] *)
Definition stream_scalars (q : Query) : M (list Entity) :=
  execute ;;
  d <- gets db ;;
  ret (eval q d).

(** [await result.one_or_none()] *)
Definition one_or_none {A} (result : list A) : Result (option A) :=
  match result with
  | [] => Return None
  | [x] => Return (Some x)
  | _ => Raise MultipleResultsFound
  end.

(** ** [lucky/models.py]: [Base] *)

(** [str.lower()] on ASCII text. *)
Definition lower_ascii (c : ascii) : ascii :=
  let n := nat_of_ascii c in
  if (65 <=? n)%nat && (n <=? 90)%nat then ascii_of_nat (n + 32) else c.

Fixpoint lower (s : string) : string :=
  match s with
  | EmptyString => EmptyString
  | String c s' => String (lower_ascii c) (lower s')
  end.

(** [re.search(pattern, s, re.IGNORECASE)] for a pattern without
    metacharacters: [pattern] occurs in [s], letter case aside. *)
Definition re_search_ignorecase (pattern s : string) : bool :=
  match String.index 0 (lower pattern) (lower s) with
  | Some _ => true
  | None => false
  end.

(** [cls( **attrs)]: a transient object with these attributes. *)
Definition construct (cls : Cls) (attrs : list (string * Value)) : Entity :=
  mkEntity (mkObj cls None (list_to_map attrs) []) None [].

(** [Fortune(content=content, author=author, tags=tags)] *)
Definition Fortune_ (content : string) (author : Entity) (tags : list Entity)
  : Entity :=
  mkEntity (mkObj Fortune None {[ "content" := VStr content ]} [])
    (Some (e_obj author)) (map e_obj tags).

(** [Base.select] *)
Definition select (cls : Cls) : M (list Entity) :=
  let query := select_ cls in
  result <- stream_scalars query ;;
  ret result.

(** [for attr, value in attrs.items():
       query = query.where(getattr(cls, attr) == value)] *)
Fixpoint add_criteria (cls : Cls) (attrs : list (string * Value)) (query : Query)
  : Result Query :=
  match attrs with
  | [] => Return query
  | (name, value) :: rest =>
      match getattr cls name with
      | Raise e => Raise e
      | Return c => add_criteria cls rest (where_ query c value)
      end
  end.

(** [Base.new_or_existing]; [attrs] are the keyword arguments in the order
    in which they were passed. *)
Definition new_or_existing (cls : Cls) (attrs : list (string * Value)) : M Entity :=
  query <- lift (add_criteria cls attrs (select_ cls)) ;;
  result <- stream_scalars query ;;
  instance <- lift (one_or_none result) ;;
  ret (match instance with
       | Some e => e
       | None => construct cls attrs
       end).

(** The [except IntegrityError as e] clause of [Base.save]. *)
Definition save_handler (self : Entity) (e : exn) : M (list Entity) :=
  match e with
  | IntegrityError orig =>
      let pattern := "unique constraint failed" in
      if re_search_ignorecase pattern orig then
        rollback ;;
        let name := lower (class_name (e_cls self)) in
        throw (EntityExistsError (name ++ " exists"))
      else throw e
  | _ => throw e
  end.

(** [Base.save].  [self] after the commit is the last of the flushed
    objects, since [session.add(self)] put it last. *)
Definition save (self : Entity) : M Entity :=
  flushed <- try_except (session_add self ;; commit) (save_handler self) ;;
  refresh (List.last flushed self).

(** [Base.flag_modified] *)
Definition flag_modified (self : Entity) (name : string) : Entity :=
  let o := e_obj self in
  mkEntity (mkObj (o_cls o) (o_key o) (o_attrs o) (name :: o_flagged o))
    (e_author self) (e_tags self).

(** [self.<name> = value] on a column attribute. *)
Definition setattr (self : Entity) (name : string) (value : Value) : Entity :=
  let o := e_obj self in
  mkEntity (mkObj (o_cls o) (o_key o) (<[name := value]> (o_attrs o)) (o_flagged o))
    (e_author self) (e_tags self).

(** [fortune.author = author] *)
Definition set_author (self author : Entity) : Entity :=
  mkEntity (e_obj self) (Some (e_obj author)) (e_tags self).

(** [fortune.tags = tags] *)
Definition set_tags (self : Entity) (tags : list Entity) : Entity :=
  mkEntity (e_obj self) (e_author self) (map e_obj tags).

(** The fortunes behind [fortunes_relationship]: by [author_id] for an
    [Author], through [fortunes_tags] for a [Tag]. *)
Definition fortunes_of (self : Entity) (d : DB) : list Entity :=
  match e_cls self, e_key self with
  | Author, Some k => eval (where_ (select_ Fortune) c_author_id (VInt k)) d
  | Tag, Some k =>
      omap (load d Fortune)
        (List.filter
           (fun row =>
              match row_key row with
              | Some fid =>
                  existsb (fun p => bool_decide (p = (fid, k))) (fortunes_tags d)
              | None => false
              end)
           (fortunes d))
  | _, _ => []
  end.

(** [WithFortunesMixin.with_fortunes]: the object and its [fortunes]. *)
Definition with_fortunes (self : Entity) : M (Entity * list Entity) :=
  execute ;;
  d <- gets db ;;
  ret (self, fortunes_of self d).

(** ** [lucky/schemas.py] *)

(** One entry of the [detail] list of a validation failure. *)
Record ErrorDetails : Type := mkError {
  err_type : string;
  err_loc : list string;
  err_msg : string }.

(** What a validator does with an input: it accepts it, rejects it with
    validation errors, or lets an exception through. *)
Inductive Validation (A : Type) : Type :=
| Valid (a : A)
| Invalid (errors : list ErrorDetails)
| Crashed (e : exn).
Arguments Valid {A} a.
Arguments Invalid {A} errors.
Arguments Crashed {A} e.

Definition errors_of {A} (v : Validation A) : list ErrorDetails :=
  match v with
  | Invalid errors => errors
  | _ => []
  end.

Definition characters (n : nat) : string :=
  pretty n ++ (if Nat.eqb n 1 then " character" else " characters").

(** [StringConstraints(min_length=..., max_length=...)] *)
Definition StringConstraints (min_length max_length : nat) (loc : list string)
    (s : string) : Validation string :=
  if (String.length s <? min_length)%nat then
    Invalid [mkError "string_too_short" loc
               ("String should have at least " ++ characters min_length)]
  else if (max_length <? String.length s)%nat then
    Invalid [mkError "string_too_long" loc
               ("String should have at most " ++ characters max_length)]
  else Valid s.

(** [AfterValidator(f)], [model_validator(mode='after')]: a [ValueError]
    raised by [f] is a validation error, any other exception is not
    caught. *)
Definition AfterValidator {A B} (f : A -> Result B) (loc : list string) (a : A)
  : Validation B :=
  match f a with
  | Return b => Valid b
  | Raise (ValueError msg) =>
      Invalid [mkError "value_error" loc ("Value error, " ++ msg)]
  | Raise e => Crashed e
  end.

Definition AuthorName := StringConstraints 1 128.
Definition TagValue := StringConstraints 1 32.
Definition FortuneContent := StringConstraints 1 512.

(** [EntityId]: the length constraint, then [entity_id_from_string]. *)
Definition EntityId (loc : list string) (s : string) : Validation Z :=
  match StringConstraints 13 13 loc s with
  | Valid x => AfterValidator (fun x => entity_id_from_string x) loc x
  | Invalid errors => Invalid errors
  | Crashed e => Crashed e
  end.

(** [EntityModelOut.serialize_id] *)
Definition serialize_id (id : Z) : string := entity_id_to_string id.

(** An optional field ([T | None = None]). *)
Definition optional {A B} (f : list string -> A -> Validation B)
    (loc : list string) (x : option A) : Validation (option B) :=
  match x with
  | None => Valid None
  | Some a =>
      match f loc a with
      | Valid b => Valid (Some b)
      | Invalid errors => Invalid errors
      | Crashed e => Crashed e
      end
  end.

(** [list[T]]: every item is validated, at [loc + [index]]. *)
Fixpoint list_of {A B} (f : list string -> A -> Validation B)
    (loc : list string) (i : nat) (xs : list A) : Validation (list B) :=
  match xs with
  | [] => Valid []
  | x :: xs' =>
      match f (loc ++ [pretty i])%list x, list_of f loc (S i) xs' with
      | Valid b, Valid bs => Valid (b :: bs)
      | Crashed e, _ => Crashed e
      | _, Crashed e => Crashed e
      | v, vs => Invalid (errors_of v ++ errors_of vs)%list
      end
  end.

(** [FortuneIn]; the members of a request body are strings or absent. *)
Record FortuneIn : Type := mkFortuneIn {
  in_author : string;
  in_tags : list string;
  in_content : string }.

(** [FortunePatch] *)
Record FortunePatch : Type := mkFortunePatch {
  patch_author_ : option string;
  patch_tags : option (list string);
  patch_content : option string }.

(** [FortunePatch.verify_any] *)
Definition verify_any (self : FortunePatch) : Result FortunePatch :=
  let attrs :=
    [bool_decide (patch_author_ self = None);
     bool_decide (patch_tags self = None);
     bool_decide (patch_content self = None)] in
  if forallb (fun b => b) attrs then
    Raise (ValueError "all attributes are missing")
  else Return self.

(** Validation of a [FortunePatch] body: the fields, then, when all of them
    are valid, [verify_any]. *)
Definition validate_FortunePatch (loc : list string) (body : FortunePatch)
  : Validation FortunePatch :=
  let author := optional AuthorName (loc ++ ["author"])%list (patch_author_ body) in
  let tags :=
    optional (fun l => list_of TagValue l 0) (loc ++ ["tags"])%list (patch_tags body) in
  let content := optional FortuneContent (loc ++ ["content"])%list (patch_content body) in
  match author, tags, content with
  | Valid a, Valid t, Valid c =>
      AfterValidator verify_any loc (mkFortunePatch a t c)
  | Crashed e, _, _ | _, Crashed e, _ | _, _, Crashed e => Crashed e
  | _, _, _ =>
      Invalid (errors_of author ++ errors_of tags ++ errors_of content)%list
  end.

(** Validation of a [FortuneIn] body; a missing member is reported as
    [missing]. *)
Definition validate_FortuneIn (loc : list string)
    (author : option string) (tags : option (list string))
    (content : option string) : Validation FortuneIn :=
  let required {B} (f : list string -> string -> Validation B) l x :=
    match x with
    | Some a => f l a
    | None => Invalid [mkError "missing" l "Field required"]
    end in
  let author := required AuthorName (loc ++ ["author"])%list author in
  let tags :=
    match tags with
    | Some ts => list_of TagValue (loc ++ ["tags"])%list 0 ts
    | None => Valid []
    end in
  let content := required FortuneContent (loc ++ ["content"])%list content in
  match author, tags, content with
  | Valid a, Valid t, Valid c => Valid (mkFortuneIn a t c)
  | Crashed e, _, _ | _, Crashed e, _ | _, _, Crashed e => Crashed e
  | _, _, _ =>
      Invalid (errors_of author ++ errors_of tags ++ errors_of content)%list
  end.

(** ** [tenacity]: the [retry] decorator *)

(** The decorators of [router.py] pass [reraise], [wait] and [stop] and no
    [retry] argument, so the default of [tenacity] applies:
    [retry_if_exception_type()], true of every instance of [Exception]. *)
Definition retry_if_exception_type (e : exn) : bool := is_Exception e.

(** [stop_after_attempt(n)] *)
Definition stop_after_attempt (max_attempt_number attempt_number : nat) : bool :=
  (max_attempt_number <=? attempt_number)%nat.

(** [wait_exponential(multiplier, min)], in milliseconds:
    [max(max(0, min), min(multiplier * 2 ** (attempt_number - 1), max))]. *)
Definition MAX_WAIT : Z := maxsize / 2 * 1000.

Definition wait_exponential (multiplier min_ : Z) (attempt_number : nat) : Z :=
  Z.max (Z.max 0 min_)
    (Z.min (multiplier * 2 ^ (Z.of_nat attempt_number - 1)) MAX_WAIT).

(** The state of a retried call: the outcome ([None] while the loop has not
    finished), the number of the last attempt and the time slept. *)
Record RetryCallState (A : Type) : Type := mkRetryCallState {
  outcome : option (Result A);
  attempt_number : nat;
  idle_for : Z }.
Arguments mkRetryCallState {A} outcome attempt_number idle_for.
Arguments outcome {A} r.
Arguments attempt_number {A} r.
Arguments idle_for {A} r.

(** Modelled from the spec: the loop of [AsyncRetrying.__call__]
    ([while True]): call [fn]; return its result; on an exception that the
    retry predicate selects, stop and re-raise it ([reraise=True]) when
    [stop] says so, else sleep for [wait] and try again.  [fuel] bounds the
    number of iterations. *)
Fixpoint retry_loop {A} (fuel : nat) (wait : nat -> Z) (stop : nat -> bool)
    (fn : M A) (n : nat) (idle : Z) (s : Session)
  : RetryCallState A * Session :=
  match fuel with
  | O => (mkRetryCallState None n idle, s)
  | S fuel' =>
      match fn s with
      | (Return a, s') => (mkRetryCallState (Some (Return a)) n idle, s')
      | (Raise e, s') =>
          if retry_if_exception_type e then
            if stop n then (mkRetryCallState (Some (Raise e)) n idle, s')
            else
              let w := wait n in
              retry_loop fuel' wait stop fn (S n) (idle + w) (snd (sleep w s'))
          else (mkRetryCallState (Some (Raise e)) n idle, s')
      end
  end.

(** [@retry(reraise=True, wait=wait, stop=stop)] *)
Definition retry {A} (fuel : nat) (wait : nat -> Z) (stop : nat -> bool)
    (fn : M A) (s : Session) : RetryCallState A * Session :=
  retry_loop fuel wait stop fn 1 0 s.

(** [await] on a retried call; [None] when the loop ran out of fuel. *)
Definition await_retry {A} (call : Session -> RetryCallState A * Session)
  : M (option A) :=
  fun s =>
    match call s with
    | (r, s') =>
        match outcome r with
        | None => (Return None, s')
        | Some (Return a) => (Return (Some a), s')
        | Some (Raise e) => (Raise e, s')
        end
    end.

(** ** [lucky/dependencies.py] *)

(** [catch_session_exceptions]: an [EntityExistsError] raised while the
    request holds the session becomes [HTTPException(409, str(e))]. *)
Definition catch_session_exceptions {A} (m : M A) : M A :=
  try_except m
    (fun e =>
       match e with
       | EntityExistsError msg => throw (HTTPException 409 msg)
       | _ => throw e
       end).

(** [get_session]: [async with async_session() as session] gives the
    request a session of its own and closes it at the end. *)
Definition fresh_session (s : Session) : Session :=
  mkSession (db s) [] false (clock s) (tsid s) (statements s) (faults s).

Definition get_session {A} (m : M A) : M A :=
  fun s =>
    match m (fresh_session s) with
    | (r, s') => (r, fresh_session s')
    end.

(** [SessionDep] *)
Definition SessionDep {A} (m : M A) : M A :=
  catch_session_exceptions (get_session m).

(** ** [lucky/router.py] *)

(** Response bodies: [FortuneOut]; [AuthorOut] and [TagOut] (the object and
    its fortunes); the [items] of a collection; [{"detail": ...}]. *)
Inductive Body : Type :=
| Item (e : Entity)
| ItemWithFortunes (e : Entity) (fortunes : list Entity)
| Items (items : list Entity)
| ItemsWithFortunes (items : list (Entity * list Entity))
| Detail (detail : string)
| ValidationDetail (errors : list ErrorDetails).

Record Response : Type := mkResponse { status : nat; body : Body }.

(** What the application answers for the outcome of an endpoint: the value
    with status 200, an [HTTPException] with its status and detail, any
    other exception as a server error. *)
Definition respond {A} (to_body : A -> Body) (r : Result A) : Response :=
  match r with
  | Return a => mkResponse 200 (to_body a)
  | Raise (HTTPException status_code detail) => mkResponse status_code (Detail detail)
  | Raise _ => mkResponse 500 (Detail "Internal Server Error")
  end.

(** A request whose parameters fail validation is answered with status 422
    before the endpoint runs; an exception that escapes a validator is a
    server error. *)
Definition endpoint {P A} (params : Validation P) (handler : P -> M A)
    (to_body : A -> Body) : Session -> Response * Session :=
  fun s =>
    match params with
    | Invalid errors => (mkResponse 422 (ValidationDetail errors), s)
    | Crashed e => (mkResponse 500 (Detail "Internal Server Error"), s)
    | Valid p =>
        match SessionDep (handler p) s with
        | (r, s') => (respond to_body r, s')
        end
    end.

(** Path and body parameters are validated together. *)
Definition both {A B} (a : Validation A) (b : Validation B) : Validation (A * B) :=
  match a, b with
  | Valid x, Valid y => Valid (x, y)
  | Crashed e, _ | _, Crashed e => Crashed e
  | _, _ => Invalid (errors_of a ++ errors_of b)%list
  end.

(** [get_tags], [get_authors] *)
Definition get_with_fortunes (cls : Cls) : M (list (Entity * list Entity)) :=
  objects <- select cls ;;
  mapM with_fortunes objects.

(** [get_tag], [get_author], [get_fortune] *)
Definition not_found (cls : Cls) : exn :=
  HTTPException 404 (lower (class_name cls) ++ " not found").

Definition get_one (cls : Cls) (key : Z) : M Entity :=
  object <- session_get cls key ;;
  match object with
  | None => throw (not_found cls)
  | Some o => ret o
  end.

(** [patch_tag] ([cls = Tag], [name = "tag"]) and [patch_author]
    ([cls = Author], [name = "name"]) *)
Definition patch_named (cls : Cls) (name : string) (key : Z) (value : string)
  : M (Entity * list Entity) :=
  object <- get_one cls key ;;
  object <- save (setattr object name (VStr value)) ;;
  with_fortunes object.

Definition patch_tag : Z -> string -> M (Entity * list Entity) :=
  patch_named Tag "tag".

Definition patch_author : Z -> string -> M (Entity * list Entity) :=
  patch_named Author "name".

(** [get_fortunes] *)
Definition get_fortunes : M (list Entity) := select Fortune.

(** The body of [_patch_fortune], under the decorator. *)
Definition _patch_fortune__wrapped__ (fortune_id : Z) (patch : FortunePatch)
  : M Entity :=
  fortune <- get_one Fortune fortune_id ;;
  let fortune := flag_modified fortune "content" in
  fortune <- match patch_author_ patch with
             | Some name =>
                 if bool_decide (name = "") then ret fortune
                 else
                   author <- new_or_existing Author [("name", VStr name)] ;;
                   ret (set_author fortune author)
             | None => ret fortune
             end ;;
  let fortune :=
    match patch_content patch with
    | Some content =>
        if bool_decide (content = "") then fortune
        else setattr fortune "content" (VStr content)
    | None => fortune
    end in
  fortune <- match patch_tags patch with
             | Some tags =>
                 tags <- mapM (fun tag => new_or_existing Tag [("tag", VStr tag)])
                           tags ;;
                 ret (set_tags fortune tags)
             | None => ret fortune
             end ;;
  save fortune.

(** The body of [_create_fortune], under the decorator. *)
Definition _create_fortune__wrapped__ (fortune_in : FortuneIn) : M Entity :=
  author <- new_or_existing Author [("name", VStr (in_author fortune_in))] ;;
  tags <- mapM (fun tag => new_or_existing Tag [("tag", VStr tag)])
            (in_tags fortune_in) ;;
  let fortune := Fortune_ (in_content fortune_in) author tags in
  save fortune.

(** [@retry(reraise=True, wait=wait_exponential(multiplier=0.1, min=0.1),
           stop=stop_after_attempt(4))], times in milliseconds. *)
Definition retrying {A} (fuel : nat) (fn : M A)
  : Session -> RetryCallState A * Session :=
  retry fuel (wait_exponential 100 100) (stop_after_attempt 4) fn.

Definition _patch_fortune (fuel : nat) (fortune_id : Z) (patch : FortunePatch)
  : Session -> RetryCallState Entity * Session :=
  retrying fuel (_patch_fortune__wrapped__ fortune_id patch).

Definition _create_fortune (fuel : nat) (fortune_in : FortuneIn)
  : Session -> RetryCallState Entity * Session :=
  retrying fuel (_create_fortune__wrapped__ fortune_in).

(** A response that is still being computed when the fuel ends is [None]. *)
Definition item_or_none (o : option Entity) : Body :=
  match o with
  | Some e => Item e
  | None => Detail ""
  end.

(** [patch_fortune] and [create_fortune] *)
Definition patch_fortune (fuel : nat) (fortune_id : Z) (patch : FortunePatch)
  : M (option Entity) :=
  await_retry (_patch_fortune fuel fortune_id patch).

Definition create_fortune (fuel : nat) (fortune_in : FortuneIn)
  : M (option Entity) :=
  await_retry (_create_fortune fuel fortune_in).

(** [PATCH /api/fortunes/{fortune_id}] *)
Definition PATCH_fortune (fuel : nat) (fortune_id : string) (body : FortunePatch)
  : Session -> Response * Session :=
  endpoint
    (both (EntityId ["path"; "fortune_id"] fortune_id)
       (validate_FortunePatch ["body"] body))
    (fun p => patch_fortune fuel (fst p) (snd p))
    item_or_none.

(** [POST /api/fortunes] *)
Definition POST_fortune (fuel : nat) (author : option string)
    (tags : option (list string)) (content : option string)
  : Session -> Response * Session :=
  endpoint (validate_FortuneIn ["body"] author tags content)
    (create_fortune fuel)
    item_or_none.

(** [PATCH /api/authors/{author_id}] *)
Definition PATCH_author (author_id : string) (name : string)
  : Session -> Response * Session :=
  endpoint
    (both (EntityId ["path"; "author_id"] author_id)
       (AuthorName ["body"; "name"] name))
    (fun p => patch_author (fst p) (snd p))
    (fun r => ItemWithFortunes (fst r) (snd r)).

(** [PATCH /api/tags/{tag_id}] *)
Definition PATCH_tag (tag_id : string) (tag : string)
  : Session -> Response * Session :=
  endpoint
    (both (EntityId ["path"; "tag_id"] tag_id) (TagValue ["body"; "tag"] tag))
    (fun p => patch_tag (fst p) (snd p))
    (fun r => ItemWithFortunes (fst r) (snd r)).

(** [GET /api/fortunes] *)
Definition GET_fortunes : Session -> Response * Session :=
  endpoint (Valid tt) (fun _ => get_fortunes) Items.

(** [get_tag] ([cls = Tag]) and [get_author] ([cls = Author]) *)
Definition get_named (cls : Cls) (key : Z) : M (Entity * list Entity) :=
  object <- get_one cls key ;;
  with_fortunes object.

Definition get_tag : Z -> M (Entity * list Entity) := get_named Tag.

Definition get_author : Z -> M (Entity * list Entity) := get_named Author.

(** [get_fortune] *)
Definition get_fortune : Z -> M Entity := get_one Fortune.

(** [get_tags] and [get_authors] *)
Definition get_tags : M (list (Entity * list Entity)) := get_with_fortunes Tag.

Definition get_authors : M (list (Entity * list Entity)) :=
  get_with_fortunes Author.

(** [GET /api/tags/{tag_id}] *)
Definition GET_tag (tag_id : string) : Session -> Response * Session :=
  endpoint (EntityId ["path"; "tag_id"] tag_id) get_tag
    (fun r => ItemWithFortunes (fst r) (snd r)).

(** [GET /api/authors/{author_id}] *)
Definition GET_author (author_id : string) : Session -> Response * Session :=
  endpoint (EntityId ["path"; "author_id"] author_id) get_author
    (fun r => ItemWithFortunes (fst r) (snd r)).

(** [GET /api/fortunes/{fortune_id}] *)
Definition GET_fortune (fortune_id : string) : Session -> Response * Session :=
  endpoint (EntityId ["path"; "fortune_id"] fortune_id) get_fortune Item.

(** [GET /api/tags] *)
Definition GET_tags : Session -> Response * Session :=
  endpoint (Valid tt) (fun _ => get_tags) ItemsWithFortunes.

(** [GET /api/authors] *)
Definition GET_authors : Session -> Response * Session :=
  endpoint (Valid tt) (fun _ => get_authors) ItemsWithFortunes.

(** ** Sample data for the examples *)

(** A new database at clock 0. *)
Definition empty_session : Session := mkSession empty_db [] false 0 0 0 [].

Definition twain : Entity := construct Author [("name", VStr "Mark Twain")].

(** The session after [twain.save(session)]: one author, with identifier 1. *)
Definition session_with_twain : Session := snd (save twain empty_session).

(** The uniqueness constraints that the spec names: name, content, tag. *)
Definition on_name_content_tag (k : Constraint) : bool :=
  match k with
  | UNIQUE Author c_name | UNIQUE Fortune c_content | UNIQUE Tag c_tag => true
  | _ => false
  end.

(** The objects of class [cls] whose row has, for every criterion
    [(name, value)], the value [value] in the column [name]. *)
Definition satisfies (attrs : list (string * Value)) (row : gmap string Value)
  : bool :=
  forallb (fun kv => bool_decide (attr row (fst kv) = snd kv)) attrs.

Definition existing (cls : Cls) (attrs : list (string * Value)) (d : DB)
  : list Entity :=
  omap (load d cls) (List.filter (satisfies attrs) (table cls d)).

(** Two fortunes of one author. *)
Definition session_with_two_fortunes : Session :=
  snd (_create_fortune__wrapped__ (mkFortuneIn "Mark Twain" [] "Go to bed.")
         (snd (_create_fortune__wrapped__
                 (mkFortuneIn "Mark Twain" ["wit"] "Truth is stranger than fiction.")
                 empty_session))).

(** ** The retried writes as one family *)

(** A fortune create or patch request, after validation. *)
Inductive WriteRequest : Type :=
| Create (fortune_in : FortuneIn)
| Patch (fortune_id : Z) (patch : FortunePatch).

(** The get-or-create-then-save sequence of a request: one attempt. *)
Definition wrapped (r : WriteRequest) : M Entity :=
  match r with
  | Create fortune_in => _create_fortune__wrapped__ fortune_in
  | Patch fortune_id patch => _patch_fortune__wrapped__ fortune_id patch
  end.

(** The decorated function of a request. *)
Definition retried (fuel : nat) (r : WriteRequest)
  : Session -> RetryCallState Entity * Session :=
  match r with
  | Create fortune_in => _create_fortune fuel fortune_in
  | Patch fortune_id patch => _patch_fortune fuel fortune_id patch
  end.

(** The endpoint function of a request. *)
Definition handle (fuel : nat) (r : WriteRequest) : M (option Entity) :=
  match r with
  | Create fortune_in => create_fortune fuel fortune_in
  | Patch fortune_id patch => patch_fortune fuel fortune_id patch
  end.

(** The retry of the spec, written out: up to 4 attempts, the waits between
    them 100, 200 and 400 ms, the outcome of the last attempt handed on as
    it is.  An attempt that succeeds, or that fails with something that is
    not an [Exception], ends the sequence. *)
Definition attempt_or {A} (fn : M A) (n : nat) (idle : Z)
    (next : Session -> RetryCallState A * Session) (s : Session)
  : RetryCallState A * Session :=
  match fn s with
  | (Return a, t) => (mkRetryCallState (Some (Return a)) n idle, t)
  | (Raise e, t) =>
      if is_Exception e then next t
      else (mkRetryCallState (Some (Raise e)) n idle, t)
  end.

Definition last_attempt {A} (fn : M A) (n : nat) (idle : Z) (s : Session)
  : RetryCallState A * Session :=
  match fn s with
  | (r, t) => (mkRetryCallState (Some r) n idle, t)
  end.

Definition four_attempts {A} (fn : M A) : Session -> RetryCallState A * Session :=
  attempt_or fn 1 0
    (fun t1 =>
       attempt_or fn 2 100
         (fun t2 =>
            attempt_or fn 3 300
              (fun t3 => last_attempt fn 4 700 (snd (sleep 400 t3)))
              (snd (sleep 200 t2)))
         (snd (sleep 100 t1))).

(** The session after [POST /api/fortunes] with Mark Twain's fortune. *)
Definition twain_fortune : FortuneIn :=
  mkFortuneIn "Mark Twain" ["wit"] "Truth is stranger than fiction.".

Definition session_with_fortune : Session :=
  snd (POST_fortune 4 (Some "Mark Twain") (Some ["wit"])
         (Some "Truth is stranger than fiction.") empty_session).


(** ** Invariants of the store *)

(** The identifiers of the rows of a table, in table order. *)
Definition ids (rows : list (gmap string Value)) : list Value :=
  map (fun r => attr r "id") rows.

Definition is_int (v : Value) : bool :=
  match v with
  | VInt _ => true
  | _ => false
  end.

(** Every row has an integer identifier of its own. *)
Definition keys_ok (rows : list (gmap string Value)) : bool :=
  forallb (fun r => is_int (attr r "id")) rows && bool_decide (NoDup (ids rows)).

(** [created_at] is set and not in the future; [updated_at], when set, lies
    between [created_at] and now. *)
Definition row_times_ok (now : Z) (row : gmap string Value) : bool :=
  match attr row "created_at", attr row "updated_at" with
  | VTime c, VNone => c <=? now
  | VTime c, VTime u => (c <=? u) && (u <=? now)
  | _, _ => false
  end.

Definition table_ok (now : Z) (rows : list (gmap string Value)) : bool :=
  keys_ok rows && forallb (row_times_ok now) rows.

(** The author of a fortune row exists. *)
Definition fortune_row_ok (d : DB) (f : gmap string Value) : bool :=
  match attr f "author_id" with
  | VInt a => existsb (has_key a) (authors d)
  | _ => false
  end.

(** What holds of every database that the service has written. *)
Definition store_ok (now : Z) (d : DB) : bool :=
  table_ok now (authors d) && table_ok now (fortunes d) && table_ok now (tags d)
  && forallb (fortune_row_ok d) (fortunes d).

(** The attributes that the application never assigns. *)
Definition protected : list string := ["id"; "created_at"; "updated_at"].

(** A new object carries no identifier and no timestamps; a persistent
    object has its row, has its protected attributes as loaded and none of
    them flagged. *)
Definition obj_ok (d : DB) (o : Obj) : bool :=
  match o_key o with
  | None => forallb (fun k => bool_decide (attr (o_attrs o) k = VNone)) protected
  | Some key =>
      match find_row (o_cls o) key d with
      | Some row =>
          forallb
            (fun k =>
               negb (bool_decide (k ∈ o_flagged o))
               && match o_attrs o !! k with
                  | Some v => bool_decide (v = attr row k)
                  | None => true
                  end)
            protected
      | None => false
      end
  end.

(** A related object is new, or persistent and as loaded. *)
Definition related_ok (d : DB) (o : Obj) : bool :=
  match o_key o with
  | None => obj_ok d o
  | Some key =>
      bool_decide (find_row (o_cls o) key d = Some (o_attrs o))
      && bool_decide (o_flagged o = [])
  end.

Definition related (e : Entity) : list Obj :=
  match e_author e with
  | Some a => a :: e_tags e
  | None => e_tags e
  end.

(** The objects that the service hands to [save]. *)
Definition entity_ok (d : DB) (e : Entity) : bool :=
  obj_ok d (e_obj e) && forallb (related_ok d) (related e).

(** The session at the start of a request. *)
Definition session_ok (s : Session) : bool :=
  store_ok (func_now s) (db s)
  && match pending s with
     | [] => true
     | _ => false
     end.

(** No identifier leaves a table or moves in it: the identifiers of [d],
    table by table, open those of [d']. *)
Definition grows (d d' : DB) : Prop :=
  forall cls, ids (table cls d) `prefix_of` ids (table cls d').

(** The rows of [d] are those of [d'], with rows added at the end. *)
Definition appended (d d' : DB) : Prop :=
  forall cls, exists new, table cls d' = (table cls d ++ new)%list.

(** [t] differs from [s] at most in the count of statements: what a
    read leaves behind. *)
Definition same_store (s t : Session) : Prop :=
  db t = db s /\ pending t = pending s /\ inactive t = inactive s
  /\ clock t = clock s /\ tsid t = tsid s /\ faults t = faults s.

(** The fortune that [_patch_fortune] carries towards [save]: loaded by the
    session, flagged on [content], good for [save]. *)
Definition carried (d : DB) (f : Entity) : Prop :=
  entity_ok d f = true /\ e_key f <> None /\ e_cls f = Fortune
  /\ "content" ∈ o_flagged (e_obj f).

(** ** Bounds of the request bodies *)

(** The length bounds of a constrained string. *)
Definition within (min_length max_length : nat) (s : string) : Prop :=
  (min_length <= String.length s <= max_length)%nat.

(** ** Reading endpoints *)

(** The endpoint that reads one object of a class. *)
Definition GET_one (cls : Cls) : string -> Session -> Response * Session :=
  match cls with
  | Author => GET_author
  | Fortune => GET_fortune
  | Tag => GET_tag
  end.

(** What a request leaves of the session it was given: the database, the
    clock, the identifier generator and the coming faults are as before. *)
Definition untouched (s t : Session) : Prop :=
  db t = db s /\ clock t = clock s /\ tsid t = tsid s /\ faults t = faults s.

(** The author that [twain.save(session)] returns. *)
Definition saved_twain : Entity :=
  match fst (save twain empty_session) with
  | Return e => e
  | Raise _ => twain
  end.

(** The column that [patch_author] and [patch_tag] assign. *)
Definition named_column (cls : Cls) : Column :=
  match cls with
  | Author => c_name
  | Fortune => c_content
  | Tag => c_tag
  end.

(** Two authors: Mark Twain (identifier 1) and Oscar Wilde (identifier 2). *)
Definition session_with_two_authors : Session :=
  snd (save (construct Author [("name", VStr "Oscar Wilde")]) session_with_twain).

(** ** Uniqueness *)

(** The values of a column, in table order. *)
Definition column_values (c : Column) (rows : list (gmap string Value))
  : list Value :=
  map (fun r => attr r (column_name c)) rows.

(** No two rows of a table agree on a column that is declared
    [primary_key=True] or [unique=True]. *)
Definition unique_ok (d : DB) : Prop :=
  forall cls c, In c (unique cls) -> NoDup (column_values c (table cls d)).

(** ** [scripts/import_data.py]

    The loop of [main] over the rows of the CSV file.  An object that the
    loop creates is kept in a dictionary under its name and is never
    replaced, so an object is identified with its key: a dictionary is the
    list of its keys, in insertion order. *)

Module ImportData.

(** What stops the loop. *)
Inductive Error : Type :=
| KeyError (key : string)
| AttributeError_split.

(** A row of [csv.DictReader]: a cell for every column of the header, [None]
    where the line is short. *)
Definition Row : Type := gmap string (option string).

(** [row.pop(key)] *)
Definition pop (key : string) (row : Row) : Error + option string :=
  match row !! key with
  | Some cell => inr cell
  | None => inl (KeyError key)
  end.

(** [s.split(sep)] for a separator of one character. *)
Fixpoint split (sep : ascii) (s : string) : list string :=
  match s with
  | EmptyString => [EmptyString]
  | String c s' =>
      if Ascii.eqb c sep then EmptyString :: split sep s'
      else
        match split sep s' with
        | piece :: pieces => String c piece :: pieces
        | [] => [String c EmptyString]
        end
  end.

(** [Fortune(content=...)] with its [author] and its [tags], the related
    objects under their keys. *)
Record NewFortune : Type := mkNewFortune {
  nf_content : option string;
  nf_author : option string;
  nf_tags : list string }.

(** [all_authors], [all_fortunes], [all_tags] and the fortunes given to
    [session.add], in that order. *)
Record State : Type := mkState {
  all_authors : list (option string);
  all_fortunes : list (option string);
  all_tags : list string;
  added : list NewFortune }.

(** [if key not in d: d[key] = ...] *)
Definition setdefault {A : Type} `{EqDecision A} (key : A) (keys : list A)
  : list A :=
  if bool_decide (key ∈ keys) then keys else (keys ++ [key])%list.

(** The body of [for row in reader]. *)
Definition import_row (row : Row) (st : State) : Error + State :=
  match pop "author" row with
  | inl err => inl err
  | inr author_name =>
      let authors := setdefault author_name (all_authors st) in
      match pop "fortune" row with
      | inl err => inl err
      | inr fortune_content =>
          if bool_decide (fortune_content ∈ all_fortunes st) then
            inr (mkState authors (all_fortunes st) (all_tags st) (added st))
          else
            match pop "tags" row with
            | inl err => inl err
            | inr None => inl AttributeError_split
            | inr (Some cell) =>
                let tag_list := split "/" cell in
                inr (mkState authors
                       (all_fortunes st ++ [fortune_content])
                       (foldl (fun tags tag_name => setdefault tag_name tags)
                          (all_tags st) tag_list)
                       (added st
                        ++ [mkNewFortune fortune_content author_name tag_list]))
            end
      end
  end.

Fixpoint import_rows (reader : list Row) (st : State) : Error + State :=
  match reader with
  | [] => inr st
  | row :: rows =>
      match import_row row st with
      | inl err => inl err
      | inr st' => import_rows rows st'
      end
  end.

(** The loop of [main], from the empty dictionaries. *)
Definition main (reader : list Row) : Error + State :=
  import_rows reader (mkState [] [] [] []).

End ImportData.

(** One object per name in the dictionaries of the import, one fortune per
    content, and every author and tag of a fortune in its dictionary. *)
Definition import_consistent (st : ImportData.State) : Prop :=
  NoDup (ImportData.all_authors st) /\ NoDup (ImportData.all_tags st)
  /\ ImportData.all_fortunes st
     = map ImportData.nf_content (ImportData.added st)
  /\ NoDup (map ImportData.nf_content (ImportData.added st))
  /\ forall f, In f (ImportData.added st) ->
       In (ImportData.nf_author f) (ImportData.all_authors st)
       /\ (forall t, In t (ImportData.nf_tags f) ->
                     In t (ImportData.all_tags st))
       /\ ImportData.nf_tags f <> [].

(** Three rows of a CSV file; the third repeats the content of the first. *)
Definition sample_rows : list ImportData.Row :=
  [ <["author" := Some "Mark Twain"]>
      (<["fortune" := Some "Go to bed."]> {[ "tags" := Some "wit/sleep" ]});
    <["author" := Some "Oscar Wilde"]>
      (<["fortune" := Some "Be yourself."]> {[ "tags" := Some "wit" ]});
    <["author" := Some "Anonymous"]>
      (<["fortune" := Some "Go to bed."]> {[ "tags" := Some "" ]}) ].

Definition sample_import : ImportData.State :=
  match ImportData.main sample_rows with
  | inr st => st
  | inl _ => ImportData.mkState [] [] [] []
  end.

(** * Theorems *)

(** ** Identifier codec *)

(** The vectors of [tests/test_models.py]. *)
Example test_entity_id_from_string :
  entity_id_from_string "0K27TH4PYWP1P" = Return 687074410262059062.
Proof. reflexivity. Qed.

Example test_entity_id_to_string :
  entity_id_to_string 687074410262059062 = "0K27TH4PYWP1P".
Proof. reflexivity. Qed.

Example test_entity_id_from_string_raise_invalid_string :
  entity_id_from_string "aaaaaaaaaaaaa" = Raise (ValueError "invalid string").
Proof. reflexivity. Qed.

Section Codec.

Import TSID.

(** Every 5-bit value is the value of its own symbol. *)
Lemma ALPHABET_VALUES_alphabet_at (d : Z) :
  0 <= d < 32 -> ALPHABET_VALUES (alphabet_at d) = d.
Proof.
  intros Hd.
  assert (H : exists n, (n < 32)%nat /\ d = Z.of_nat n)
    by (exists (Z.to_nat d); lia).
  destruct H as (n & Hn & ->). unfold alphabet_at. rewrite Nat2Z.id.
  do 32 (destruct n as [|n]; [reflexivity|]). lia.
Qed.

Lemma land31_range (x : Z) : 0 <= Z.land x 31 < 32.
Proof.
  change 31 with (Z.ones 5). rewrite Z.land_ones by lia.
  apply Z.mod_pos_bound. lia.
Qed.

(** The symbol at offset [k] extends the low [k] bits to the low [k + 5]. *)
Lemma lor_chunk (x k : Z) :
  0 <= k ->
  Z.lor (Z.shiftl (Z.land (Z.shiftr x k) 31) k) (Z.land x (Z.ones k))
  = Z.land x (Z.ones (k + 5)).
Proof.
  intros Hk. apply Z.bits_inj'. intros n Hn.
  rewrite Z.lor_spec, !Z.land_spec, Z.shiftl_spec by lia.
  rewrite !Z.testbit_ones_nonneg by lia.
  destruct (Z.ltb_spec n k) as [Hlt|Hge].
  - rewrite (Z.testbit_neg_r _ (n - k)) by lia.
    destruct (Z.ltb_spec n (k + 5)); [|lia].
    now rewrite andb_true_r.
  - rewrite Z.land_spec, Z.shiftr_spec by lia.
    replace (n - k + k) with n by lia.
    change 31 with (Z.ones 5). rewrite Z.testbit_ones_nonneg by lia.
    rewrite andb_false_r, orb_false_r.
    destruct (Z.ltb_spec (n - k) 5), (Z.ltb_spec n (k + 5)); try lia; reflexivity.
Qed.

End Codec.

Section RoundTrip.

Import TSID.

Lemma length_string_of_list_ascii (l : list ascii) :
  String.length (string_of_list_ascii l) = List.length l.
Proof. induction l as [|c l IH]; simpl; [reflexivity | now rewrite IH]. Qed.

Lemma assemble_symbols (x : Z) (ss : list Z) (acc : Z) :
  assemble (map (fun s => alphabet_at (Z.land (Z.shiftr x s) 31)) ss) ss acc
  = fold_left (fun a s => Z.lor a (chunk x s)) ss acc.
Proof.
  revert acc. induction ss as [|s ss IH]; intros acc; simpl; [reflexivity|].
  rewrite ALPHABET_VALUES_alphabet_at by apply land31_range. apply IH.
Qed.

Lemma chunks_cover (x : Z) :
  0 <= x < 2 ^ 65 ->
  fold_left (fun a s => Z.lor a (chunk x s)) shifts 0 = x.
Proof.
  intros Hx.
  assert (E : Z.land x (Z.ones 65) = x).
  { rewrite Z.land_ones by lia. apply Z.mod_small. lia. }
  transitivity (Z.land x (Z.ones 65)); [|exact E]. clear E.
  change (Z.ones 65) with (Z.ones (60 + 5)). rewrite <- (lor_chunk x 60) by lia.
  change (Z.ones 60) with (Z.ones (55 + 5)). rewrite <- (lor_chunk x 55) by lia.
  change (Z.ones 55) with (Z.ones (50 + 5)). rewrite <- (lor_chunk x 50) by lia.
  change (Z.ones 50) with (Z.ones (45 + 5)). rewrite <- (lor_chunk x 45) by lia.
  change (Z.ones 45) with (Z.ones (40 + 5)). rewrite <- (lor_chunk x 40) by lia.
  change (Z.ones 40) with (Z.ones (35 + 5)). rewrite <- (lor_chunk x 35) by lia.
  change (Z.ones 35) with (Z.ones (30 + 5)). rewrite <- (lor_chunk x 30) by lia.
  change (Z.ones 30) with (Z.ones (25 + 5)). rewrite <- (lor_chunk x 25) by lia.
  change (Z.ones 25) with (Z.ones (20 + 5)). rewrite <- (lor_chunk x 20) by lia.
  change (Z.ones 20) with (Z.ones (15 + 5)). rewrite <- (lor_chunk x 15) by lia.
  change (Z.ones 15) with (Z.ones (10 + 5)). rewrite <- (lor_chunk x 10) by lia.
  change (Z.ones 10) with (Z.ones (5 + 5)). rewrite <- (lor_chunk x 5) by lia.
  change (Z.ones 5) with (Z.ones (0 + 5)). rewrite <- (lor_chunk x 0) by lia.
  change (Z.ones 0) with 0. rewrite Z.land_0_r, Z.lor_0_r.
  cbn [fold_left shifts]. unfold chunk.
  rewrite Z.lor_0_l, <- !Z.lor_assoc. reflexivity.
Qed.

Lemma symbols_valid (x : Z) (ss : list Z) :
  forallb is_symbol
    (map (fun s => alphabet_at (Z.land (Z.shiftr x s) 31)) ss) = true.
Proof.
  induction ss as [|s ss IH]; simpl; [reflexivity|].
  rewrite IH, andb_true_r. unfold is_symbol.
  rewrite ALPHABET_VALUES_alphabet_at by apply land31_range.
  pose proof (land31_range (Z.shiftr x s)).
  destruct (Z.eqb_spec (Z.land (Z.shiftr x s) 31) (-1)); [lia | reflexivity].
Qed.

Lemma from_string_to_string (x : Z) :
  0 <= x < 2 ^ 64 -> from_string (to_string x) = Return x.
Proof.
  intros Hx. unfold from_string, to_string.
  rewrite length_string_of_list_ascii, list_ascii_of_string_of_list_ascii.
  change (Nat.eqb (List.length _) TSID_CHARS) with true. cbn [negb].
  rewrite symbols_valid. cbn [negb].
  rewrite assemble_symbols, chunks_cover by lia.
  change (hd _ _) with (alphabet_at (Z.land (Z.shiftr x 60) 31)).
  rewrite ALPHABET_VALUES_alphabet_at by apply land31_range.
  assert (Hhi : 0 <= Z.shiftr x 60 < 16).
  { rewrite Z.shiftr_div_pow2 by lia. split.
    - apply Z.div_pos; lia.
    - apply Z.div_lt_upper_bound; lia. }
  assert (E : Z.land (Z.land (Z.shiftr x 60) 31) 16 = 0).
  { assert (C : exists n, (n < 16)%nat /\ Z.shiftr x 60 = Z.of_nat n)
      by (exists (Z.to_nat (Z.shiftr x 60)); lia).
    destruct C as (n & Hn & ->).
    do 16 (destruct n as [|n]; [reflexivity|]). lia. }
  rewrite E. reflexivity.
Qed.

End RoundTrip.

(** C1: for every integer [x] in [[0, max_int64]], decoding the encoded
    string gives back [x]:
    [entity_id_from_string(entity_id_to_string(x)) == x]. *)
Theorem entity_id_round_trip (x : Z) :
  0 <= x <= maxsize ->
  entity_id_from_string (entity_id_to_string x) = Return x.
Proof.
  intros Hx. unfold entity_id_from_string, entity_id_to_string, maxsize in *.
  rewrite from_string_to_string by lia.
  destruct (Z.ltb_spec x 0); [lia|].
  destruct (Z.gtb_spec x (2 ^ 63 - 1)); [lia|]. reflexivity.
Qed.

Lemma entity_id_round_trip_witness :
  0 <= 687074410262059062 <= maxsize /\
  entity_id_from_string (entity_id_to_string 687074410262059062)
  = Return 687074410262059062.
Proof.
  assert (H : 0 <= 687074410262059062 <= maxsize) by (unfold maxsize; lia).
  split; [exact H | exact (entity_id_round_trip _ H)].
Defined.

(** ** The entity store: [save] *)

Section Save.

(** What [refresh] can raise. *)
Lemma refresh_raises (e : Entity) (s s' : Session) (x : exn) :
  refresh e s = (Raise x, s') ->
  x = PendingRollbackError \/ x = InvalidRequestError.
Proof.
  unfold refresh, bind, execute, gets, throw, ret.
  destruct (inactive s); [intros [= <- _]; now left|].
  destruct (e_key e) as [key|]; [|intros [= <- _]; now right].
  destruct (find_row _ _ _) as [row|]; [|intros [= <- _]; now right].
  destruct (load _ _ _); [discriminate | intros [= <- _]; now right].
Qed.

(** What [commit] can raise. *)
Lemma commit_raises (s s' : Session) (x : exn) :
  commit s = (Raise x, s') ->
  x = PendingRollbackError
  \/ x = OperationalError "database is locked"
  \/ exists err, x = exn_of_DBError err.
Proof.
  unfold commit. destruct (inactive s); [intros [= <- _]; now left|].
  destruct (faults s) as [|[] rest].
  - destruct (mapM _ _ _) as [[err|es] tx]; [|discriminate].
    intros [= <- _]. right. right. now exists err.
  - intros [= <- _]. right. now left.
  - destruct (mapM _ _ _) as [[err|es] tx]; [|discriminate].
    intros [= <- _]. right. right. now exists err.
Qed.

(** The pattern of [save] finds exactly the failed UNIQUE constraints. *)
Lemma unique_constraint_failed (k : Constraint) :
  re_search_ignorecase "unique constraint failed" (sqlite_message k)
  = is_unique_violation k.
Proof. destruct k as [[] []| |[] []| |]; vm_compute; reflexivity. Qed.

Lemma commit_failure_keeps_db (s s' : Session) (x : exn) :
  commit s = (Raise x, s') -> db s' = db s /\ pending s' = [] \/ s' = s.
Proof.
  unfold commit. destruct (inactive s); [intros [= _ <-]; now right|].
  destruct (faults s) as [|[] rest].
  - destruct (mapM _ _ _) as [[err|es] tx]; [|discriminate].
    intros [= _ <-]. now left.
  - intros [= _ <-]. now left.
  - destruct (mapM _ _ _) as [[err|es] tx]; [|discriminate].
    intros [= _ <-]. now left.
Qed.

End Save.

Section SaveClaims.

Lemma save_unfold (self : Entity) (s : Session) :
  save self s =
  match commit (snd (session_add self s)) with
  | (Raise x, s1) =>
      match save_handler self x s1 with
      | (Raise y, s2) => (Raise y, s2)
      | (Return flushed, s2) => refresh (List.last flushed self) s2
      end
  | (Return flushed, s1) => refresh (List.last flushed self) s1
  end.
Proof.
  unfold save, bind, try_except. cbn [session_add snd].
  destruct (commit _) as [[x|flushed] s1]; reflexivity.
Qed.

(** The handler of [save] on the failures that [commit] produces. *)
Lemma save_handler_spec (self : Entity) (x : exn) (s0 s1 : Session) :
  commit s0 = (Raise x, s1) ->
  (exists k, is_unique_violation k = true
             /\ x = IntegrityError (sqlite_message k)
             /\ save_handler self x s1
                = (Raise (EntityExistsError
                            (lower (class_name (e_cls self)) ++ " exists")),
                   snd (rollback s1)))
  \/ ((forall k, is_unique_violation k = true ->
                 x <> IntegrityError (sqlite_message k))
      /\ save_handler self x s1 = (Raise x, s1)).
Proof.
  intros Hc. destruct (commit_raises _ _ _ Hc) as [->|[->|[err ->]]].
  - right. split; [intros k _; discriminate | reflexivity].
  - right. split; [intros k _; discriminate | reflexivity].
  - destruct err as [k| |].
    + cbn [exn_of_DBError save_handler].
      rewrite unique_constraint_failed.
      destruct (is_unique_violation k) eqn:Hk.
      * left. exists k. repeat split; try reflexivity; assumption.
      * right. split; [|reflexivity].
        intros k' Hk' [= E].
        pose proof (unique_constraint_failed k) as U1.
        pose proof (unique_constraint_failed k') as U2.
        rewrite E, U2, Hk, Hk' in U1. discriminate.
    + right. split; [intros k _; discriminate | reflexivity].
    + right. split; [intros k _; discriminate | reflexivity].
Qed.

End SaveClaims.

(** C3 (amended): for every entity and session state, [save(entity)] raises
    [EntityExistsError] exactly when the commit of the entity fails with an
    integrity error that reports a failed uniqueness constraint (on
    name/content/tag, on a primary key or on the pair of [fortunes_tags]);
    the message is then ["<entity> exists"] with the lower-cased type name
    of the saved entity.  Every other exception of the commit leaves [save]
    unchanged, with the session as the commit left it. *)
Theorem save_conflict_iff_unique_violation (self : Entity) (s : Session) :
  let storage := commit (snd (session_add self s)) in
  (forall msg,
      fst (save self s) = Raise (EntityExistsError msg) <->
      msg = lower (class_name (e_cls self)) ++ " exists"
      /\ exists k, is_unique_violation k = true
                   /\ fst storage = Raise (IntegrityError (sqlite_message k)))
  /\ (forall x,
         fst storage = Raise x ->
         (forall k, is_unique_violation k = true ->
                    x <> IntegrityError (sqlite_message k)) ->
         save self s = (Raise x, snd storage)).
Proof.
  cbn zeta. rewrite save_unfold.
  destruct (commit (snd (session_add self s))) as [[x|flushed] s1] eqn:Hc.
  - destruct (save_handler_spec self x _ _ Hc) as [(k & Hk & -> & ->)|[Hn ->]].
    + split.
      * intros msg. cbn [fst]. split.
        -- intros [= <-]. split; [reflexivity|]. now exists k.
        -- intros [-> _]. reflexivity.
      * intros x [= <-] Hx. now destruct (Hx k Hk).
    + split.
      * intros msg. cbn [fst]. split.
        -- intros [= ->]. destruct (commit_raises _ _ _ Hc) as [E|[E|[[] E]]];
             discriminate E.
        -- intros [_ (k & Hk & [= ->])]. now destruct (Hn k Hk).
      * intros y [= <-] _. reflexivity.
  - split.
    + intros msg. cbn [fst]. split.
      * destruct (refresh _ s1) as [[y|e] s2] eqn:Hr; [|discriminate].
        cbn [fst]. intros [= ->].
        destruct (refresh_raises _ _ _ _ Hr); discriminate.
      * intros [_ (k & _ & [=])].
    + intros x [=].
Qed.

(** C3, counterexample: an author saved under the identifier of an existing
    author, with a name of its own, fails on the primary key; [save] raises
    [EntityExistsError] although no uniqueness constraint on
    name/content/tag failed. *)
Lemma save_conflict_on_primary_key :
  let self := construct Author [("id", VInt 1); ("name", VStr "Anonymous")] in
  let storage := commit (snd (session_add self session_with_twain)) in
  fst storage = Raise (IntegrityError "UNIQUE constraint failed: authors.id")
  /\ ~ (fst (save self session_with_twain)
        = Raise (EntityExistsError "author exists")
        <-> exists k, on_name_content_tag k = true
                      /\ fst storage = Raise (IntegrityError (sqlite_message k))).
Proof.
  cbn zeta. split; [vm_compute; reflexivity|].
  intros [H _].
  destruct H as (k & Hk & E); [vm_compute; reflexivity|].
  destruct k as [[] []| |[] []| |]; try discriminate Hk;
    vm_compute in E; discriminate E.
Qed.

(** C10: when [save] raises the conflict error, the session has been rolled
    back: nothing is pending, the session is active again, and the database
    is the one from before the call. *)
Theorem save_conflict_rolls_back (self : Entity) (s s' : Session) (msg : string) :
  save self s = (Raise (EntityExistsError msg), s') ->
  s' = snd (rollback (snd (commit (snd (session_add self s)))))
  /\ pending s' = [] /\ inactive s' = false /\ db s' = db s.
Proof.
  rewrite save_unfold.
  destruct (commit (snd (session_add self s))) as [[x|flushed] s1] eqn:Hc.
  - destruct (save_handler_spec self x _ _ Hc) as [(k & Hk & -> & ->)|[Hn ->]].
    + intros [= _ <-]. cbn [snd rollback pending inactive db].
      repeat split.
      destruct (commit_failure_keeps_db _ _ _ Hc) as [[-> _]| ->]; reflexivity.
    + intros [= -> _].
      destruct (commit_raises _ _ _ Hc) as [E|[E|[[] E]]]; discriminate E.
  - intros Hr. destruct (refresh_raises _ _ _ _ Hr); discriminate.
Qed.

Lemma save_conflict_rolls_back_witness :
  let s' := snd (save twain session_with_twain) in
  save twain session_with_twain = (Raise (EntityExistsError "author exists"), s')
  /\ pending s' = [] /\ inactive s' = false /\ db s' = db session_with_twain.
Proof.
  cbn zeta.
  assert (H : save twain session_with_twain
              = (Raise (EntityExistsError "author exists"),
                 snd (save twain session_with_twain)))
    by (vm_compute; reflexivity).
  split; [exact H|].
  exact (proj2 (save_conflict_rolls_back _ _ _ _ H)).
Defined.

(** ** The entity store: [new_or_existing] *)

Section GetOrCreate.

Lemma getattr_column_name (cls : Cls) (name : string) (c : Column) :
  getattr cls name = Return c -> column_name c = name.
Proof.
  unfold getattr.
  destruct (List.find _ _) as [c'|] eqn:Hf; [|discriminate].
  intros [= <-]. apply find_some in Hf as [_ Hb].
  now apply bool_decide_eq_true in Hb.
Qed.

Lemma matches_app (c1 c2 : list (Column * Value)) (row : gmap string Value) :
  matches (c1 ++ c2) row = matches c1 row && matches c2 row.
Proof. unfold matches. apply forallb_app. Qed.

(** The loop of [new_or_existing] turns the keyword arguments into the
    conditions of the query, one by one. *)
Lemma add_criteria_spec (cls : Cls) (attrs : list (string * Value)) (q : Query) :
  Forall (fun kv => exists c, getattr cls (fst kv) = Return c) attrs ->
  exists conds,
    add_criteria cls attrs q = Return (mkQuery (q_cls q) (q_where q ++ conds))
    /\ forall row, matches conds row = satisfies attrs row.
Proof.
  revert q. induction attrs as [|[name value] attrs IH]; intros q Hall.
  - exists []. rewrite app_nil_r. destruct q. split; reflexivity.
  - inversion Hall as [|? ? [c Hc] Hall']; subst. cbn [add_criteria fst] in *.
    rewrite Hc. destruct (IH (where_ q c value) Hall') as (conds & E & Hm).
    exists ((c, value) :: conds). split.
    + rewrite E. cbn [where_ q_cls q_where]. now rewrite <- app_assoc.
    + intros row. cbn [matches satisfies forallb fst snd].
      rewrite (getattr_column_name _ _ _ Hc). f_equal. apply Hm.
Qed.

Lemma new_or_existing_unfold (cls : Cls) (attrs : list (string * Value))
    (s : Session) :
  inactive s = false ->
  Forall (fun kv => exists c, getattr cls (fst kv) = Return c) attrs ->
  new_or_existing cls attrs s =
  (match existing cls attrs (db s) with
   | [] => Return (construct cls attrs)
   | [e] => Return e
   | _ => Raise MultipleResultsFound
   end, snd (execute s)).
Proof.
  intros Hact Hall.
  destruct (add_criteria_spec cls attrs (select_ cls) Hall) as (conds & E & Hm).
  unfold new_or_existing, bind, lift. rewrite E.
  unfold stream_scalars, bind, execute, gets, ret. rewrite Hact.
  cbn [db snd]. unfold eval, existing. cbn [q_cls q_where select_ app].
  rewrite (filter_ext _ _ Hm).
  destruct (omap _ _) as [|e [|e' l]]; reflexivity.
Qed.

End GetOrCreate.

Section GetOrCreateClaim.

Lemma load_attrs (d : DB) (cls : Cls) (row : gmap string Value) (e : Entity) :
  load d cls row = Some e -> e_attrs e = row /\ e_cls e = cls.
Proof.
  unfold load. destruct cls.
  - intros [= <-]. split; reflexivity.
  - destruct (attr row "author_id"); try discriminate.
    destruct (row_key row); try discriminate.
    destruct (find_row _ _ _); try discriminate.
    intros [= <-]. split; reflexivity.
  - intros [= <-]. split; reflexivity.
Qed.

Lemma existing_inv (cls : Cls) (attrs : list (string * Value)) (d : DB)
    (e : Entity) :
  In e (existing cls attrs d) ->
  In (e_attrs e) (table cls d)
  /\ e_cls e = cls
  /\ forall k v, In (k, v) attrs -> attr (e_attrs e) k = v.
Proof.
  unfold existing. rewrite <- list_elem_of_In, list_elem_of_omap.
  intros (row & Hrow & Hload). apply list_elem_of_In, filter_In in Hrow.
  destruct Hrow as [Hin Hsat]. destruct (load_attrs _ _ _ _ Hload) as [-> ->].
  repeat split; [assumption|]. intros k v Hkv. unfold satisfies in Hsat.
  rewrite forallb_forall in Hsat. specialize (Hsat _ Hkv).
  now apply bool_decide_eq_true in Hsat.
Qed.

End GetOrCreateClaim.

(** C7, counterexample: with two fortunes of author 1 in the store, a fortune
    that matches [author_id=1] exists, yet [new_or_existing] returns neither
    it nor a new object: it raises [MultipleResultsFound]. *)
Lemma new_or_existing_several_matches :
  let attrs := [("author_id", VInt 1)] in
  (exists e, In e (existing Fortune attrs (db session_with_two_fortunes)))
  /\ fst (new_or_existing Fortune attrs session_with_two_fortunes)
     = Raise MultipleResultsFound.
Proof.
  cbn zeta. split; [|vm_compute; reflexivity].
  destruct (existing Fortune [("author_id", VInt 1)]
              (db session_with_two_fortunes)) as [|e l] eqn:E.
  - vm_compute in E. discriminate E.
  - exists e. now left.
Qed.

(** C7 (amended): for every entity type and criteria on its columns, on a
    usable session, [new_or_existing] returns the existing entity that
    matches all the criteria when exactly one exists; when none exists it
    returns a newly constructed, transient entity that carries exactly the
    given values; when several exist it raises [MultipleResultsFound].  It
    never persists anything: the database and the pending objects are
    untouched. *)
Theorem new_or_existing_get_or_create (cls : Cls) (attrs : list (string * Value))
    (s : Session) :
  inactive s = false ->
  NoDup (map fst attrs) ->
  Forall (fun kv => exists c, getattr cls (fst kv) = Return c) attrs ->
  let r := new_or_existing cls attrs s in
  db (snd r) = db s /\ pending (snd r) = pending s
  /\ match existing cls attrs (db s) with
     | [] =>
         exists e, fst r = Return e
                   /\ e_cls e = cls /\ e_key e = None
                   /\ forall k v, e_attrs e !! k = Some v <-> In (k, v) attrs
     | [e] =>
         fst r = Return e
         /\ In (e_attrs e) (table cls (db s))
         /\ forall k v, In (k, v) attrs -> attr (e_attrs e) k = v
     | _ => fst r = Raise MultipleResultsFound
     end.
Proof.
  intros Hact Hnodup Hall. cbn zeta.
  rewrite (new_or_existing_unfold _ _ _ Hact Hall).
  unfold execute. rewrite Hact. cbn [fst snd db pending].
  repeat split.
  destruct (existing cls attrs (db s)) as [|e [|e' l]] eqn:E.
  - exists (construct cls attrs). repeat split; try reflexivity.
    + intros Hl. apply list_elem_of_In.
      now apply elem_of_list_to_map in Hl.
    + intros Hin. cbn. apply elem_of_list_to_map; [exact Hnodup|].
      now apply list_elem_of_In.
  - assert (Hin : In e (existing cls attrs (db s))) by (rewrite E; now left).
    destruct (existing_inv _ _ _ _ Hin) as (H1 & _ & H2). now repeat split.
  - reflexivity.
Qed.

Lemma new_or_existing_get_or_create_witness :
  (exists e,
      fst (new_or_existing Author [("name", VStr "Mark Twain")] session_with_twain)
      = Return e /\ e_key e = Some 1)
  /\ (exists e,
         fst (new_or_existing Author [("name", VStr "Anonymous")] session_with_twain)
         = Return e /\ e_key e = None).
Proof.
  assert (Hact : inactive session_with_twain = false) by reflexivity.
  assert (Hnd : forall v : Value, NoDup (map fst [("name", v)])).
  { intros v. apply NoDup_cons; split; [apply not_elem_of_nil | apply NoDup_nil_2]. }
  assert (Hcol : forall v : Value,
             Forall (fun kv => exists c, getattr Author (fst kv) = Return c)
               [("name", v)]).
  { intros v. constructor; [now exists c_name | constructor]. }
  pose proof (new_or_existing_get_or_create Author [("name", VStr "Mark Twain")]
                session_with_twain Hact (Hnd _) (Hcol _)) as (_ & _ & H1).
  pose proof (new_or_existing_get_or_create Author [("name", VStr "Anonymous")]
                session_with_twain Hact (Hnd _) (Hcol _)) as (_ & _ & H2).
  split.
  - destruct (existing Author [("name", VStr "Mark Twain")]
                (db session_with_twain)) as [|e [|e' l]] eqn:E;
      try (vm_compute in E; discriminate E).
    exists e. split; [exact (proj1 H1)|].
    vm_compute in E. injection E as <-. reflexivity.
  - destruct (existing Author [("name", VStr "Anonymous")]
                (db session_with_twain)) as [|e l] eqn:E;
      try (vm_compute in E; discriminate E).
    destruct H2 as (e & He & _ & Hk & _). exists e. split; assumption.
Defined.


(** ** Strict decoding of identifiers *)

Section Decoding.

Import TSID.

(** [TSID.from_string] and [entity_id_from_string] raise nothing but
    [ValueError]. *)
Lemma from_string_raises (s : string) (e : exn) :
  from_string s = Raise e -> exists msg, e = ValueError msg.
Proof.
  unfold from_string.
  destruct (negb (Nat.eqb _ _)); [intros [= <-]; eauto|].
  destruct (negb (forallb _ _)); [intros [= <-]; eauto|].
  destruct (negb (_ =? 0)); [intros [= <-]; eauto | discriminate].
Qed.

Lemma entity_id_from_string_raises (s : string) (e : exn) :
  entity_id_from_string s = Raise e -> exists msg, e = ValueError msg.
Proof.
  unfold entity_id_from_string.
  destruct (from_string s) as [e'|n] eqn:E.
  - intros [= <-]. eapply from_string_raises, E.
  - destruct (_ || _); [intros [= <-]; eauto | discriminate].
Qed.

Lemma from_string_length (s : string) (n : Z) :
  from_string s = Return n -> String.length s = 13%nat.
Proof.
  unfold from_string.
  destruct (Nat.eqb_spec (String.length s) TSID_CHARS) as [E|]; [|discriminate].
  intros _. exact E.
Qed.



End Decoding.




(** ** Validation before the store *)

Lemma EntityId_not_crashed (loc : list string) (s : string) (e : exn) :
  EntityId loc s <> Crashed e.
Proof.
  unfold EntityId, StringConstraints.
  destruct (_ <? 13)%nat; [discriminate|].
  destruct (13 <? _)%nat; [discriminate|].
  unfold AfterValidator.
  destruct (entity_id_from_string s) as [x|n] eqn:E; [|discriminate].
  destruct (entity_id_from_string_raises _ _ E) as [msg ->]. discriminate.
Qed.

(** C6: a [PATCH /api/fortunes/{id}] whose body provides none of author,
    tags and content is answered with status 422; the detail holds the
    value error of [verify_any], whose message contains "all attributes are
    missing"; the session is handed back as it was, without a single
    statement sent to the database. *)
Theorem patch_fortune_empty_payload (fuel : nat) (fortune_id : string)
    (s : Session) :
  exists errors,
    PATCH_fortune fuel fortune_id (mkFortunePatch None None None) s
    = (mkResponse 422 (ValidationDetail errors), s)
    /\ In (mkError "value_error" ["body"]
             "Value error, all attributes are missing") errors
    /\ String.index 0 "all attributes are missing"
         "Value error, all attributes are missing" = Some 13%nat.
Proof.
  unfold PATCH_fortune, endpoint, both.
  change (validate_FortunePatch ["body"] (mkFortunePatch None None None))
    with (@Invalid FortunePatch
            [mkError "value_error" ["body"]
               "Value error, all attributes are missing"]).
  destruct (EntityId ["path"; "fortune_id"] fortune_id) as [n|errs|e] eqn:E.
  - eexists. split; [reflexivity|]. split; [now left | reflexivity].
  - eexists. split; [reflexivity|]. split; [|reflexivity].
    cbn [errors_of]. apply in_or_app. right. now left.
  - now destruct (EntityId_not_crashed _ _ _ E).
Qed.


(** ** The retry layer *)

Section Retry.

Context {A : Type} (fn : M A).

Lemma wait_exponential_values :
  wait_exponential 100 100 1 = 100
  /\ wait_exponential 100 100 2 = 200
  /\ wait_exponential 100 100 3 = 400.
Proof. repeat split; reflexivity. Qed.

(** With fuel for four iterations the loop is the retry of the spec. *)
Lemma retrying_four_attempts (fuel : nat) (s : Session) :
  (4 <= fuel)%nat -> retrying fuel fn s = four_attempts fn s.
Proof.
  intros Hfuel.
  destruct fuel as [|[|[|[|fuel]]]]; try lia. clear Hfuel.
  unfold retrying, retry, four_attempts, attempt_or, last_attempt.
  cbn [retry_loop]. unfold retry_if_exception_type.
  change (stop_after_attempt 4 1) with false.
  change (stop_after_attempt 4 2) with false.
  change (stop_after_attempt 4 3) with false.
  change (stop_after_attempt 4 4) with true.
  change (wait_exponential 100 100 1) with 100.
  change (wait_exponential 100 100 2) with 200.
  change (wait_exponential 100 100 3) with 400.
  change (0 + 100) with 100. change (100 + 200) with 300.
  change (300 + 400) with 700. cbn iota zeta.
  destruct (fn s) as [[e1|a1] t1]; [|reflexivity].
  destruct (is_Exception e1); [|reflexivity].
  destruct (fn (snd (sleep 100 t1))) as [[e2|a2] t2]; [|reflexivity].
  destruct (is_Exception e2); [|reflexivity].
  destruct (fn (snd (sleep 200 t2))) as [[e3|a3] t3]; [|reflexivity].
  destruct (is_Exception e3); [|reflexivity].
  destruct (fn (snd (sleep 400 t3))) as [[e4|a4] t4]; [|reflexivity].
  destruct (is_Exception e4); reflexivity.
Qed.


(** Four failures in a row: the fourth is the outcome, after 700 ms. *)
Lemma four_attempts_exhausted (s t1 t2 t3 t4 : Session) (e1 e2 e3 e4 : exn) :
  fn s = (Raise e1, t1) -> is_Exception e1 = true ->
  fn (snd (sleep 100 t1)) = (Raise e2, t2) -> is_Exception e2 = true ->
  fn (snd (sleep 200 t2)) = (Raise e3, t3) -> is_Exception e3 = true ->
  fn (snd (sleep 400 t3)) = (Raise e4, t4) ->
  four_attempts fn s = (mkRetryCallState (Some (Raise e4)) 4 700, t4).
Proof.
  intros E1 H1 E2 H2 E3 H3 E4.
  unfold four_attempts, attempt_or, last_attempt.
  now rewrite E1, H1, E2, H2, E3, H3, E4.
Qed.

(** A first attempt that fails with an [Exception] is followed by a second
    one, 100 ms later. *)
Lemma four_attempts_second (s t1 : Session) (e1 : exn) :
  fn s = (Raise e1, t1) -> is_Exception e1 = true ->
  four_attempts fn s
  = attempt_or fn 2 100
      (fun t2 =>
         attempt_or fn 3 300
           (fun t3 => last_attempt fn 4 700 (snd (sleep 400 t3)))
           (snd (sleep 200 t2)))
      (snd (sleep 100 t1))
  /\ (2 <= attempt_number (fst (four_attempts fn s)) <= 4)%nat.
Proof.
  intros E1 H1.
  assert (E : four_attempts fn s
              = attempt_or fn 2 100
                  (fun t2 =>
                     attempt_or fn 3 300
                       (fun t3 => last_attempt fn 4 700 (snd (sleep 400 t3)))
                       (snd (sleep 200 t2)))
                  (snd (sleep 100 t1))).
  { unfold four_attempts. unfold attempt_or at 1. now rewrite E1, H1. }
  split; [exact E|]. rewrite E. clear E.
  unfold attempt_or, last_attempt.
  destruct (fn (snd (sleep 100 t1))) as [[e2|a2] t2]; [|cbn; lia].
  destruct (is_Exception e2); [|cbn; lia].
  destruct (fn (snd (sleep 200 t2))) as [[e3|a3] t3]; [|cbn; lia].
  destruct (is_Exception e3); [|cbn; lia].
  destruct (fn (snd (sleep 400 t3))) as [r4 t4]. cbn. lia.
Qed.

End Retry.

Lemma retried_retrying (fuel : nat) (r : WriteRequest) :
  retried fuel r = retrying fuel (wrapped r).
Proof. destruct r; reflexivity. Qed.

Lemma handle_await_retry (fuel : nat) (r : WriteRequest) :
  handle fuel r = await_retry (retried fuel r).
Proof. destruct r; reflexivity. Qed.



(** C4, counterexample: a second [POST /api/fortunes] with the content of an
    existing fortune.  The first attempt raises [EntityExistsError]; the
    decorated function nevertheless makes four attempts and sleeps 700 ms
    before the conflict is answered with status 409. *)
Lemma create_fortune_conflict_is_retried :
  fst (_create_fortune__wrapped__ twain_fortune session_with_fortune)
  = Raise (EntityExistsError "fortune exists")
  /\ fst (_create_fortune 4 twain_fortune session_with_fortune)
     = mkRetryCallState (Some (Raise (EntityExistsError "fortune exists"))) 4 700
  /\ (let answer :=
        POST_fortune 4 (Some "Mark Twain") (Some ["wit"])
          (Some "Truth is stranger than fiction.") session_with_fortune in
      fst answer = mkResponse 409 (Detail "fortune exists")
      /\ clock (snd answer) = clock session_with_fortune + 700).
Proof. vm_compute. repeat split. Qed.

(** C4 (amended): for every fortune create or patch request, a conflict is
    retried like any other exception.  When the first attempt raises
    [EntityExistsError], the wrapper sleeps 100 ms and runs the
    get-or-create-then-save sequence again, for up to 4 attempts in all;
    when the outcome of the retried call is [EntityExistsError], the
    request is answered with status 409 and the message of the error. *)
Theorem conflict_is_retried_then_surfaced (fuel : nat) (r : WriteRequest)
    (s : Session) :
  (4 <= fuel)%nat ->
  (forall msg t1,
      wrapped r s = (Raise (EntityExistsError msg), t1) ->
      retried fuel r s
      = attempt_or (wrapped r) 2 100
          (fun t2 =>
             attempt_or (wrapped r) 3 300
               (fun t3 => last_attempt (wrapped r) 4 700 (snd (sleep 400 t3)))
               (snd (sleep 200 t2)))
          (snd (sleep 100 t1))
      /\ (2 <= attempt_number (fst (retried fuel r s)) <= 4)%nat)
  /\ (forall msg,
         outcome (fst (retried fuel r (fresh_session s)))
         = Some (Raise (EntityExistsError msg)) ->
         fst (endpoint (Valid r) (handle fuel) item_or_none s)
         = mkResponse 409 (Detail msg)).
Proof.
  intros Hfuel. split.
  - intros msg t1 E1.
    rewrite retried_retrying, (retrying_four_attempts _ _ _ Hfuel).
    now apply (four_attempts_second (wrapped r) s t1 (EntityExistsError msg)).
  - intros msg Ho. unfold endpoint, SessionDep, catch_session_exceptions,
      try_except, get_session.
    rewrite handle_await_retry. unfold await_retry.
    destruct (retried fuel r (fresh_session s)) as [run s'].
    cbn [fst] in Ho. rewrite Ho. reflexivity.
Qed.

Lemma conflict_is_retried_then_surfaced_witness :
  (4 <= 4)%nat
  /\ (2 <= attempt_number
             (fst (retried 4 (Create twain_fortune) session_with_fortune)) <= 4)%nat
  /\ fst (endpoint (Valid (Create twain_fortune)) (handle 4) item_or_none
            session_with_fortune)
     = mkResponse 409 (Detail "fortune exists").
Proof.
  assert (H : (4 <= 4)%nat) by lia.
  destruct (conflict_is_retried_then_surfaced 4 (Create twain_fortune)
              session_with_fortune H) as [H1 H2].
  split; [exact H|]. split.
  - refine (proj2 (H1 "fortune exists"
                     (snd (wrapped (Create twain_fortune) session_with_fortune))
                     _)).
    vm_compute. reflexivity.
  - apply H2. vm_compute. reflexivity.
Defined.


(** ** Statements and the invariants of the store *)

Section Tables.

Lemma table_with_table (cls cls' : Cls) (rows : list (gmap string Value)) (d : DB) :
  table cls' (with_table cls rows d) = if decide (cls = cls') then rows else table cls' d.
Proof. destruct cls, cls'; reflexivity. Qed.

Lemma fortunes_tags_with_table (cls : Cls) (rows : list (gmap string Value)) (d : DB) :
  fortunes_tags (with_table cls rows d) = fortunes_tags d.
Proof. destruct cls; reflexivity. Qed.

Lemma table_with_fortunes_tags (cls : Cls) (ft : list (Z * Z)) (d : DB) :
  table cls (with_fortunes_tags ft d) = table cls d.
Proof. destruct cls; reflexivity. Qed.

Lemma attr_insert_eq (m : gmap string Value) (k : string) (v : Value) :
  attr (<[k := v]> m) k = v.
Proof. unfold attr. now rewrite lookup_insert_eq. Qed.

Lemma attr_insert_ne (m : gmap string Value) (k k' : string) (v : Value) :
  k <> k' -> attr (<[k := v]> m) k' = attr m k'.
Proof. intros. unfold attr. now rewrite lookup_insert_ne. Qed.

Lemma has_key_attr (key : Z) (row : gmap string Value) :
  has_key key row = true <-> attr row "id" = VInt key.
Proof. unfold has_key. apply bool_decide_eq_true. Qed.

(** A lookup by key is not disturbed by rows added at the end. *)
Lemma find_row_app (key : Z) (rows new : list (gmap string Value))
    (row : gmap string Value) :
  List.find (has_key key) rows = Some row ->
  List.find (has_key key) (rows ++ new) = Some row.
Proof.
  induction rows as [|r rows IH]; [discriminate|]. cbn.
  destruct (has_key key r); [trivial | exact IH].
Qed.

Lemma find_replace_row (key : Z) (new row : gmap string Value)
    (rows : list (gmap string Value)) :
  List.find (has_key key) rows = Some row -> has_key key new = true ->
  List.find (has_key key) (replace_row key new rows) = Some new.
Proof.
  intros Hf Hn. induction rows as [|r rows IH]; [discriminate|]. cbn in *.
  destruct (has_key key r) eqn:E; cbn; [now rewrite Hn | rewrite E; auto].
Qed.

Lemma find_replace_row_other (key key' : Z) (new : gmap string Value)
    (rows : list (gmap string Value)) :
  key <> key' -> has_key key new = true ->
  List.find (has_key key') (replace_row key new rows)
  = List.find (has_key key') rows.
Proof.
  intros Hne Hn. induction rows as [|r rows IH]; [reflexivity|]. cbn.
  destruct (has_key key r) eqn:E; cbn.
  - assert (has_key key' new = false) as ->.
    { apply has_key_attr in Hn. unfold has_key. rewrite Hn.
      apply bool_decide_eq_false. congruence. }
    assert (has_key key' r = false) as ->; [|reflexivity].
    apply has_key_attr in E. unfold has_key. rewrite E.
    apply bool_decide_eq_false. congruence.
  - now rewrite IH.
Qed.


Lemma ids_app (rows new : list (gmap string Value)) :
  ids (rows ++ new) = (ids rows ++ ids new)%list.
Proof. apply map_app. Qed.

(** Replacing a row keeps the rows before and after it. *)
Lemma replace_row_split (key : Z) (new row : gmap string Value)
    (rows : list (gmap string Value)) :
  List.find (has_key key) rows = Some row ->
  exists l1 l2, rows = (l1 ++ row :: l2)%list
                /\ replace_row key new rows = (l1 ++ new :: l2)%list.
Proof.
  induction rows as [|r rows IH]; [discriminate|]. cbn.
  destruct (has_key key r) eqn:E.
  - intros [= ->]. now exists [], rows.
  - intros Hf. destruct (IH Hf) as (l1 & l2 & -> & ->).
    now exists (r :: l1), l2.
Qed.

End Tables.

Section Statements.

Lemma bind_inr {S E A B : Type} (m : ST S E A) (k : A -> ST S E B) (s s' : S) (b : B) :
  bind m k s = (inr b, s') ->
  exists a s1, m s = (inr a, s1) /\ k a s1 = (inr b, s').
Proof.
  unfold bind. destruct (m s) as [[e|a] s1]; [discriminate|]. eauto.
Qed.

Lemma lift_inr {S E A : Type} (r : E + A) (s s' : S) (a : A) :
  lift r s = (inr a, s') -> r = inr a /\ s' = s.
Proof. unfold lift. now intros [= -> ->]. Qed.

(** What a successful INSERT has done. *)
Lemma INSERT_inv (cls : Cls) (now : Z) (values row : gmap string Value)
    (tx tx' : Tx) :
  INSERT cls now values tx = (inr row, tx') ->
  exists id,
    row = new_row cls now values id
    /\ (id = attr values "id" \/ attr values "id" = VNone)
    /\ check_row cls (table cls (tx_db tx)) row = inr tt
    /\ fk_ok (tx_db tx') = true
    /\ tx_db tx' = with_table cls (table cls (tx_db tx) ++ [row]) (tx_db tx).
Proof.
  unfold INSERT. intros H.
  apply bind_inr in H as (id & tx1 & Hid & H).
  assert (Hdb : tx_db tx1 = tx_db tx
                /\ (id = attr values "id" \/ attr values "id" = VNone)).
  { destruct (attr values "id") eqn:E.
    - apply bind_inr in Hid as (n & tx2 & Hn & Hr).
      unfold entity_id in Hn. injection Hn as <- <-.
      unfold ret in Hr. injection Hr as <- <-. cbn. auto.
    - unfold ret in Hid. injection Hid as <- <-. auto.
    - unfold ret in Hid. injection Hid as <- <-. auto.
    - unfold ret in Hid. injection Hid as <- <-. auto. }
  destruct Hdb as [Hdb Hidv].
  apply bind_inr in H as (d & tx2 & Hd & H).
  unfold gets in Hd. injection Hd as <- <-.
  apply bind_inr in H as ([] & tx3 & Hc & H).
  apply lift_inr in Hc as [Hc ->].
  apply bind_inr in H as ([] & tx4 & Hfk & H).
  apply lift_inr in Hfk as [Hfk ->].
  apply bind_inr in H as ([] & tx5 & Hput & H).
  unfold put_db in Hput. injection Hput as <-.
  unfold ret in H. injection H as <- <-.
  exists id. rewrite Hdb in *. cbn [tx_db]. repeat split; try assumption.
  unfold check_fk in Hfk. destruct (fk_ok _); [reflexivity | discriminate].
Qed.

(** What a successful UPDATE has done: nothing, or one row replaced. *)
Lemma UPDATE_inv (cls : Cls) (now key : Z) (values row2 : gmap string Value)
    (flagged : list string) (tx tx' : Tx) :
  UPDATE cls now key values flagged tx = (inr row2, tx') ->
  exists row,
    find_row cls key (tx_db tx) = Some row
    /\ ((changed_columns cls values flagged row = [] /\ row2 = row /\ tx' = tx)
        \/ (changed_columns cls values flagged row <> []
            /\ row2 = updated_row now values
                        (changed_columns cls values flagged row) row
            /\ check_row cls
                 (List.filter (fun r => negb (has_key key r))
                    (table cls (tx_db tx))) row2 = inr tt
            /\ fk_ok (tx_db tx') = true
            /\ tx_db tx'
               = with_table cls (replace_row key row2 (table cls (tx_db tx)))
                   (tx_db tx))).
Proof.
  unfold UPDATE. intros H.
  apply bind_inr in H as (d & tx1 & Hd & H).
  unfold gets in Hd. injection Hd as <- <-.
  destruct (find_row cls key (tx_db tx)) as [row|]; [|discriminate].
  exists row. split; [reflexivity|].
  destruct (changed_columns cls values flagged row) as [|c cs] eqn:Hch.
  - left. unfold ret in H. injection H as <- <-. auto.
  - right. split; [discriminate|].
    apply bind_inr in H as ([] & tx3 & Hc & H).
    apply lift_inr in Hc as [Hc ->].
    apply bind_inr in H as ([] & tx4 & Hfk & H).
    apply lift_inr in Hfk as [Hfk ->].
    apply bind_inr in H as ([] & tx5 & Hput & H).
    unfold put_db in Hput. injection Hput as <-.
    unfold ret in H. injection H as <- <-. cbn [tx_db].
    repeat split; try assumption.
    unfold check_fk in Hfk. destruct (fk_ok _); [reflexivity | discriminate].
Qed.

(** A successful [sync_tags] touches [fortunes_tags] only. *)
Lemma sync_tags_inv (fid : Z) (tids : list Z) (tx tx' : Tx) :
  sync_tags fid tids tx = (inr tt, tx') ->
  exists ft, tx_db tx' = with_fortunes_tags ft (tx_db tx)
             /\ fk_ok (tx_db tx') = true.
Proof.
  unfold sync_tags. intros H.
  apply bind_inr in H as (d & tx1 & Hd & H).
  unfold gets in Hd. injection Hd as <- <-.
  apply bind_inr in H as (ft & tx2 & Hl & H).
  apply lift_inr in Hl as [Hl ->].
  apply bind_inr in H as ([] & tx3 & Hfk & H).
  apply lift_inr in Hfk as [Hfk ->].
  unfold put_db in H. injection H as <-. cbn [tx_db].
  exists ft. split; [reflexivity|].
  unfold check_fk in Hfk. destruct (fk_ok _); [reflexivity | discriminate].
Qed.

End Statements.

Section Checks.

(** What a row that passed [check_row] is known to satisfy. *)
Lemma check_row_inv (cls : Cls) (others : list (gmap string Value))
    (row : gmap string Value) :
  check_row cls others row = inr tt ->
  (exists n, attr row "id" = VInt n)
  /\ (forall c, In c (not_null cls) -> attr row (column_name c) <> VNone)
  /\ (forall c r, In c (unique cls) -> In r others ->
                  attr r (column_name c) <> attr row (column_name c)).
Proof.
  unfold check_row. destruct (negb (forallb _ _)); [discriminate|].
  destruct (List.find _ (not_null cls)) eqn:Hnn; [discriminate|].
  destruct (attr row "id") eqn:Hid; try discriminate.
  destruct (List.find _ (unique cls)) eqn:Hu; [discriminate|]. intros _.
  split; [eauto|]. split.
  - intros c Hc E. apply (find_none _ _ Hnn) in Hc.
    apply bool_decide_eq_false in Hc. now apply Hc.
  - intros c r Hc Hr E. apply (find_none _ _ Hu) in Hc.
    rewrite <- not_true_iff_false in Hc. apply Hc.
    apply existsb_exists. exists r. split; [exact Hr|].
    now apply bool_decide_eq_true.
Qed.

Lemma c_id_unique (cls : Cls) : In c_id (unique cls).
Proof. destruct cls; now left. Qed.

Lemma keys_ok_inv (rows : list (gmap string Value)) :
  keys_ok rows = true <->
  (forall r, In r rows -> exists n, attr r "id" = VInt n) /\ NoDup (ids rows).
Proof.
  unfold keys_ok. rewrite andb_true_iff, forallb_forall, bool_decide_eq_true.
  split; intros [H1 H2]; (split; [|exact H2]); intros r Hr; specialize (H1 r Hr).
  - destruct (attr r "id"); try discriminate. eauto.
  - destruct H1 as [n ->]. reflexivity.
Qed.

(** A checked row extends a table with good keys. *)
Lemma keys_ok_app (cls : Cls) (rows : list (gmap string Value))
    (row : gmap string Value) :
  keys_ok rows = true -> check_row cls rows row = inr tt ->
  keys_ok (rows ++ [row]) = true.
Proof.
  rewrite !keys_ok_inv. intros [H1 H2] Hc.
  destruct (check_row_inv _ _ _ Hc) as (Hid & _ & Hu). split.
  - intros r Hr. apply in_app_or in Hr as [Hr|[<-|[]]]; auto.
  - rewrite ids_app. apply NoDup_app. repeat split; [exact H2| |].
    + intros v Hv Hv'. cbn in Hv'. apply list_elem_of_In in Hv' as [<-|[]].
      apply list_elem_of_In, in_map_iff in Hv as (r & Hr & Hin).
      exact (Hu c_id r (c_id_unique cls) Hin Hr).
    + cbn. apply NoDup_singleton.
Qed.

Lemma changed_columns_unmodified (cls : Cls) (row : gmap string Value) :
  changed_columns cls row [] row = [].
Proof.
  unfold changed_columns.
  assert (H : forall c, (bool_decide (column_name c ∈ @nil string)
              || match row !! column_name c with
                 | Some v => negb (bool_decide (v = attr row (column_name c)))
                 | None => false
                 end) = false).
  { intros c. rewrite bool_decide_eq_false_2 by apply not_elem_of_nil. cbn.
    unfold attr. destruct (row !! column_name c); [|reflexivity]. cbn.
    now rewrite bool_decide_eq_true_2. }
  induction (columns cls) as [|c cs IH]; [reflexivity|]. cbn.
  now rewrite H.
Qed.

(** An attribute of an updated row: the object's value when its column
    changed, the old value otherwise ([updated_at] aside). *)
Lemma attr_foldr_insert (values row : gmap string Value) (changed : list Column)
    (k : string) :
  attr (foldr (fun c r => <[column_name c := attr values (column_name c)]> r)
          row changed) k
  = if bool_decide (k ∈ map column_name changed) then attr values k
    else attr row k.
Proof.
  induction changed as [|c cs IH]; [reflexivity|]. cbn.
  destruct (decide (column_name c = k)) as [<-|Hne].
  - rewrite attr_insert_eq. rewrite bool_decide_eq_true_2; [reflexivity|].
    apply list_elem_of_here.
  - rewrite attr_insert_ne by exact Hne. rewrite IH.
    destruct (decide (k ∈ map column_name cs)) as [Hin|Hnin].
    + rewrite !bool_decide_eq_true_2; [reflexivity| |exact Hin].
      now apply list_elem_of_further.
    + rewrite !bool_decide_eq_false_2; [reflexivity| |exact Hnin].
      intros Hin. apply elem_of_cons in Hin as [E|Hin]; auto.
Qed.

Lemma column_name_inj (c c' : Column) : column_name c = column_name c' -> c = c'.
Proof. destruct c, c'; (reflexivity || discriminate). Qed.

Lemma in_changed_names (changed : list Column) (c : Column) :
  column_name c ∈ map column_name changed <-> c ∈ changed.
Proof.
  rewrite list_elem_of_fmap. split.
  - intros (c' & E & Hin). now rewrite (column_name_inj _ _ E).
  - intros Hin. now exists c.
Qed.

End Checks.

Section Invariants.


Lemma grows_trans (d1 d2 d3 : DB) : grows d1 d2 -> grows d2 d3 -> grows d1 d3.
Proof. intros H1 H2 cls. etransitivity; [apply H1 | apply H2]. Qed.

Lemma appended_refl (d : DB) : appended d d.
Proof. intros cls. exists []. now rewrite app_nil_r. Qed.

Lemma appended_trans (d1 d2 d3 : DB) :
  appended d1 d2 -> appended d2 d3 -> appended d1 d3.
Proof.
  intros H1 H2 cls. destruct (H1 cls) as [n1 E1], (H2 cls) as [n2 E2].
  exists (n1 ++ n2)%list. now rewrite E2, E1, app_assoc.
Qed.


Lemma appended_find_row (d d' : DB) (cls : Cls) (key : Z)
    (row : gmap string Value) :
  appended d d' -> find_row cls key d = Some row -> find_row cls key d' = Some row.
Proof.
  intros H Hf. unfold find_row in *. destruct (H cls) as [new ->].
  now apply find_row_app.
Qed.

Lemma existsb_has_key (a : Z) (rows : list (gmap string Value)) :
  existsb (has_key a) rows = true <-> In (VInt a) (ids rows).
Proof.
  rewrite existsb_exists. unfold ids. rewrite in_map_iff.
  split; intros (r & H1 & H2); exists r.
  - split; [now apply has_key_attr | exact H1].
  - split; [exact H2 | now apply has_key_attr].
Qed.

Lemma store_ok_inv (now : Z) (d : DB) :
  store_ok now d = true <->
  (forall cls, table_ok now (table cls d) = true)
  /\ (forall f, In f (fortunes d) -> fortune_row_ok d f = true).
Proof.
  unfold store_ok. rewrite !andb_true_iff, forallb_forall. split.
  - intros [[[Ha Hf] Ht] Hr]. split; [intros []; assumption | exact Hr].
  - intros [Ht Hr]. repeat split; [apply (Ht Author) | apply (Ht Fortune)
                                   | apply (Ht Tag) | exact Hr].
Qed.

Lemma table_ok_inv (now : Z) (rows : list (gmap string Value)) :
  table_ok now rows = true <->
  keys_ok rows = true /\ forall r, In r rows -> row_times_ok now r = true.
Proof. unfold table_ok. now rewrite andb_true_iff, forallb_forall. Qed.

(** Foreign keys and NOT NULL together give every fortune its author. *)
Lemma fk_ok_fortune (d : DB) (f : gmap string Value) :
  fk_ok d = true -> In f (fortunes d) -> attr f "author_id" <> VNone ->
  fortune_row_ok d f = true.
Proof.
  unfold fk_ok, fortune_row_ok. rewrite andb_true_iff, forallb_forall.
  intros [H _] Hin Hnn. specialize (H f Hin).
  destruct (attr f "author_id"); congruence.
Qed.

Lemma fortune_row_ok_ids (d d' : DB) (f : gmap string Value) :
  (forall v, In v (ids (authors d)) -> In v (ids (authors d'))) ->
  fortune_row_ok d f = true -> fortune_row_ok d' f = true.
Proof.
  unfold fortune_row_ok. intros H. destruct (attr f "author_id"); trivial.
  rewrite !existsb_has_key. apply H.
Qed.

Lemma author_id_not_null (cls : Cls) (others : list (gmap string Value))
    (row : gmap string Value) :
  cls = Fortune -> check_row cls others row = inr tt ->
  attr row "author_id" <> VNone.
Proof.
  intros -> Hc. destruct (check_row_inv _ _ _ Hc) as (_ & Hnn & _).
  apply (Hnn c_author_id). cbn. auto.
Qed.

(** The timestamps of a row that a new object inserts. *)
Lemma new_row_attrs (cls : Cls) (now : Z) (values : gmap string Value)
    (id : Value) :
  attr values "created_at" = VNone -> attr values "updated_at" = VNone ->
  attr (new_row cls now values id) "id" = id
  /\ attr (new_row cls now values id) "created_at" = VTime now
  /\ attr (new_row cls now values id) "updated_at" = VNone.
Proof.
  intros Hc Hu. unfold new_row. rewrite Hc.
  destruct cls; cbn [columns map column_name list_to_map foldr fst snd];
    rewrite Hu; repeat split; unfold attr; simplify_map_eq; reflexivity.
Qed.

Lemma row_times_ok_new (now : Z) (row : gmap string Value) :
  attr row "created_at" = VTime now -> attr row "updated_at" = VNone ->
  row_times_ok now row = true.
Proof. unfold row_times_ok. intros -> ->. apply Z.leb_refl. Qed.


End Invariants.

Section Steps.

Lemma find_app_new (key : Z) (rows : list (gmap string Value))
    (row : gmap string Value) :
  (forall r, In r rows -> attr r "id" <> attr row "id") ->
  attr row "id" = VInt key ->
  List.find (has_key key) (rows ++ [row]) = Some row.
Proof.
  intros Hne Hid. induction rows as [|r rows IH]; cbn.
  - now rewrite (proj2 (has_key_attr key row) Hid).
  - destruct (has_key key r) eqn:E.
    + apply has_key_attr in E. destruct (Hne r); [now left | congruence].
    + apply IH. intros r' Hr'. apply Hne. now right.
Qed.

(** The INSERT of a new object: the row goes last, created now and never
    updated; a good store stays good. *)
Lemma INSERT_fresh (cls : Cls) (now : Z) (values row : gmap string Value)
    (tx tx' : Tx) :
  INSERT cls now values tx = (inr row, tx') ->
  attr values "created_at" = VNone -> attr values "updated_at" = VNone ->
  appended (tx_db tx) (tx_db tx')
  /\ (store_ok now (tx_db tx) = true -> store_ok now (tx_db tx') = true)
  /\ attr row "created_at" = VTime now /\ attr row "updated_at" = VNone
  /\ exists n, attr row "id" = VInt n /\ find_row cls n (tx_db tx') = Some row.
Proof.
  intros H Hc Hu.
  destruct (INSERT_inv _ _ _ _ _ _ H) as (id & Hrow & _ & Hchk & Hfk & Hdb).
  destruct (new_row_attrs cls now values id Hc Hu) as (Hid & Hct & Hut).
  rewrite <- Hrow in Hid, Hct, Hut.
  destruct (check_row_inv _ _ _ Hchk) as ((n & Hn) & Hnn & Huq).
  assert (Happ : appended (tx_db tx) (tx_db tx')).
  { intros cls'. rewrite Hdb, table_with_table.
    destruct (decide (cls = cls')) as [<-|]; [now exists [row]|].
    exists []. now rewrite app_nil_r. }
  split; [exact Happ|]. split; [|split; [exact Hct|split; [exact Hut|]]].
  - rewrite !store_ok_inv. intros [Ht Hf]. split.
    + intros cls'. rewrite Hdb, table_with_table.
      destruct (decide (cls = cls')) as [<-|]; [|apply Ht].
      specialize (Ht cls). rewrite table_ok_inv in *. destruct Ht as [Hk Htm].
      split; [now apply (keys_ok_app cls)|].
      intros r Hr. apply in_app_or in Hr as [Hr|[<-|[]]]; [now apply Htm|].
      now apply row_times_ok_new.
    + intros f Hin.
      assert (Hold : forall f0, In f0 (fortunes (tx_db tx)) ->
                                fortune_row_ok (tx_db tx') f0 = true).
      { intros f0 Hf0. apply (fortune_row_ok_ids (tx_db tx)); [|now apply Hf].
        intros v Hv. destruct (Happ Author) as [new E]. cbn in E.
        rewrite E, ids_app. apply in_or_app. now left. }
      change (fortunes (tx_db tx')) with (table Fortune (tx_db tx')) in Hin.
      rewrite Hdb, table_with_table in Hin.
      destruct (decide (cls = Fortune)) as [->|]; [|now apply Hold].
      apply in_app_or in Hin as [Hin|[<-|[]]]; [now apply Hold|].
      apply fk_ok_fortune; [exact Hfk| |].
      * change (fortunes (tx_db tx')) with (table Fortune (tx_db tx')).
        rewrite Hdb, table_with_table. cbn. apply in_or_app. right. now left.
      * eapply author_id_not_null; [reflexivity | exact Hchk].
  - exists n. split; [exact Hn|]. unfold find_row.
    rewrite Hdb, table_with_table. rewrite decide_True by reflexivity.
    apply find_app_new; [|exact Hn].
    intros r Hr. exact (Huq c_id r (c_id_unique cls) Hr).
Qed.

(** The protected columns are not among those that the UPDATE of a good
    object sets. *)
Lemma protected_unchanged (cls : Cls) (values row : gmap string Value)
    (flagged : list string) (c : Column) :
  forallb
    (fun k =>
       negb (bool_decide (k ∈ flagged))
       && match values !! k with
          | Some v => bool_decide (v = attr row k)
          | None => true
          end) protected = true ->
  In (column_name c) protected ->
  ~ c ∈ changed_columns cls values flagged row.
Proof.
  rewrite forallb_forall. intros Hp Hc Hin. specialize (Hp _ Hc).
  apply andb_true_iff in Hp as [Hfl Hv].
  unfold changed_columns in Hin.
  apply list_elem_of_In, filter_In in Hin as [_ Hin].
  apply orb_true_iff in Hin as [Hin|Hin].
  - rewrite Hin in Hfl. discriminate.
  - destruct (values !! column_name c); [|discriminate].
    rewrite Hv in Hin. discriminate.
Qed.

(** The row that the UPDATE of a good object leaves. *)
Lemma updated_row_attrs (cls : Cls) (now : Z) (values row : gmap string Value)
    (flagged : list string) :
  forallb
    (fun k =>
       negb (bool_decide (k ∈ flagged))
       && match values !! k with
          | Some v => bool_decide (v = attr row k)
          | None => true
          end) protected = true ->
  let row2 := updated_row now values (changed_columns cls values flagged row) row in
  attr row2 "id" = attr row "id"
  /\ attr row2 "created_at" = attr row "created_at"
  /\ attr row2 "updated_at" = VTime now.
Proof.
  intros Hp. cbn zeta. unfold updated_row.
  pose proof (protected_unchanged cls values row flagged c_id Hp) as H1.
  pose proof (protected_unchanged cls values row flagged c_created_at Hp) as H2.
  pose proof (protected_unchanged cls values row flagged c_updated_at Hp) as H3.
  cbn in H1, H2, H3.
  rewrite bool_decide_eq_false_2 by (apply H3; auto).
  rewrite attr_insert_eq, !attr_insert_ne by discriminate.
  rewrite !attr_foldr_insert.
  rewrite !bool_decide_eq_false_2; [auto| |].
  - change "created_at" with (column_name c_created_at).
    rewrite in_changed_names. apply H2. auto.
  - change "id" with (column_name c_id).
    rewrite in_changed_names. apply H1. auto.
Qed.

End Steps.

Section StepsUpdate.




End StepsUpdate.

Section Flush.

Lemma row_key_int (row : gmap string Value) (n : Z) :
  attr row "id" = VInt n -> row_key row = Some n.
Proof. unfold row_key. now intros ->. Qed.

Lemma obj_ok_appended (d d' : DB) (o : Obj) :
  appended d d' -> obj_ok d o = true -> obj_ok d' o = true.
Proof.
  intros Happ. unfold obj_ok. destruct (o_key o) as [key|]; [|trivial].
  destruct (find_row (o_cls o) key d) as [row|] eqn:Hf; [|discriminate].
  now rewrite (appended_find_row _ _ _ _ _ Happ Hf).
Qed.

Lemma related_ok_appended (d d' : DB) (o : Obj) :
  appended d d' -> related_ok d o = true -> related_ok d' o = true.
Proof.
  intros Happ. unfold related_ok. destruct (o_key o) as [key|].
  - rewrite !andb_true_iff, !bool_decide_eq_true. intros [Hf Hfl].
    split; [|exact Hfl]. now apply (appended_find_row d).
  - now apply obj_ok_appended.
Qed.

Lemma obj_ok_fresh (d : DB) (o : Obj) :
  o_key o = None -> obj_ok d o = true ->
  attr (o_attrs o) "created_at" = VNone /\ attr (o_attrs o) "updated_at" = VNone.
Proof.
  unfold obj_ok. intros ->. rewrite forallb_forall. intros H. split.
  - eapply bool_decide_eq_true_1, H. cbn. auto.
  - eapply bool_decide_eq_true_1, H. cbn. auto.
Qed.

(** The flush of a related object adds a row or does nothing. *)
Lemma flush_related (now : Z) (o o' : Obj) (tx tx' : Tx) :
  flush_obj now o tx = (inr o', tx') ->
  related_ok (tx_db tx) o = true ->
  appended (tx_db tx) (tx_db tx')
  /\ (store_ok now (tx_db tx) = true -> store_ok now (tx_db tx') = true).
Proof.
  unfold flush_obj. intros H Hok.
  apply bind_inr in H as (row & tx1 & Hrow & Hret).
  unfold ret in Hret. injection Hret as <- <-.
  unfold related_ok in Hok. destruct (o_key o) as [key|] eqn:Hk.
  - apply andb_true_iff in Hok as [Hf Hfl].
    apply bool_decide_eq_true in Hf, Hfl.
    destruct (UPDATE_inv _ _ _ _ _ _ _ _ Hrow) as (row' & Hf' & Hcase).
    rewrite Hf in Hf'. injection Hf' as <-. rewrite Hfl in Hcase.
    rewrite changed_columns_unmodified in Hcase.
    destruct Hcase as [(_ & _ & ->)|(Hne & _)]; [|now destruct Hne].
    split; [apply appended_refl | trivial].
  - destruct (obj_ok_fresh _ _ Hk Hok) as [Hc Hu].
    destruct (INSERT_fresh _ _ _ _ _ _ Hrow Hc Hu) as (Happ & Hst & _).
    now split.
Qed.

Lemma flush_related_list (now : Z) (os os' : list Obj) (tx tx' : Tx) :
  mapM (flush_obj now) os tx = (inr os', tx') ->
  forallb (related_ok (tx_db tx)) os = true ->
  appended (tx_db tx) (tx_db tx')
  /\ (store_ok now (tx_db tx) = true -> store_ok now (tx_db tx') = true).
Proof.
  revert os' tx. induction os as [|o os IH]; intros os' tx H Hok.
  - cbn in H. unfold ret in H. injection H as <- <-.
    split; [apply appended_refl | trivial].
  - cbn [mapM] in H. apply bind_inr in H as (o' & tx1 & Ho & H).
    apply bind_inr in H as (os1 & tx2 & Hos & Hret).
    unfold ret in Hret. injection Hret as <- <-.
    cbn [forallb] in Hok. apply andb_true_iff in Hok as [Hok1 Hok2].
    destruct (flush_related _ _ _ _ _ Ho Hok1) as [Ha1 Hs1].
    assert (Hok2' : forallb (related_ok (tx_db tx1)) os = true).
    { rewrite forallb_forall in *. intros x Hx.
      apply (related_ok_appended (tx_db tx)); auto. }
    destruct (IH _ _ Hos Hok2') as [Ha2 Hs2].
    split; [now apply (appended_trans _ (tx_db tx1)) | auto].
Qed.


End Flush.

Section FlushEntity.



Lemma changed_columns_flagged (cls : Cls) (values row : gmap string Value)
    (flagged : list string) (c : Column) :
  In c (columns cls) -> column_name c ∈ flagged ->
  changed_columns cls values flagged row <> [].
Proof.
  intros Hc Hfl E.
  assert (Hin : In c (changed_columns cls values flagged row)).
  { unfold changed_columns. apply filter_In. split; [exact Hc|].
    now rewrite bool_decide_eq_true_2. }
  rewrite E in Hin. destruct Hin.
Qed.


End FlushEntity.

Section SaveGood.

(** The commit of a session that holds one object. *)
Lemma commit_single (self : Entity) (s s1 : Session) (r : Result (list Entity)) :
  inactive s = false -> pending s = [] ->
  commit (snd (session_add self s)) = (r, s1) ->
  clock s1 = clock s /\ pending s1 = []
  /\ match r with
     | Raise x => db s1 = db s
     | Return flushed =>
         exists e1 tx',
           flushed = [e1]
           /\ flush_entity (func_now s) self (mkTx (db s) (tsid s)) = (inr e1, tx')
           /\ db s1 = tx_db tx' /\ inactive s1 = false
     end.
Proof.
  intros Hact Hpend. unfold commit, session_add.
  cbn [snd inactive faults pending db tsid clock statements func_now].
  rewrite Hact, Hpend. cbn [app mapM].
  assert (Hflush :
    forall fl,
      match bind (flush_entity (func_now s) self)
              (fun y => bind (ret []) (fun ys => ret (y :: ys)))
              (mkTx (db s) (tsid s)) with
      | (inl err, tx) =>
          (Raise (exn_of_DBError err),
           mkSession (db s) [] true (clock s) (tx_tsid tx) (S (statements s)) fl)
      | (inr flushed, tx) =>
          (Return flushed,
           mkSession (tx_db tx) [] false (clock s) (tx_tsid tx)
             (S (statements s)) fl)
      end = (r, s1) ->
      clock s1 = clock s /\ pending s1 = []
      /\ match r with
         | Raise x => db s1 = db s
         | Return flushed =>
             exists e1 tx',
               flushed = [e1]
               /\ flush_entity (func_now s) self (mkTx (db s) (tsid s))
                  = (inr e1, tx')
               /\ db s1 = tx_db tx' /\ inactive s1 = false
         end).
  { intros fl. unfold bind, ret, func_now. cbn [clock].
    destruct (flush_entity _ self _) as [[err|e1] tx'].
    - intros [= <- <-]. cbn. auto.
    - intros [= <- <-]. cbn. repeat split. now exists e1, tx'. }
  destruct (faults s) as [|[] rest]; [apply Hflush| |apply Hflush].
  intros [= <- <-]. cbn. auto.
Qed.

Lemma refresh_inv (e e' : Entity) (s s' : Session) :
  refresh e s = (Return e', s') ->
  db s' = db s /\ pending s' = pending s /\ clock s' = clock s
  /\ inactive s' = false
  /\ exists key row, e_key e = Some key
                     /\ find_row (e_cls e) key (db s) = Some row
                     /\ load (db s) (e_cls e) row = Some e'.
Proof.
  unfold refresh, bind, execute, gets, throw, ret.
  destruct (inactive s) eqn:Hact; [discriminate|]. cbn [db].
  destruct (e_key e) as [key|]; [|discriminate].
  destruct (find_row _ _ _) as [row|] eqn:Hf; [|discriminate].
  destruct (load _ _ _) as [e0|] eqn:Hl; [|discriminate].
  intros [= <- <-]. cbn. repeat split. now exists key, row.
Qed.

Lemma refresh_state (e : Entity) (s s' : Session) (r : Result Entity) :
  refresh e s = (r, s') ->
  db s' = db s /\ pending s' = pending s /\ clock s' = clock s.
Proof.
  unfold refresh, bind, execute, gets, throw, ret.
  destruct (inactive s); [now intros [= <- <-]|]. cbn [db].
  destruct (e_key e) as [key|]; [|now intros [= <- <-]].
  destruct (find_row _ _ _) as [row|]; [|now intros [= <- <-]].
  destruct (load _ _ _) as [e0|]; now intros [= <- <-].
Qed.

Lemma save_handler_state (self : Entity) (x : exn) (s s' : Session)
    (r : Result (list Entity)) :
  save_handler self x s = (r, s') ->
  db s' = db s /\ clock s' = clock s /\ (pending s = [] -> pending s' = [])
  /\ exists y, r = Raise y.
Proof.
  unfold save_handler, throw, bind, rollback.
  destruct x; try (intros [= <- <-]; eauto 10).
  destruct (re_search_ignorecase _ _); intros [= <- <-]; cbn; eauto 10.
Qed.


End SaveGood.

Section Reads.

Lemma same_store_refl (s : Session) : same_store s s.
Proof. repeat split. Qed.

Lemma same_store_trans (s t u : Session) :
  same_store s t -> same_store t u -> same_store s u.
Proof.
  intros (H1 & H2 & H3 & H4 & H5 & H6) (G1 & G2 & G3 & G4 & G5 & G6).
  repeat split; congruence.
Qed.

Lemma execute_inv (s t : Session) (r : Result unit) :
  execute s = (r, t) ->
  same_store s t /\ (r = Return tt -> inactive s = false).
Proof.
  unfold execute. destruct (inactive s) eqn:E; intros [= <- <-].
  - split; [apply same_store_refl | discriminate].
  - split; [repeat split; cbn; auto | auto].
Qed.

Lemma session_get_inv (cls : Cls) (key : Z) (s t : Session)
    (r : Result (option Entity)) :
  session_get cls key s = (r, t) ->
  same_store s t
  /\ forall o, r = Return o ->
        inactive s = false
        /\ o = match find_row cls key (db s) with
               | Some row => load (db s) cls row
               | None => None
               end.
Proof.
  unfold session_get, bind, gets, ret.
  destruct (execute s) as [[x|[]] s1] eqn:E;
    destruct (execute_inv _ _ _ E) as [Hs Ha].
  - intros [= <- <-]. split; [exact Hs | discriminate].
  - intros [= <- <-]. split; [exact Hs|]. intros o [= <-].
    split; [auto|]. now destruct Hs as (-> & _).
Qed.

Lemma get_one_inv (cls : Cls) (key : Z) (s t : Session) (r : Result Entity) :
  get_one cls key s = (r, t) ->
  same_store s t
  /\ forall e, r = Return e ->
        inactive s = false
        /\ exists row, find_row cls key (db s) = Some row
                       /\ load (db s) cls row = Some e.
Proof.
  unfold get_one, bind.
  destruct (session_get cls key s) as [[x|o] s1] eqn:E;
    destruct (session_get_inv _ _ _ _ _ E) as [Hs Ho].
  - intros [= <- <-]. split; [exact Hs | discriminate].
  - destruct (Ho o eq_refl) as [Ha ->].
    destruct (find_row cls key (db s)) as [row|].
    + destruct (load (db s) cls row) as [e0|] eqn:Hl.
      * unfold ret. intros [= <- <-]. split; [exact Hs|].
        intros e [= <-]. split; [exact Ha|]. now exists row.
      * unfold throw. intros [= <- <-]. split; [exact Hs | discriminate].
    + unfold throw. intros [= <- <-]. split; [exact Hs | discriminate].
Qed.

Lemma stream_scalars_inv (q : Query) (s t : Session) (r : Result (list Entity)) :
  stream_scalars q s = (r, t) ->
  same_store s t
  /\ forall l, r = Return l -> inactive s = false /\ l = eval q (db s).
Proof.
  unfold stream_scalars, bind, gets, ret.
  destruct (execute s) as [[x|[]] s1] eqn:E;
    destruct (execute_inv _ _ _ E) as [Hs Ha].
  - intros [= <- <-]. split; [exact Hs | discriminate].
  - intros [= <- <-]. split; [exact Hs|]. intros l [= <-].
    split; [auto|]. now destruct Hs as (-> & _).
Qed.

(** The object that [new_or_existing] returns for one criterion: an
    existing one, loaded from its row, or a new one with that attribute. *)
Lemma new_or_existing_inv (cls : Cls) (name : string) (v : Value)
    (s t : Session) (r : Result Entity) :
  new_or_existing cls [(name, v)] s = (r, t) ->
  same_store s t
  /\ forall e, r = Return e ->
        inactive s = false
        /\ ((exists row, In row (table cls (db s))
                         /\ load (db s) cls row = Some e)
            \/ e = construct cls [(name, v)]).
Proof.
  unfold new_or_existing, bind, lift. cbn [add_criteria].
  destruct (getattr cls name) as [x|c];
    [intros [= <- <-]; split; [apply same_store_refl | discriminate]|].
  destruct (stream_scalars _ s) as [[x|l] s1] eqn:E;
    destruct (stream_scalars_inv _ _ _ _ E) as [Hs Hl].
  - intros [= <- <-]. split; [exact Hs | discriminate].
  - destruct (Hl l eq_refl) as [Ha El].
    destruct l as [|e0 [|e1 l]]; cbn [one_or_none]; unfold ret;
      intros [= <- <-]; (split; [exact Hs|]); try discriminate.
    + intros e [= <-]. split; [exact Ha|]. now right.
    + intros e [= <-]. split; [exact Ha|]. left.
      assert (Hin : e0 ∈ eval (where_ (select_ cls) c v) (db s))
        by (rewrite <- El; apply list_elem_of_here).
      unfold eval in Hin. apply list_elem_of_omap in Hin as (row & Hrow & Hload).
      apply list_elem_of_In, filter_In in Hrow as [Hrow _].
      now exists row.
Qed.

End Reads.

Section Objects.

Lemma find_row_in (rows : list (gmap string Value)) (row : gmap string Value)
    (key : Z) :
  keys_ok rows = true -> In row rows -> attr row "id" = VInt key ->
  List.find (has_key key) rows = Some row.
Proof.
  rewrite keys_ok_inv. intros [_ Hnd] Hin Hid.
  induction rows as [|r rows IH]; [destruct Hin|]. cbn.
  cbn in Hnd. apply NoDup_cons in Hnd as [Hr Hnd].
  destruct Hin as [->|Hin].
  - now rewrite (proj2 (has_key_attr key row) Hid).
  - destruct (has_key key r) eqn:E; [|now apply IH].
    apply has_key_attr in E. exfalso. apply Hr. rewrite E, <- Hid.
    apply list_elem_of_In, in_map_iff. now exists row.
Qed.

Lemma load_obj_of (d : DB) (cls : Cls) (row : gmap string Value) (e : Entity) :
  load d cls row = Some e -> e_obj e = load_obj cls row.
Proof.
  unfold load. destruct cls.
  - now intros [= <-].
  - destruct (attr row "author_id"); try discriminate.
    destruct (row_key row); try discriminate.
    destruct (find_row _ _ _); try discriminate. now intros [= <-].
  - now intros [= <-].
Qed.

Lemma related_ok_found (d : DB) (cls : Cls) (key : Z) (row : gmap string Value) :
  find_row cls key d = Some row -> related_ok d (load_obj cls row) = true.
Proof.
  intros Hf. unfold related_ok. cbn [load_obj o_key o_cls o_attrs o_flagged].
  assert (Hk : attr row "id" = VInt key).
  { unfold find_row in Hf. apply find_some in Hf as [_ Hk].
    now apply has_key_attr. }
  rewrite (row_key_int _ _ Hk).
  now rewrite !bool_decide_eq_true_2.
Qed.

Lemma obj_ok_found (d : DB) (cls : Cls) (key : Z) (row : gmap string Value) :
  find_row cls key d = Some row -> obj_ok d (load_obj cls row) = true.
Proof.
  intros Hf. unfold obj_ok. cbn [load_obj o_key o_cls o_attrs o_flagged].
  assert (Hk : attr row "id" = VInt key).
  { unfold find_row in Hf. apply find_some in Hf as [_ Hk].
    now apply has_key_attr. }
  rewrite (row_key_int _ _ Hk), Hf. apply forallb_forall. intros k _.
  rewrite bool_decide_eq_false_2 by apply not_elem_of_nil. cbn.
  unfold attr. destruct (row !! k); [|reflexivity]. cbn.
  now apply bool_decide_eq_true_2.
Qed.

(** An object that the session loaded is good for [save]. *)
Lemma entity_ok_loaded (d : DB) (cls : Cls) (key : Z) (row : gmap string Value)
    (e : Entity) :
  find_row cls key d = Some row -> load d cls row = Some e ->
  entity_ok d e = true.
Proof.
  intros Hf Hl. unfold entity_ok. rewrite (load_obj_of _ _ _ _ Hl).
  rewrite (obj_ok_found _ _ _ _ Hf). cbn. revert Hl. unfold load.
  destruct cls; try (intros [= <-]; reflexivity).
  destruct (attr row "author_id") as [|a| |]; try discriminate.
  destruct (row_key row) as [fid|]; try discriminate.
  destruct (find_row Author a d) as [arow|] eqn:Ha; try discriminate.
  intros [= <-]. unfold related. cbn [e_author e_tags forallb].
  rewrite (related_ok_found _ _ _ _ Ha). cbn. apply forallb_forall.
  intros o Ho. apply in_map_iff in Ho as (trow & <- & Hin).
  apply list_elem_of_In, list_elem_of_omap in Hin as (t & _ & Ht).
  now apply (related_ok_found _ _ t).
Qed.

Lemma related_ok_row (d : DB) (cls : Cls) (row : gmap string Value) (e : Entity) :
  keys_ok (table cls d) = true -> In row (table cls d) ->
  load d cls row = Some e -> related_ok d (e_obj e) = true.
Proof.
  intros Hk Hin Hl. rewrite (load_obj_of _ _ _ _ Hl).
  pose proof Hk as Hk'. apply keys_ok_inv in Hk' as [Hint _].
  destruct (Hint row Hin) as [n Hn].
  apply (related_ok_found _ _ n). unfold find_row. now apply find_row_in.
Qed.

Lemma related_ok_construct (d : DB) (cls : Cls) (name : string) (v : Value) :
  ~ In name protected ->
  related_ok d (e_obj (construct cls [(name, v)])) = true.
Proof.
  intros Hn. unfold related_ok, obj_ok, construct.
  cbn [e_obj o_key o_attrs list_to_map foldr fst snd].
  apply forallb_forall. intros k Hk. apply bool_decide_eq_true_2.
  unfold attr. rewrite lookup_insert_ne; [now rewrite lookup_empty|].
  now intros ->.
Qed.

Lemma store_ok_keys (now : Z) (d : DB) (cls : Cls) :
  store_ok now d = true -> keys_ok (table cls d) = true.
Proof.
  rewrite store_ok_inv. intros [Ht _]. specialize (Ht cls).
  now apply table_ok_inv in Ht as [Hk _].
Qed.

(** On a good store, [new_or_existing] by name or tag gives a good related
    object. *)
Lemma new_or_existing_related (cls : Cls) (name : string) (v : Value)
    (s t : Session) (e : Entity) (now : Z) :
  new_or_existing cls [(name, v)] s = (Return e, t) ->
  store_ok now (db s) = true -> ~ In name protected ->
  related_ok (db s) (e_obj e) = true.
Proof.
  intros H Hok Hn. destruct (new_or_existing_inv _ _ _ _ _ _ H) as [_ He].
  destruct (He e eq_refl) as [_ [(row & Hin & Hl)| ->]].
  - apply (related_ok_row _ cls row); [|assumption..].
    now apply (store_ok_keys now).
  - now apply related_ok_construct.
Qed.

Lemma mapM_new_or_existing (cls : Cls) (name : string) (vs : list string)
    (s t : Session) (r : Result (list Entity)) (now : Z) :
  mapM (fun v => new_or_existing cls [(name, VStr v)]) vs s = (r, t) ->
  store_ok now (db s) = true -> ~ In name protected ->
  same_store s t
  /\ forall es, r = Return es ->
        forallb (related_ok (db s)) (map e_obj es) = true.
Proof.
  intros H Hok Hn. revert s t r H Hok.
  induction vs as [|v vs IH]; intros s t r H Hok.
  - cbn in H. unfold ret in H. injection H as <- <-.
    split; [apply same_store_refl|]. now intros es [= <-].
  - cbn [mapM] in H. unfold bind at 1 in H.
    destruct (new_or_existing cls [(name, VStr v)] s) as [[x|e] s1] eqn:E;
      destruct (new_or_existing_inv _ _ _ _ _ _ E) as [Hs1 _].
    + injection H as <- <-. split; [exact Hs1 | discriminate].
    + unfold bind at 1 in H.
      destruct (mapM _ vs s1) as [[x|es'] s2] eqn:E2.
      * injection H as <- <-.
        assert (Hok1 : store_ok now (db s1) = true)
          by (destruct Hs1 as (-> & _); exact Hok).
        destruct (IH _ _ _ E2 Hok1) as [Hs2 _].
        split; [now apply (same_store_trans _ s1) | discriminate].
      * unfold ret in H. injection H as <- <-.
        assert (Hok1 : store_ok now (db s1) = true)
          by (destruct Hs1 as (-> & _); exact Hok).
        destruct (IH _ _ _ E2 Hok1) as [Hs2 Hes].
        split; [now apply (same_store_trans _ s1)|].
        intros es [= <-]. cbn [map forallb].
        rewrite (new_or_existing_related _ _ _ _ _ _ _ E Hok Hn). cbn.
        specialize (Hes es' eq_refl). destruct Hs1 as (Hd & _).
        now rewrite Hd in Hes.
Qed.

End Objects.

Section Edits.

Lemma obj_ok_setattr (d : DB) (o : Obj) (name : string) (v : Value) :
  ~ In name protected -> obj_ok d o = true ->
  obj_ok d (mkObj (o_cls o) (o_key o) (<[name := v]> (o_attrs o)) (o_flagged o))
  = true.
Proof.
  intros Hn. unfold obj_ok. cbn [o_cls o_key o_attrs o_flagged].
  destruct (o_key o) as [key|].
  - destruct (find_row _ _ _) as [row|]; [|trivial].
    rewrite !forallb_forall. intros H k Hk. specialize (H k Hk).
    rewrite lookup_insert_ne; [exact H | now intros ->].
  - rewrite !forallb_forall. intros H k Hk. specialize (H k Hk).
    rewrite attr_insert_ne; [exact H | now intros ->].
Qed.

Lemma obj_ok_flag (d : DB) (o : Obj) (name : string) :
  ~ In name protected -> obj_ok d o = true ->
  obj_ok d (mkObj (o_cls o) (o_key o) (o_attrs o) (name :: o_flagged o)) = true.
Proof.
  intros Hn. unfold obj_ok. cbn [o_cls o_key o_attrs o_flagged].
  destruct (o_key o) as [key|]; [|trivial].
  destruct (find_row _ _ _) as [row|]; [|trivial].
  rewrite !forallb_forall. intros H k Hk. specialize (H k Hk).
  apply andb_true_iff in H as [H1 H2]. rewrite H2, andb_true_r.
  apply negb_true_iff, bool_decide_eq_false. intros Hin.
  apply elem_of_cons in Hin as [->|Hin]; [now apply Hn|].
  apply negb_true_iff, bool_decide_eq_false in H1. now apply H1.
Qed.

Lemma entity_ok_inv (d : DB) (e : Entity) :
  entity_ok d e = true <->
  obj_ok d (e_obj e) = true
  /\ (forall a, e_author e = Some a -> related_ok d a = true)
  /\ forallb (related_ok d) (e_tags e) = true.
Proof.
  unfold entity_ok, related. rewrite andb_true_iff.
  destruct (e_author e) as [a|]; cbn [forallb]; rewrite ?andb_true_iff.
  - split.
    + intros (H1 & H2 & H3). repeat split; try assumption. now intros ? [= <-].
    + intros (H1 & H2 & H3). repeat split; auto.
  - split.
    + intros (H1 & H2). repeat split; try assumption. discriminate.
    + intros (H1 & _ & H3). now split.
Qed.

Lemma entity_ok_flag (d : DB) (e : Entity) (name : string) :
  ~ In name protected -> entity_ok d e = true ->
  entity_ok d (flag_modified e name) = true.
Proof.
  rewrite !entity_ok_inv. intros Hn (H1 & H2 & H3). cbn.
  repeat split; try assumption. now apply obj_ok_flag.
Qed.

Lemma entity_ok_setattr (d : DB) (e : Entity) (name : string) (v : Value) :
  ~ In name protected -> entity_ok d e = true ->
  entity_ok d (setattr e name v) = true.
Proof.
  rewrite !entity_ok_inv. intros Hn (H1 & H2 & H3). cbn.
  repeat split; try assumption. now apply obj_ok_setattr.
Qed.

Lemma entity_ok_set_author (d : DB) (e a : Entity) :
  related_ok d (e_obj a) = true -> entity_ok d e = true ->
  entity_ok d (set_author e a) = true.
Proof.
  rewrite !entity_ok_inv. intros Ha (H1 & H2 & H3). cbn.
  repeat split; try assumption. now intros ? [= <-].
Qed.

Lemma entity_ok_set_tags (d : DB) (e : Entity) (ts : list Entity) :
  forallb (related_ok d) (map e_obj ts) = true -> entity_ok d e = true ->
  entity_ok d (set_tags e ts) = true.
Proof.
  rewrite !entity_ok_inv. intros Ha (H1 & H2 & H3). cbn.
  repeat split; assumption.
Qed.


Lemma session_ok_inv (s : Session) :
  session_ok s = true <->
  store_ok (func_now s) (db s) = true /\ pending s = [].
Proof.
  unfold session_ok. rewrite andb_true_iff.
  destruct (pending s); split; intros [H1 H2]; (split; auto); discriminate.
Qed.


End Edits.

Section Attempts.

Lemma not_protected_name : ~ In "name" protected.
Proof. cbn. intuition discriminate. Qed.

Lemma not_protected_tag : ~ In "tag" protected.
Proof. cbn. intuition discriminate. Qed.

Lemma not_protected_content : ~ In "content" protected.
Proof. cbn. intuition discriminate. Qed.



End Attempts.

Section PatchAttempt.

Lemma carried_loaded (d : DB) (key : Z) (row : gmap string Value) (f : Entity) :
  find_row Fortune key d = Some row -> load d Fortune row = Some f ->
  carried d (flag_modified f "content").
Proof.
  intros Hf Hl. pose proof (entity_ok_loaded _ _ _ _ _ Hf Hl) as Hok.
  pose proof (load_obj_of _ _ _ _ Hl) as Ho.
  assert (Hk : attr row "id" = VInt key).
  { unfold find_row in Hf. apply find_some in Hf as [_ Hk].
    now apply has_key_attr. }
  repeat split.
  - now apply entity_ok_flag; [apply not_protected_content|].
  - unfold e_key. cbn. rewrite Ho. cbn. now rewrite (row_key_int _ _ Hk).
  - unfold e_cls. cbn. now rewrite Ho.
  - cbn. apply list_elem_of_here.
Qed.

Lemma carried_author (f : Entity) (o : option string) (s t : Session)
    (r : Result Entity) (now : Z) :
  match o with
  | Some name =>
      if bool_decide (name = "") then ret f
      else
        author <- new_or_existing Author [("name", VStr name)] ;;
        ret (set_author f author)
  | None => ret f
  end s = (r, t) ->
  store_ok now (db s) = true -> carried (db s) f ->
  same_store s t /\ forall f', r = Return f' -> carried (db s) f'.
Proof.
  intros H Hst Hf.
  assert (Hret : forall s0 r0 t0, @ret Session exn Entity f s0 = (r0, t0) ->
                   same_store s0 t0
                   /\ forall f', r0 = Return f' -> carried (db s) f').
  { unfold ret. intros s0 r0 t0 [= <- <-].
    split; [apply same_store_refl|]. now intros f' [= <-]. }
  destruct o as [name|]; [|now apply Hret].
  destruct (bool_decide (name = "")); [now apply Hret|].
  unfold bind in H.
  destruct (new_or_existing Author _ s) as [[x|a] s1] eqn:E;
    destruct (new_or_existing_inv _ _ _ _ _ _ E) as [Hs _].
  - injection H as <- <-. split; [exact Hs | discriminate].
  - unfold ret in H. injection H as <- <-. split; [exact Hs|].
    intros f' [= <-]. destruct Hf as (H1 & H2 & H3 & H4).
    repeat split; try assumption.
    apply entity_ok_set_author; [|exact H1].
    exact (new_or_existing_related _ _ _ _ _ _ _ E Hst not_protected_name).
Qed.

Lemma carried_tags (f : Entity) (o : option (list string)) (s t : Session)
    (r : Result Entity) (now : Z) :
  match o with
  | Some tags =>
      tags <- mapM (fun tag => new_or_existing Tag [("tag", VStr tag)]) tags ;;
      ret (set_tags f tags)
  | None => ret f
  end s = (r, t) ->
  store_ok now (db s) = true -> carried (db s) f ->
  same_store s t /\ forall f', r = Return f' -> carried (db s) f'.
Proof.
  intros H Hst Hf. destruct o as [tags|].
  - unfold bind in H.
    destruct (mapM _ tags s) as [[x|ts] s1] eqn:E;
      destruct (mapM_new_or_existing _ _ _ _ _ _ _ E Hst not_protected_tag)
        as [Hs Hts].
    + injection H as <- <-. split; [exact Hs | discriminate].
    + unfold ret in H. injection H as <- <-. split; [exact Hs|].
      intros f' [= <-]. destruct Hf as (H1 & H2 & H3 & H4).
      repeat split; try assumption.
      apply entity_ok_set_tags; [|exact H1]. now apply Hts.
  - unfold ret in H. injection H as <- <-.
    split; [apply same_store_refl|]. now intros f' [= <-].
Qed.

Lemma carried_content (d : DB) (f : Entity) (o : option string) :
  carried d f ->
  carried d match o with
            | Some content =>
                if bool_decide (content = "") then f
                else setattr f "content" (VStr content)
            | None => f
            end.
Proof.
  intros Hf. destruct o as [content|]; [|exact Hf].
  destruct (bool_decide (content = "")); [exact Hf|].
  destruct Hf as (H1 & H2 & H3 & H4). repeat split; try assumption.
  now apply entity_ok_setattr; [apply not_protected_content|].
Qed.


End PatchAttempt.

Section Service.





Lemma session_ok_fresh_after (s : Session) :
  store_ok (func_now s) (db s) = true -> session_ok (fresh_session s) = true.
Proof. intros H. apply session_ok_inv. now split. Qed.


(** On a good store every row loads. *)
Lemma load_total (now : Z) (d : DB) (cls : Cls) (row : gmap string Value) :
  store_ok now d = true -> In row (table cls d) ->
  exists e, load d cls row = Some e /\ e_attrs e = row.
Proof.
  intros Hok Hin. unfold load. destruct cls;
    try (eexists; split; reflexivity).
  pose proof (store_ok_keys _ _ Fortune Hok) as Hk.
  apply keys_ok_inv in Hk as [Hint _]. destruct (Hint row Hin) as [fid Hfid].
  rewrite (row_key_int _ _ Hfid).
  apply store_ok_inv in Hok as [_ Hf]. specialize (Hf row Hin).
  unfold fortune_row_ok in Hf.
  destruct (attr row "author_id") as [|a| |]; try discriminate.
  apply existsb_exists in Hf as (arow & Ha & Hka).
  unfold find_row. destruct (List.find (has_key a) (table Author d)) eqn:E.
  - eexists; split; reflexivity.
  - apply find_none with (x := arow) in E; [congruence | exact Ha].
Qed.

Lemma omap_load_all (d : DB) (cls : Cls) (rows : list (gmap string Value)) :
  (forall row, In row rows -> exists e, load d cls row = Some e /\ e_attrs e = row) ->
  map e_attrs (omap (load d cls) rows) = rows.
Proof.
  induction rows as [|row rows IH]; intros H; [reflexivity|]. cbn.
  destruct (H row) as (e & -> & He); [now left|]. cbn.
  rewrite He, IH; [reflexivity|]. intros r Hr. apply H. now right.
Qed.



End Service.

Section RetryInvariant.

Context {A : Type} (fn : M A) (I : Session -> Prop).

Hypothesis fn_keeps : forall s r t, I s -> fn s = (r, t) -> I t.
Hypothesis sleep_keeps : forall ms s, 0 <= ms -> I s -> I (snd (sleep ms s)).


End RetryInvariant.

Section Endpoints.



(** The session after a request handled under [SessionDep]. *)
Lemma SessionDep_state {A : Type} (m : M A) (s : Session) :
  snd (SessionDep m s) = fresh_session (snd (m (fresh_session s))).
Proof.
  unfold SessionDep, catch_session_exceptions, try_except, get_session, throw.
  destruct (m (fresh_session s)) as [[x|a] s1]; [|reflexivity].
  destruct x; reflexivity.
Qed.


Lemma session_ok_fresh_idem (s : Session) :
  session_ok (fresh_session s) = true <-> store_ok (func_now s) (db s) = true.
Proof. rewrite session_ok_inv. cbn. tauto. Qed.







End Endpoints.

(** ** Timestamps *)




(** ** Listing *)



(** ** Identifiers at the boundary of the service *)

Lemma length_to_string (x : Z) : String.length (TSID.to_string x) = 13%nat.
Proof. unfold TSID.to_string. now rewrite length_string_of_list_ascii. Qed.

Lemma StringConstraints_13 (loc : list string) (s : string) :
  String.length s = 13%nat -> StringConstraints 13 13 loc s = Valid s.
Proof. intros H. unfold StringConstraints. now rewrite H. Qed.

Lemma EntityId_serialize_id (loc : list string) (x : Z) :
  0 <= x <= maxsize -> EntityId loc (serialize_id x) = Valid x.
Proof.
  intros Hx. unfold serialize_id, entity_id_to_string.
  unfold EntityId. rewrite StringConstraints_13 by apply length_to_string.
  unfold AfterValidator, entity_id_from_string, maxsize in *.
  rewrite from_string_to_string by lia.
  destruct (Z.ltb_spec x 0); [lia|].
  destruct (Z.gtb_spec x (2 ^ 63 - 1)); [lia|]. reflexivity.
Qed.

(** The identifier that a response carries is accepted back: for every
    identifier [x] in [[0, sys.maxsize]], [serialize_id x] has 13 characters
    and [EntityId] validates it to [x], at every location. *)
Theorem EntityId_accepts_serialized_id (loc : list string) (x : Z) :
  0 <= x <= maxsize ->
  String.length (serialize_id x) = 13%nat
  /\ EntityId loc (serialize_id x) = Valid x.
Proof.
  intros Hx. split; [apply length_to_string | now apply EntityId_serialize_id].
Qed.

Lemma EntityId_accepts_serialized_id_witness :
  0 <= 687074410262059062 <= maxsize
  /\ EntityId ["path"; "fortune_id"] (serialize_id 687074410262059062)
     = Valid 687074410262059062.
Proof.
  assert (H : 0 <= 687074410262059062 <= maxsize) by (unfold maxsize; lia).
  split; [exact H|].
  exact (proj2 (EntityId_accepts_serialized_id _ _ H)).
Defined.

(** [EntityId] accepts exactly the strings that [entity_id_from_string]
    decodes, with the decoded number as the value; what it accepts has 13
    characters and lies in [[0, sys.maxsize]], and the canonical string of
    the number decodes to the same number. *)
Theorem EntityId_valid_iff_decodes (loc : list string) (s : string) (n : Z) :
  (EntityId loc s = Valid n <-> entity_id_from_string s = Return n)
  /\ (entity_id_from_string s = Return n ->
      String.length s = 13%nat /\ 0 <= n <= maxsize
      /\ entity_id_from_string (entity_id_to_string n) = Return n).
Proof.
  assert (Hdec : entity_id_from_string s = Return n ->
                 String.length s = 13%nat /\ 0 <= n <= maxsize).
  { unfold entity_id_from_string.
    destruct (TSID.from_string s) as [e|m] eqn:F; [discriminate|].
    destruct (Z.ltb_spec m 0); [discriminate|].
    destruct (Z.gtb_spec m maxsize); [discriminate|]. cbn. intros [= <-].
    split; [eapply from_string_length, F | lia]. }
  split; [split|].
  - unfold EntityId, StringConstraints.
    destruct (_ <? 13)%nat; [discriminate|].
    destruct (13 <? _)%nat; [discriminate|].
    unfold AfterValidator.
    destruct (entity_id_from_string s) as [e|m]; [|now intros [= ->]].
    destruct e; discriminate.
  - intros H. destruct (Hdec H) as [Hlen _].
    unfold EntityId. rewrite StringConstraints_13 by exact Hlen.
    unfold AfterValidator. now rewrite H.
  - intros H. destruct (Hdec H) as [Hlen Hn]. split; [exact Hlen|].
    split; [exact Hn|].
    unfold entity_id_from_string, entity_id_to_string, maxsize in *.
    rewrite from_string_to_string by lia.
    destruct (Z.ltb_spec n 0); [lia|].
    destruct (Z.gtb_spec n (2 ^ 63 - 1)); [lia|]. reflexivity.
Qed.

(** ** Request bodies *)

Section Bodies.

Lemma StringConstraints_valid (mn mx : nat) (loc : list string) (s x : string) :
  StringConstraints mn mx loc s = Valid x <-> x = s /\ within mn mx s.
Proof.
  unfold StringConstraints, within.
  destruct (Nat.ltb_spec (String.length s) mn).
  - split; [discriminate | lia].
  - destruct (Nat.ltb_spec mx (String.length s)).
    + split; [discriminate | lia].
    + split; [now intros [= <-] | now intros [-> _]].
Qed.

Lemma StringConstraints_not_crashed (mn mx : nat) (loc : list string)
    (s : string) (e : exn) :
  StringConstraints mn mx loc s <> Crashed e.
Proof.
  unfold StringConstraints.
  destruct (_ <? _)%nat; [discriminate|]. destruct (_ <? _)%nat; discriminate.
Qed.

Lemma list_of_not_crashed (mn mx : nat) (loc : list string) (i : nat)
    (xs : list string) (e : exn) :
  list_of (StringConstraints mn mx) loc i xs <> Crashed e.
Proof.
  revert i e.
  induction xs as [|x xs IH]; intros i e; cbn [list_of]; [discriminate|].
  pose proof (StringConstraints_not_crashed mn mx (loc ++ [pretty i]) x) as Hx.
  specialize (IH (S i)).
  destruct (StringConstraints mn mx (loc ++ [pretty i]) x) as [b|errs|e1];
    destruct (list_of (StringConstraints mn mx) loc (S i) xs) as [bs|errs'|e2];
    try discriminate; try (exfalso; eapply Hx; reflexivity);
    exfalso; eapply IH; reflexivity.
Qed.

Lemma list_of_valid (mn mx : nat) (loc : list string) (i : nat)
    (xs ys : list string) :
  list_of (StringConstraints mn mx) loc i xs = Valid ys
  <-> ys = xs /\ Forall (within mn mx) xs.
Proof.
  revert i ys. induction xs as [|x xs IH]; intros i ys; cbn [list_of].
  - split; [intros [= <-]; split; [reflexivity | constructor] | now intros [-> _]].
  - pose proof (StringConstraints_valid mn mx (loc ++ [pretty i]) x) as Hx.
    pose proof (StringConstraints_not_crashed mn mx (loc ++ [pretty i]) x) as Hc.
    pose proof (list_of_not_crashed mn mx loc (S i) xs) as Hcs.
    specialize (IH (S i)).
    destruct (StringConstraints mn mx (loc ++ [pretty i]) x) as [b|errs|e1];
      destruct (list_of (StringConstraints mn mx) loc (S i) xs) as [bs|errs'|e2];
      try (exfalso; eapply Hc; reflexivity);
      try (exfalso; eapply Hcs; reflexivity).
    + destruct (proj1 (Hx b) eq_refl) as [-> Hb].
      destruct (proj1 (IH bs) eq_refl) as [-> Hbs].
      split; [intros [= <-]; split; [reflexivity | now constructor]
             | now intros [-> _]].
    + split; [discriminate|]. intros [-> H]. inversion H; subst.
      assert (C : @Invalid (list string) errs' = Valid xs)
        by (apply IH; now split).
      discriminate C.
    + split; [discriminate|]. intros [-> H]. inversion H; subst.
      assert (C : @Invalid string errs = Valid x) by (apply Hx; now split).
      discriminate C.
    + split; [discriminate|]. intros [-> H]. inversion H; subst.
      assert (C : @Invalid string errs = Valid x) by (apply Hx; now split).
      discriminate C.
Qed.

End Bodies.

(** [FortuneIn] accepts a body exactly when [author] is there with 1 to 128
    characters, [content] is there with 1 to 512 characters and every tag
    has 1 to 32 characters; [tags] may be missing and is then the empty
    list.  The accepted value holds the strings of the body unchanged, and
    no exception escapes the validation. *)
Theorem validate_FortuneIn_accepts_iff (loc : list string)
    (author : option string) (tags : option (list string))
    (content : option string) (fortune_in : FortuneIn) :
  (validate_FortuneIn loc author tags content = Valid fortune_in
   <-> author = Some (in_author fortune_in)
       /\ within 1 128 (in_author fortune_in)
       /\ in_tags fortune_in = default [] tags
       /\ Forall (within 1 32) (in_tags fortune_in)
       /\ content = Some (in_content fortune_in)
       /\ within 1 512 (in_content fortune_in))
  /\ forall e, validate_FortuneIn loc author tags content <> Crashed e.
Proof.
  unfold validate_FortuneIn, AuthorName, TagValue, FortuneContent.
  set (va := match author with Some a => _ | None => _ end).
  set (vt := match tags with Some ts => _ | None => _ end).
  set (vc := match content with Some c => _ | None => _ end).
  assert (Ha : forall x, va = Valid x <-> author = Some x /\ within 1 128 x).
  { intros x. subst va. destruct author as [a|].
    - rewrite StringConstraints_valid. split.
      + now intros [-> H].
      + now intros [[= ->] H].
    - split; [discriminate | now intros [? _]]. }
  assert (Hc : forall x, vc = Valid x <-> content = Some x /\ within 1 512 x).
  { intros x. subst vc. destruct content as [c|].
    - rewrite StringConstraints_valid. split.
      + now intros [-> H].
      + now intros [[= ->] H].
    - split; [discriminate | now intros [? _]]. }
  assert (Ht : forall x, vt = Valid x
                         <-> x = default [] tags /\ Forall (within 1 32) x).
  { intros x. subst vt. destruct tags as [ts|]; cbn [default].
    - rewrite list_of_valid. split; [now intros [-> H] | now intros [-> H]].
    - split; [intros [= <-]; split; [reflexivity | constructor]
             | now intros [-> _]]. }
  assert (Hac : forall e, va <> Crashed e).
  { intros e. subst va. destruct author; [|discriminate].
    apply StringConstraints_not_crashed. }
  assert (Hcc : forall e, vc <> Crashed e).
  { intros e. subst vc. destruct content; [|discriminate].
    apply StringConstraints_not_crashed. }
  assert (Htc : forall e, vt <> Crashed e).
  { intros e. subst vt. destruct tags; [|discriminate].
    apply list_of_not_crashed. }
  clearbody va vt vc.
  destruct va as [a|ea|xa]; [| |exfalso; eapply Hac; reflexivity];
    (destruct vt as [t|et|xt]; [| |exfalso; eapply Htc; reflexivity]);
    (destruct vc as [c|ec|xc]; [| |exfalso; eapply Hcc; reflexivity]);
    (split; [|discriminate]).
  - destruct (proj1 (Ha a) eq_refl) as [-> Ha'].
    destruct (proj1 (Ht t) eq_refl) as [Et Ht'].
    destruct (proj1 (Hc c) eq_refl) as [-> Hc'].
    split.
    + intros [= <-]. cbn. auto 10.
    + intros ([= Ea] & _ & Et' & _ & [= Ec] & _).
      destruct fortune_in as [a' t' c']. cbn in *. congruence.
  - split; [discriminate|]. intros (_ & _ & _ & _ & E & H).
    assert (C : @Invalid string ec = Valid (in_content fortune_in))
      by (apply Hc; now split).
    discriminate C.
  - split; [discriminate|]. intros (_ & _ & E & H & _).
    assert (C : @Invalid (list string) et = Valid (in_tags fortune_in))
      by (apply Ht; now split).
    discriminate C.
  - split; [discriminate|]. intros (_ & _ & E & H & _).
    assert (C : @Invalid (list string) et = Valid (in_tags fortune_in))
      by (apply Ht; now split).
    discriminate C.
  - split; [discriminate|]. intros (E & H & _).
    assert (C : @Invalid string ea = Valid (in_author fortune_in))
      by (apply Ha; now split).
    discriminate C.
  - split; [discriminate|]. intros (E & H & _).
    assert (C : @Invalid string ea = Valid (in_author fortune_in))
      by (apply Ha; now split).
    discriminate C.
  - split; [discriminate|]. intros (E & H & _).
    assert (C : @Invalid string ea = Valid (in_author fortune_in))
      by (apply Ha; now split).
    discriminate C.
  - split; [discriminate|]. intros (E & H & _).
    assert (C : @Invalid string ea = Valid (in_author fortune_in))
      by (apply Ha; now split).
    discriminate C.
Qed.

Section Patches.

Lemma optional_valid {A : Type} (f : list string -> A -> Validation A)
    (P : A -> Prop) (loc : list string) (x y : option A) :
  (forall a b, f loc a = Valid b <-> b = a /\ P a) ->
  (optional f loc x = Valid y <-> y = x /\ forall a, x = Some a -> P a).
Proof.
  intros Hf. unfold optional. destruct x as [a|].
  - pose proof (Hf a) as Ha. destruct (f loc a) as [b|errs|e].
    + destruct (proj1 (Ha b) eq_refl) as [-> Hp]. split.
      * intros [= <-]. split; [reflexivity|]. now intros ? [= <-].
      * now intros [-> _].
    + split; [discriminate|]. intros [_ H].
      assert (C : @Invalid A errs = Valid a) by (apply Ha; auto).
      discriminate C.
    + split; [discriminate|]. intros [_ H].
      assert (C : @Crashed A e = Valid a) by (apply Ha; auto).
      discriminate C.
  - split; [intros [= <-]; split; [reflexivity | discriminate] | now intros [-> _]].
Qed.

Lemma optional_not_crashed {A : Type} (f : list string -> A -> Validation A)
    (loc : list string) (x : option A) (e : exn) :
  (forall a e', f loc a <> Crashed e') -> optional f loc x <> Crashed e.
Proof.
  intros Hf. unfold optional. destruct x as [a|]; [|discriminate].
  specialize (Hf a). destruct (f loc a); try discriminate.
  exfalso. eapply Hf. reflexivity.
Qed.

End Patches.

(** [FortunePatch] accepts a body exactly when every field that is there
    keeps its bounds (author 1 to 128 characters, each tag 1 to 32, content
    1 to 512) and at least one of the three is there; an empty list of tags
    counts as there.  The accepted value is the body, and no exception
    escapes the validation. *)
Theorem validate_FortunePatch_accepts_iff (loc : list string)
    (body patch : FortunePatch) :
  (validate_FortunePatch loc body = Valid patch
   <-> patch = body
       /\ (forall a, patch_author_ body = Some a -> within 1 128 a)
       /\ (forall ts, patch_tags body = Some ts -> Forall (within 1 32) ts)
       /\ (forall c, patch_content body = Some c -> within 1 512 c)
       /\ ~ (patch_author_ body = None /\ patch_tags body = None
             /\ patch_content body = None))
  /\ forall e, validate_FortunePatch loc body <> Crashed e.
Proof.
  unfold validate_FortunePatch, AuthorName, TagValue, FortuneContent.
  set (va := optional _ _ (patch_author_ body)).
  set (vt := optional _ _ (patch_tags body)).
  set (vc := optional _ _ (patch_content body)).
  assert (Ha : forall y, va = Valid y
                 <-> y = patch_author_ body
                     /\ forall a, patch_author_ body = Some a -> within 1 128 a).
  { intros y. apply optional_valid. intros a b. apply StringConstraints_valid. }
  assert (Ht : forall y, vt = Valid y
                 <-> y = patch_tags body
                     /\ forall ts, patch_tags body = Some ts ->
                                   Forall (within 1 32) ts).
  { intros y. apply optional_valid. intros a b. apply list_of_valid. }
  assert (Hc : forall y, vc = Valid y
                 <-> y = patch_content body
                     /\ forall c, patch_content body = Some c -> within 1 512 c).
  { intros y. apply optional_valid. intros a b. apply StringConstraints_valid. }
  assert (Hac : forall e, va <> Crashed e).
  { intros e. apply optional_not_crashed. intros a e'.
    apply StringConstraints_not_crashed. }
  assert (Htc : forall e, vt <> Crashed e).
  { intros e. apply optional_not_crashed. intros a e'.
    apply list_of_not_crashed. }
  assert (Hcc : forall e, vc <> Crashed e).
  { intros e. apply optional_not_crashed. intros a e'.
    apply StringConstraints_not_crashed. }
  clearbody va vt vc.
  destruct va as [a|ea|xa]; [| |exfalso; eapply Hac; reflexivity];
    (destruct vt as [t|et|xt]; [| |exfalso; eapply Htc; reflexivity]);
    (destruct vc as [c|ec|xc]; [| |exfalso; eapply Hcc; reflexivity]).
  - destruct (proj1 (Ha a) eq_refl) as [-> Ha'].
    destruct (proj1 (Ht t) eq_refl) as [-> Ht'].
    destruct (proj1 (Hc c) eq_refl) as [-> Hc'].
    destruct body as [ba bt bc]. cbn [patch_author_ patch_tags patch_content] in *.
    unfold AfterValidator, verify_any.
    cbn [patch_author_ patch_tags patch_content forallb].
    destruct ba as [a|]; [|destruct bt as [t|]; [|destruct bc as [c|]]];
      cbn; (split; [|discriminate]).
    + split; [|now intros [-> _]].
      intros [= <-]. split; [reflexivity|]. split; [exact Ha'|].
      split; [exact Ht'|]. split; [exact Hc'|]. now intros [[=] _].
    + split; [|now intros [-> _]].
      intros [= <-]. split; [reflexivity|]. split; [exact Ha'|].
      split; [exact Ht'|]. split; [exact Hc'|]. now intros (_ & [=] & _).
    + split; [|now intros [-> _]].
      intros [= <-]. split; [reflexivity|]. split; [exact Ha'|].
      split; [exact Ht'|]. split; [exact Hc'|]. now intros (_ & _ & [=]).
    + split; [discriminate|]. intros (_ & _ & _ & _ & H). exfalso. now apply H.
  - split; [split; [discriminate|] | discriminate].
    intros (_ & _ & _ & H & _).
    assert (C : @Invalid (option string) ec = Valid (patch_content body))
      by (apply Hc; auto).
    discriminate C.
  - split; [split; [discriminate|] | discriminate].
    intros (_ & _ & H & _).
    assert (C : @Invalid (option (list string)) et = Valid (patch_tags body))
      by (apply Ht; auto).
    discriminate C.
  - split; [split; [discriminate|] | discriminate].
    intros (_ & _ & H & _).
    assert (C : @Invalid (option (list string)) et = Valid (patch_tags body))
      by (apply Ht; auto).
    discriminate C.
  - split; [split; [discriminate|] | discriminate].
    intros (_ & H & _).
    assert (C : @Invalid (option string) ea = Valid (patch_author_ body))
      by (apply Ha; auto).
    discriminate C.
  - split; [split; [discriminate|] | discriminate].
    intros (_ & H & _).
    assert (C : @Invalid (option string) ea = Valid (patch_author_ body))
      by (apply Ha; auto).
    discriminate C.
  - split; [split; [discriminate|] | discriminate].
    intros (_ & H & _).
    assert (C : @Invalid (option string) ea = Valid (patch_author_ body))
      by (apply Ha; auto).
    discriminate C.
  - split; [split; [discriminate|] | discriminate].
    intros (_ & H & _).
    assert (C : @Invalid (option string) ea = Valid (patch_author_ body))
      by (apply Ha; auto).
    discriminate C.
Qed.

(** ** [with_fortunes] *)

Section WithFortunes.

Lemma with_fortunes_unfold (self : Entity) (s : Session) :
  inactive s = false ->
  with_fortunes self s
  = (Return (self, fortunes_of self (db s)), snd (execute s)).
Proof.
  intros H. unfold with_fortunes, bind, gets, ret, execute. now rewrite H.
Qed.

Lemma execute_same (s : Session) : same_store s (snd (execute s)).
Proof.
  destruct (execute s) as [r t] eqn:E. now apply execute_inv in E as [H _].
Qed.

Lemma in_omap_load (d : DB) (cls : Cls) (rows : list (gmap string Value))
    (f : Entity) :
  In f (omap (load d cls) rows) <->
  exists row, In row rows /\ load d cls row = Some f.
Proof.
  rewrite <- list_elem_of_In, list_elem_of_omap.
  split; intros (row & H1 & H2); exists row; split; try exact H2;
    now apply list_elem_of_In.
Qed.

Lemma find_row_key (cls : Cls) (key : Z) (d : DB) (row : gmap string Value) :
  find_row cls key d = Some row ->
  In row (table cls d) /\ row_key row = Some key.
Proof.
  intros H. apply find_some in H as [Hin Hk]. split; [exact Hin|].
  now apply row_key_int, has_key_attr.
Qed.

End WithFortunes.

(** [Author.with_fortunes] on a database that the service has written:
    the author comes back with the fortunes whose [author_id] is the
    author's identifier, all of them and in table order; each of them
    carries this author's row as its [author]; the database is left as it
    was. *)
Theorem with_fortunes_of_author (self : Entity) (key : Z) (s : Session) :
  e_cls self = Author -> e_key self = Some key ->
  store_ok (func_now s) (db s) = true -> inactive s = false ->
  exists fs t,
    with_fortunes self s = (Return (self, fs), t)
    /\ same_store s t
    /\ map e_attrs fs
       = List.filter (fun row => bool_decide (attr row "author_id" = VInt key))
           (fortunes (db s))
    /\ forall f, In f fs ->
         e_cls f = Fortune
         /\ e_author f
            = option_map (load_obj Author) (find_row Author key (db s)).
Proof.
  intros Hcls Hkey Hok Hact.
  exists (fortunes_of self (db s)), (snd (execute s)).
  split; [now apply with_fortunes_unfold|]. split; [apply execute_same|].
  unfold fortunes_of. rewrite Hcls, Hkey. unfold eval, where_, select_.
  cbn [q_cls q_where app table].
  assert (E : List.filter (matches [(c_author_id, VInt key)]) (fortunes (db s))
              = List.filter
                  (fun row => bool_decide (attr row "author_id" = VInt key))
                  (fortunes (db s))).
  { apply filter_ext. intros row. unfold matches. cbn. apply andb_true_r. }
  rewrite E. split.
  - apply omap_load_all. intros row Hin. apply filter_In in Hin as [Hin _].
    exact (load_total _ _ Fortune row Hok Hin).
  - intros f Hf. apply in_omap_load in Hf as (row & Hin & Hl).
    apply filter_In in Hin as [_ Ha]. apply bool_decide_eq_true_1 in Ha.
    split; [exact (proj2 (load_attrs _ _ _ _ Hl))|].
    unfold load in Hl. rewrite Ha in Hl.
    destruct (row_key row); [|discriminate].
    destruct (find_row Author key (db s)); [|discriminate].
    now injection Hl as <-.
Qed.

Lemma with_fortunes_of_author_witness :
  let author :=
    mkEntity
      (load_obj Author (List.hd ∅ (authors (db session_with_two_fortunes))))
      None [] in
  exists fs,
    fst (with_fortunes author session_with_two_fortunes) = Return (author, fs)
    /\ map e_attrs fs = fortunes (db session_with_two_fortunes).
Proof.
  intros author.
  assert (H1 : e_cls author = Author) by reflexivity.
  assert (H2 : e_key author = Some 1) by (vm_compute; reflexivity).
  assert (H3 : store_ok (func_now session_with_two_fortunes)
                 (db session_with_two_fortunes) = true)
    by (vm_compute; reflexivity).
  destruct (with_fortunes_of_author author 1 session_with_two_fortunes
              H1 H2 H3 eq_refl) as (fs & t' & Hw & _ & Hm & _).
  exists fs. split; [now rewrite Hw|].
  rewrite Hm. vm_compute. reflexivity.
Defined.

(** [Tag.with_fortunes] on a database that the service has written, for a
    tag that has its row: the tag comes back with its fortunes, and a
    fortune of the database is among them exactly when the tag is among the
    [tags] of that fortune; the database is left as it was. *)
Theorem with_fortunes_of_tag (self : Entity) (key : Z) (s : Session) :
  e_cls self = Tag -> e_key self = Some key ->
  find_row Tag key (db s) <> None ->
  store_ok (func_now s) (db s) = true -> inactive s = false ->
  exists fs t,
    with_fortunes self s = (Return (self, fs), t)
    /\ same_store s t
    /\ (forall f, In f fs ->
          e_cls f = Fortune /\ In (e_attrs f) (fortunes (db s)))
    /\ forall row f,
         In row (fortunes (db s)) -> load (db s) Fortune row = Some f ->
         (In f fs <-> In (Some key) (map o_key (e_tags f))).
Proof.
  intros Hcls Hkey Hrow Hok Hact.
  exists (fortunes_of self (db s)), (snd (execute s)).
  split; [now apply with_fortunes_unfold|]. split; [apply execute_same|].
  unfold fortunes_of. rewrite Hcls, Hkey. split.
  - intros f Hf. apply in_omap_load in Hf as (row & Hin & Hl).
    apply filter_In in Hin as [Hin _].
    destruct (load_attrs _ _ _ _ Hl) as [-> ->]. now split.
  - intros row f Hin Hl.
    pose proof (load_attrs _ _ _ _ Hl) as [Hattrs _].
    assert (Htags : forall fid, row_key row = Some fid ->
              (In (Some key) (map o_key (e_tags f))
               <-> existsb (fun p => bool_decide (p = (fid, key)))
                     (fortunes_tags (db s)) = true)).
    { intros fid Hfid. unfold load in Hl. rewrite Hfid in Hl.
      destruct (attr row "author_id"); try discriminate.
      destruct (find_row Author n (db s)); [|discriminate].
      injection Hl as <-. cbn [e_tags].
      rewrite map_map, in_map_iff, existsb_exists. split.
      - intros (trow & Hk & Ht). cbn in Hk.
        apply list_elem_of_In, list_elem_of_omap in Ht as (t & Ht & Hfind).
        apply find_row_key in Hfind as [_ Hfind].
        assert (t = key) by congruence. subst t.
        apply list_elem_of_In, in_map_iff in Ht as ([a b] & Hb & Hp).
        cbn in Hb. subst b. apply filter_In in Hp as [Hp Ha]. cbn in Ha.
        apply Z.eqb_eq in Ha. subst a.
        exists (fid, key). split; [exact Hp | now apply bool_decide_eq_true_2].
      - intros (p & Hp & Hk). apply bool_decide_eq_true_1 in Hk. subst p.
        destruct (find_row Tag key (db s)) as [trow|] eqn:Hfind; [|congruence].
        exists trow. split.
        + cbn. now apply find_row_key in Hfind as [_ ->].
        + apply list_elem_of_In, list_elem_of_omap. exists key.
          split; [|exact Hfind]. apply list_elem_of_In, in_map_iff.
          exists (fid, key). split; [reflexivity|].
          apply filter_In. split; [exact Hp|]. cbn. apply Z.eqb_refl. }
    rewrite in_omap_load. split.
    + intros (row' & Hin' & Hl').
      pose proof (load_attrs _ _ _ _ Hl') as [Hattrs' _].
      assert (Er : row' = row) by congruence. clear Hattrs'. subst row'.
      apply filter_In in Hin' as [_ Hp]. cbn beta in Hp.
      destruct (row_key row) as [fid|] eqn:Hfid; [|discriminate].
      now apply (Htags fid).
    + intros Ht. exists row. split; [|exact Hl].
      apply filter_In. split; [exact Hin|].
      destruct (row_key row) as [fid|] eqn:Hfid.
      * now apply (Htags fid).
      * unfold load in Hl. rewrite Hfid in Hl.
        destruct (attr row "author_id"); discriminate.
Qed.

Lemma with_fortunes_of_tag_witness :
  let tag :=
    mkEntity (load_obj Tag (List.hd ∅ (tags (db session_with_fortune))))
      None [] in
  exists fs,
    fst (with_fortunes tag session_with_fortune) = Return (tag, fs)
    /\ forall f, In f fs -> e_cls f = Fortune.
Proof.
  intros tag.
  assert (H1 : e_cls tag = Tag) by reflexivity.
  assert (H2 : e_key tag = Some 2) by (vm_compute; reflexivity).
  assert (H3 : find_row Tag 2 (db session_with_fortune) <> None)
    by (vm_compute; discriminate).
  assert (H4 : store_ok (func_now session_with_fortune)
                 (db session_with_fortune) = true)
    by (vm_compute; reflexivity).
  destruct (with_fortunes_of_tag tag 2 session_with_fortune H1 H2 H3 H4 eq_refl)
    as (fs & t' & Hw & _ & Hf & _).
  exists fs. split; [now rewrite Hw|].
  intros f Hin. exact (proj1 (Hf f Hin)).
Defined.

(** ** The reading endpoints *)

Section ReadingEndpoints.

Lemma untouched_refl (s : Session) : untouched s s.
Proof. repeat split. Qed.

Lemma same_store_untouched (s t : Session) : same_store s t -> untouched s t.
Proof. intros (H1 & _ & _ & H2 & H3 & H4). now repeat split. Qed.

Lemma untouched_fresh (s : Session) : untouched s (fresh_session s).
Proof. repeat split. Qed.

Lemma untouched_trans (s t u : Session) :
  untouched s t -> untouched t u -> untouched s u.
Proof.
  intros (H1 & H2 & H3 & H4) (G1 & G2 & G3 & G4).
  repeat split; congruence.
Qed.

(** A handler that only reads makes an endpoint that only reads. *)
Lemma endpoint_untouched {P A : Type} (params : Validation P)
    (handler : P -> M A) (to_body : A -> Body) (s : Session) :
  (forall p s r t, handler p s = (r, t) -> same_store s t) ->
  untouched s (snd (endpoint params handler to_body s)).
Proof.
  intros H. unfold endpoint.
  destruct params as [p|errors|x]; try apply untouched_refl.
  pose proof (SessionDep_state (handler p) s) as E.
  destruct (SessionDep (handler p) s) as [r s']. cbn [snd] in *. subst s'.
  destruct (handler p (fresh_session s)) as [r' t] eqn:E.
  apply H in E. cbn [snd].
  eapply untouched_trans; [apply untouched_fresh|].
  eapply untouched_trans; [apply same_store_untouched, E|].
  apply untouched_fresh.
Qed.

Lemma with_fortunes_inv (self : Entity) (s t : Session)
    (r : Result (Entity * list Entity)) :
  with_fortunes self s = (r, t) ->
  same_store s t
  /\ forall x, r = Return x ->
        inactive s = false /\ x = (self, fortunes_of self (db s)).
Proof.
  unfold with_fortunes, bind, gets, ret.
  destruct (execute s) as [[x|[]] s1] eqn:E; apply execute_inv in E as [Hs Hr].
  - intros [= <- <-]. split; [exact Hs | discriminate].
  - intros [= <- <-]. split; [exact Hs|]. intros x [= <-].
    split; [now apply Hr|]. destruct Hs as [-> _]. reflexivity.
Qed.

Lemma select_inv (cls : Cls) (s t : Session) (r : Result (list Entity)) :
  select cls s = (r, t) -> same_store s t.
Proof.
  unfold select, bind, ret.
  destruct (stream_scalars (select_ cls) s) as [[x|l] s1] eqn:E;
    apply stream_scalars_inv in E as [Hs _]; now intros [= <- <-].
Qed.

Lemma mapM_with_fortunes_inv (objects : list Entity) (s t : Session)
    (r : Result (list (Entity * list Entity))) :
  mapM with_fortunes objects s = (r, t) -> same_store s t.
Proof.
  revert s t r. induction objects as [|o os IH]; intros s t r; cbn [mapM].
  - intros [= <- <-]. apply same_store_refl.
  - unfold bind at 1.
    destruct (with_fortunes o s) as [[x|y] s1] eqn:E;
      apply with_fortunes_inv in E as [Hs _]; [now intros [= <- <-]|].
    unfold bind at 1.
    destruct (mapM with_fortunes os s1) as [[x|ys] s2] eqn:E2;
      apply IH in E2; intros [= <- <-]; eapply same_store_trans; eassumption.
Qed.

Lemma get_with_fortunes_inv (cls : Cls) (s t : Session)
    (r : Result (list (Entity * list Entity))) :
  get_with_fortunes cls s = (r, t) -> same_store s t.
Proof.
  unfold get_with_fortunes, bind.
  destruct (select cls s) as [[x|objects] s1] eqn:E; apply select_inv in E.
  - now intros [= <- <-].
  - intros H. apply mapM_with_fortunes_inv in H.
    eapply same_store_trans; eassumption.
Qed.

Lemma get_named_inv (cls : Cls) (key : Z) (s t : Session)
    (r : Result (Entity * list Entity)) :
  get_named cls key s = (r, t) -> same_store s t.
Proof.
  unfold get_named, bind.
  destruct (get_one cls key s) as [[x|o] s1] eqn:E;
    apply get_one_inv in E as [Hs _].
  - now intros [= <- <-].
  - intros H. apply with_fortunes_inv in H as [H _].
    eapply same_store_trans; eassumption.
Qed.

End ReadingEndpoints.

(** The six GET endpoints never write: whatever the session and the
    identifier in the path, the database, the clock, the identifier
    generator and the coming faults are after the request what they were
    before it. *)
Theorem reading_endpoints_never_write (s : Session) (id : string) :
  untouched s (snd (GET_fortunes s))
  /\ untouched s (snd (GET_authors s))
  /\ untouched s (snd (GET_tags s))
  /\ forall cls, untouched s (snd (GET_one cls id s)).
Proof.
  split; [|split; [|split]].
  - apply endpoint_untouched. intros _ s0 r t. apply select_inv.
  - apply endpoint_untouched. intros _ s0 r t. apply get_with_fortunes_inv.
  - apply endpoint_untouched. intros _ s0 r t. apply get_with_fortunes_inv.
  - intros [| |]; apply endpoint_untouched; intros key s0 r t.
    + apply get_named_inv.
    + intros H. now apply get_one_inv in H as [H _].
    + apply get_named_inv.
Qed.

Section ReadingOne.

Lemma execute_active (s : Session) :
  inactive s = false ->
  execute s = (Return tt, snd (execute s))
  /\ inactive (snd (execute s)) = false /\ db (snd (execute s)) = db s.
Proof. intros H. unfold execute. rewrite H. cbn. auto. Qed.

Lemma get_one_unfold (cls : Cls) (key : Z) (s : Session) :
  inactive s = false ->
  get_one cls key s
  = (match find_row cls key (db s) with
     | Some row =>
         match load (db s) cls row with
         | Some e => Return e
         | None => Raise (not_found cls)
         end
     | None => Raise (not_found cls)
     end, snd (execute s)).
Proof.
  intros H. unfold get_one, session_get, bind, gets, ret, throw.
  destruct (execute_active s H) as (E & _ & Hd). rewrite E, Hd.
  destruct (find_row cls key (db s)) as [row|]; [|reflexivity].
  destruct (load (db s) cls row); reflexivity.
Qed.

Lemma SessionDep_unfold {A : Type} (m : M A) (s : Session) :
  fst (SessionDep m s)
  = match fst (m (fresh_session s)) with
    | Raise (EntityExistsError msg) => Raise (HTTPException 409 msg)
    | r => r
    end.
Proof.
  unfold SessionDep, catch_session_exceptions, try_except, get_session, throw.
  destruct (m (fresh_session s)) as [[x|a] s1]; [|reflexivity].
  destruct x; reflexivity.
Qed.

Lemma endpoint_valid {P A : Type} (p : P) (handler : P -> M A)
    (to_body : A -> Body) (s : Session) :
  fst (endpoint (Valid p) handler to_body s)
  = respond to_body (fst (SessionDep (handler p) s)).
Proof. unfold endpoint. now destruct (SessionDep (handler p) s). Qed.


End ReadingOne.



(** ** Patching what is not there *)

Section Missing.

Lemma patch_named_missing (cls : Cls) (name : string) (key : Z) (value : string)
    (s : Session) :
  inactive s = false -> find_row cls key (db s) = None ->
  patch_named cls name key value s = (Raise (not_found cls), snd (execute s)).
Proof.
  intros Hact Hnone. unfold patch_named, bind.
  now rewrite (get_one_unfold _ _ _ Hact), Hnone.
Qed.

Lemma _patch_fortune_missing (key : Z) (patch : FortunePatch) (s : Session) :
  inactive s = false -> find_row Fortune key (db s) = None ->
  _patch_fortune__wrapped__ key patch s
  = (Raise (not_found Fortune), snd (execute s)).
Proof.
  intros Hact Hnone. unfold _patch_fortune__wrapped__, bind.
  now rewrite (get_one_unfold _ _ _ Hact), Hnone.
Qed.

Lemma untouched_execute (s : Session) : untouched s (snd (execute s)).
Proof. apply same_store_untouched, execute_same. Qed.

Lemma endpoint_state {P A : Type} (p : P) (handler : P -> M A)
    (to_body : A -> Body) (s : Session) :
  snd (endpoint (Valid p) handler to_body s)
  = fresh_session (snd (handler p (fresh_session s))).
Proof.
  unfold endpoint. rewrite <- SessionDep_state.
  now destruct (SessionDep (handler p) s).
Qed.

Lemma StringConstraints_within (mn mx : nat) (loc : list string) (s : string) :
  within mn mx s -> StringConstraints mn mx loc s = Valid s.
Proof. intros H. now apply StringConstraints_valid. Qed.

End Missing.

(** [PATCH /api/authors/{author_id}] and [PATCH /api/tags/{tag_id}] with an
    identifier that no row has: the answer is 404, "author not found" or
    "tag not found", and nothing is written. *)
Theorem PATCH_named_not_found (key : Z) (value : string) (s : Session) :
  0 <= key <= maxsize ->
  (within 1 128 value -> find_row Author key (db s) = None ->
   let answer := PATCH_author (serialize_id key) value s in
   fst answer = mkResponse 404 (Detail "author not found")
   /\ untouched s (snd answer))
  /\ (within 1 32 value -> find_row Tag key (db s) = None ->
      let answer := PATCH_tag (serialize_id key) value s in
      fst answer = mkResponse 404 (Detail "tag not found")
      /\ untouched s (snd answer)).
Proof.
  intros Hkey. split; intros Hv Hnone; cbn zeta;
    unfold PATCH_author, PATCH_tag, AuthorName, TagValue;
    rewrite (EntityId_serialize_id _ _ Hkey),
      (StringConstraints_within _ _ _ _ Hv);
    cbn [both]; rewrite endpoint_valid, endpoint_state, SessionDep_unfold;
    cbn [fst snd]; unfold patch_author, patch_tag;
    rewrite patch_named_missing by (try reflexivity; exact Hnone);
    (split; [reflexivity|]);
    (eapply untouched_trans; [apply untouched_fresh|]);
    (eapply untouched_trans; [apply untouched_execute|]);
    apply untouched_fresh.
Qed.

Lemma PATCH_named_not_found_witness :
  0 <= 7 <= maxsize
  /\ fst (PATCH_author (serialize_id 7) "Samuel Clemens" session_with_fortune)
     = mkResponse 404 (Detail "author not found")
  /\ fst (PATCH_tag (serialize_id 7) "humour" session_with_fortune)
     = mkResponse 404 (Detail "tag not found").
Proof.
  assert (H7 : 0 <= 7 <= maxsize) by (unfold maxsize; lia).
  destruct (PATCH_named_not_found 7 "Samuel Clemens" session_with_fortune H7)
    as [Ha _].
  destruct (PATCH_named_not_found 7 "humour" session_with_fortune H7)
    as [_ Ht].
  split; [exact H7|]. split.
  - apply Ha; [unfold within; cbn; lia | vm_compute; reflexivity].
  - apply Ht; [unfold within; cbn; lia | vm_compute; reflexivity].
Defined.

(** [PATCH /api/fortunes/{fortune_id}] with an identifier that no fortune
    has and a valid body: the lookup is made four times, 100, 200 and 400 ms
    apart, since the 404 of [_patch_fortune] is an exception like any other
    for the retry decorator; the answer is 404 "fortune not found", 700 ms
    later, and the database is as it was. *)
Theorem PATCH_fortune_not_found (fuel : nat) (key : Z) (body patch : FortunePatch)
    (s : Session) :
  (4 <= fuel)%nat -> 0 <= key <= maxsize ->
  validate_FortunePatch ["body"] body = Valid patch ->
  find_row Fortune key (db s) = None ->
  let answer := PATCH_fortune fuel (serialize_id key) body s in
  fst answer = mkResponse 404 (Detail "fortune not found")
  /\ db (snd answer) = db s
  /\ clock (snd answer) = clock s + 700
  /\ statements (snd answer) = (statements s + 4)%nat
  /\ attempt_number (fst (_patch_fortune fuel key patch (fresh_session s)))
     = 4%nat.
Proof.
  intros Hfuel Hkey Hbody Hnone. cbn zeta.
  unfold PATCH_fortune.
  rewrite (EntityId_serialize_id _ _ Hkey), Hbody. cbn [both].
  rewrite endpoint_valid, endpoint_state, SessionDep_unfold. cbn [fst snd].
  unfold patch_fortune, await_retry, _patch_fortune.
  rewrite (retrying_four_attempts _ _ _ Hfuel).
  set (s0 := fresh_session s).
  set (t1 := snd (execute s0)).
  set (t2 := snd (execute (snd (sleep 100 t1)))).
  set (t3 := snd (execute (snd (sleep 200 t2)))).
  set (t4 := snd (execute (snd (sleep 400 t3)))).
  assert (E : four_attempts (_patch_fortune__wrapped__ key patch) s0
              = (mkRetryCallState (Some (Raise (not_found Fortune))) 4 700, t4)).
  { apply four_attempts_exhausted
      with (t1 := t1) (t2 := t2) (t3 := t3)
           (e1 := not_found Fortune) (e2 := not_found Fortune)
           (e3 := not_found Fortune);
      try reflexivity;
      apply _patch_fortune_missing; try reflexivity; exact Hnone. }
  rewrite E. cbn [fst snd outcome attempt_number].
  split; [reflexivity|]. split; [reflexivity|].
  split; [cbn; lia|]. split; [cbn; lia | reflexivity].
Qed.

Lemma PATCH_fortune_not_found_witness :
  (4 <= 4)%nat /\ 0 <= 7 <= maxsize
  /\ fst (PATCH_fortune 4 (serialize_id 7) (mkFortunePatch None (Some []) None)
            session_with_fortune)
     = mkResponse 404 (Detail "fortune not found").
Proof.
  assert (H4 : (4 <= 4)%nat) by lia.
  assert (H7 : 0 <= 7 <= maxsize) by (unfold maxsize; lia).
  split; [exact H4|]. split; [exact H7|].
  apply (PATCH_fortune_not_found 4 7 (mkFortunePatch None (Some []) None)
           (mkFortunePatch None (Some []) None) session_with_fortune H4 H7);
    vm_compute; reflexivity.
Defined.

(** ** [save] and [session.get] *)

Section SaveGet.

(** A [save] that returns ends with a [refresh] that returns. *)
Lemma save_returns (self e : Entity) (s t : Session) :
  save self s = (Return e, t) ->
  exists e0 s1, refresh e0 s1 = (Return e, t).
Proof.
  rewrite save_unfold.
  destruct (commit (snd (session_add self s))) as [[x|flushed] s1].
  - destruct (save_handler self x s1) as [[y|flushed] s2] eqn:E; [discriminate|].
    apply save_handler_state in E as (_ & _ & _ & y & [=]).
  - intros H. now exists (List.last flushed self), s1.
Qed.

Lemma session_get_unfold (cls : Cls) (key : Z) (s : Session) :
  inactive s = false ->
  fst (session_get cls key s)
  = Return (match find_row cls key (db s) with
            | Some row => load (db s) cls row
            | None => None
            end).
Proof.
  intros H. unfold session_get, bind, gets, ret.
  destruct (execute_active s H) as (E & _ & Hd). now rewrite E, Hd.
Qed.

End SaveGet.

(** What [save] returns is what [session.get] finds: when [save] returns
    an object, the object has a primary key, and [session.get] with its
    class and that key returns the same object; a second [refresh] of it
    changes nothing. *)
Theorem save_then_get (self e : Entity) (s t : Session) :
  save self s = (Return e, t) ->
  exists key,
    e_key e = Some key
    /\ fst (session_get (e_cls e) key t) = Return (Some e)
    /\ fst (refresh e t) = Return e.
Proof.
  intros H. apply save_returns in H as (e0 & s1 & H).
  apply refresh_inv in H as (Hd & _ & _ & Hact & key & row & Hk & Hrow & Hl).
  destruct (load_attrs _ _ _ _ Hl) as [Hattrs Hcls].
  destruct (find_row_key _ _ _ _ Hrow) as [_ Hrk].
  assert (Hkey : e_key e = Some key).
  { unfold e_key. rewrite (load_obj_of _ _ _ _ Hl). exact Hrk. }
  exists key. split; [exact Hkey|]. rewrite <- Hd in Hrow, Hl. split.
  - rewrite session_get_unfold by exact Hact. now rewrite Hcls, Hrow, Hl.
  - unfold refresh, bind, gets, throw, ret.
    destruct (execute_active t Hact) as (E & _ & Hdb). rewrite E, Hdb.
    now rewrite Hkey, Hcls, Hrow, Hl.
Qed.

Lemma save_then_get_witness :
  save twain empty_session = (Return saved_twain, session_with_twain)
  /\ e_key saved_twain = Some 1
  /\ fst (session_get Author 1 session_with_twain) = Return (Some saved_twain).
Proof.
  assert (H : save twain empty_session
              = (Return saved_twain, session_with_twain))
    by (vm_compute; reflexivity).
  destruct (save_then_get _ _ _ _ H) as (key & Hk & Hg & _).
  assert (Hkey : key = 1) by (vm_compute in Hk; congruence). subst key.
  split; [exact H|]. split; [exact Hk | exact Hg].
Defined.

(** An identifier that does not fit the 64-bit INTEGER of the database:
    [save] of a new object with such an [id] lets the [OverflowError] of the
    driver through as it is, the database is as it was, and, [save] having
    made no [rollback()] on this path, the next statement of the session
    raises [PendingRollbackError]. *)
Theorem save_id_beyond_int64 (cls : Cls) (attrs : list (string * Value))
    (n : Z) (s : Session) :
  attr (list_to_map attrs) "id" = VInt n ->
  ~ (- 2 ^ 63 <= n <= 2 ^ 63 - 1) ->
  inactive s = false -> pending s = [] -> hd false (faults s) = false ->
  let answer := save (construct cls attrs) s in
  fst answer
  = Raise (OverflowError "Python int too large to convert to SQLite INTEGER")
  /\ db (snd answer) = db s
  /\ forall key, fst (session_get cls key (snd answer)) = Raise PendingRollbackError.
Proof.
  intros Hid Hn Hact Hpend Hfaults. cbn zeta.
  assert (Hins : forall tx,
             INSERT cls (func_now s) (list_to_map attrs) tx
             = (inl IntTooLarge, tx)).
  { intros tx. unfold INSERT, bind, ret, gets, lift. rewrite Hid.
    assert (Hrow : attr (new_row cls (func_now s) (list_to_map attrs) (VInt n))
                     "id" = VInt n).
    { unfold new_row. apply attr_insert_eq. }
    unfold check_row.
    assert (Hfit : forallb
                     (fun c => fits_int64
                                 (attr (new_row cls (func_now s)
                                          (list_to_map attrs) (VInt n))
                                    (column_name c)))
                     (columns cls) = false).
    { apply not_true_iff_false. intros Hall.
      rewrite forallb_forall in Hall.
      specialize (Hall c_id). cbn [column_name] in Hall.
      rewrite Hrow in Hall. cbn [fits_int64] in Hall.
      assert (Hin : In c_id (columns cls)) by (destruct cls; now left).
      apply Hall in Hin. apply andb_true_iff in Hin as [H1 H2].
      apply Z.leb_le in H1, H2. lia. }
    rewrite Hfit. reflexivity. }
  assert (Hcommit : commit (snd (session_add (construct cls attrs) s))
                    = (Raise (OverflowError
                                "Python int too large to convert to SQLite INTEGER"),
                       mkSession (db s) [] true (clock s) (tsid s)
                         (S (statements s)) (tl (faults s)))).
  { unfold commit, session_add. cbn [snd inactive pending faults db tsid clock
                                        statements].
    rewrite Hact, Hpend. cbn [app mapM].
    assert (Hflush : forall tx,
               flush_entity (func_now s) (construct cls attrs) tx
               = (inl IntTooLarge, tx)).
    { intros tx. unfold flush_entity, construct, flush_obj, bind, ret.
      cbn [e_author e_tags e_obj mapM o_key o_cls o_attrs].
      unfold ret. now rewrite Hins. }
    destruct (faults s) as [|[] rest]; cbn in Hfaults; try discriminate;
      unfold bind; rewrite Hflush; reflexivity. }
  rewrite save_unfold, Hcommit. cbn [save_handler throw fst snd db].
  split; [reflexivity|]. split; [reflexivity|].
  intros key. reflexivity.
Qed.

Lemma save_id_beyond_int64_witness :
  fst (save (construct Author [("id", VInt 11901125208844872010);
                               ("name", VStr "Anonymous")])
         empty_session)
  = Raise (OverflowError "Python int too large to convert to SQLite INTEGER").
Proof.
  refine (proj1 (save_id_beyond_int64 Author
                   [("id", VInt 11901125208844872010);
                    ("name", VStr "Anonymous")]
                   11901125208844872010 empty_session _ _ _ _ _));
    try reflexivity.
  lia.
Defined.

(** ** Renaming an author or a tag *)

Section Renaming.

(** The flush of an object without relationships is the flush of its
    columns. *)
Lemma flush_entity_plain (now : Z) (o : Obj) (tx : Tx) :
  o_cls o <> Fortune ->
  flush_entity now (mkEntity o None []) tx
  = match flush_obj now o tx with
    | (inl err, tx') => (inl err, tx')
    | (inr o', tx') => (inr (mkEntity o' None []), tx')
    end.
Proof.
  intros Hcls. unfold flush_entity, bind, ret. cbn [e_author e_tags e_obj mapM].
  unfold ret.
  destruct (flush_obj now o tx) as [[err|o'] tx'] eqn:E; [reflexivity|].
  assert (Hc : o_cls o' = o_cls o).
  { unfold flush_obj, bind, ret in E.
    lazymatch type of E with
    | (let (_, _) := ?X in _) = _ => destruct X as [[?|row] ?]
    end; [discriminate|]. now injection E as <- _. }
  rewrite Hc. destruct (o_cls o); [reflexivity | contradiction | reflexivity].
Qed.

(** A commit of one added object. *)
Lemma commit_one (self : Entity) (s : Session) :
  inactive s = false -> pending s = [] -> hd false (faults s) = false ->
  commit (snd (session_add self s))
  = match flush_entity (func_now s) self (mkTx (db s) (tsid s)) with
    | (inl err, tx) =>
        (Raise (exn_of_DBError err),
         mkSession (db s) [] true (clock s) (tx_tsid tx) (S (statements s))
           (tl (faults s)))
    | (inr e1, tx) =>
        (Return [e1],
         mkSession (tx_db tx) [] false (clock s) (tx_tsid tx) (S (statements s))
           (tl (faults s)))
    end.
Proof.
  intros Hact Hpend Hfaults. unfold commit, session_add.
  cbn [snd inactive pending faults db tsid clock statements].
  rewrite Hact, Hpend. cbn [app mapM]. unfold bind, ret, func_now.
  cbn [clock].
  destruct (faults s) as [|[] rest]; cbn in Hfaults; try discriminate;
    destruct (flush_entity (clock s / 1000) self (mkTx (db s) (tsid s)))
      as [[err|e1] tx]; reflexivity.
Qed.

Lemma named_column_in (cls : Cls) : In (named_column cls) (columns cls).
Proof. destruct cls; cbn; auto. Qed.

(** Assigning the named column of a loaded object changes that column, or
    nothing when the value is the one it has. *)
Lemma changed_columns_named (cls : Cls) (row : gmap string Value) (v : Value) :
  changed_columns cls (<[column_name (named_column cls) := v]> row) [] row
  = if bool_decide (v = attr row (column_name (named_column cls)))
    then [] else [named_column cls].
Proof.
  unfold changed_columns.
  assert (H : forall c, c <> named_column cls ->
              (bool_decide (column_name c ∈ @nil string)
               || match <[column_name (named_column cls) := v]> row
                        !! column_name c with
                  | Some w => negb (bool_decide (w = attr row (column_name c)))
                  | None => false
                  end) = false).
  { intros c Hc. rewrite bool_decide_eq_false_2 by apply not_elem_of_nil. cbn.
    rewrite lookup_insert_ne
      by (intros E; apply column_name_inj in E; congruence).
    unfold attr. destruct (row !! column_name c); [|reflexivity]. cbn.
    now rewrite bool_decide_eq_true_2. }
  assert (G : (bool_decide (column_name (named_column cls) ∈ @nil string)
               || match <[column_name (named_column cls) := v]> row
                        !! column_name (named_column cls) with
                  | Some w =>
                      negb (bool_decide
                              (w = attr row (column_name (named_column cls))))
                  | None => false
                  end)
              = negb (bool_decide
                        (v = attr row (column_name (named_column cls))))).
  { rewrite bool_decide_eq_false_2 by apply not_elem_of_nil.
    now rewrite lookup_insert_eq. }
  destruct cls; cbn [columns named_column List.filter] in *;
    rewrite ?G, ?H by discriminate;
    match goal with
    | |- context [bool_decide (v = ?x)] => destruct (bool_decide (v = x))
    end; reflexivity.
Qed.


Lemma updated_row_named (cls : Cls) (now : Z) (values row : gmap string Value) :
  updated_row now values [named_column cls] row
  = <["updated_at" := VTime now]>
      (<[column_name (named_column cls)
         := attr values (column_name (named_column cls))]> row).
Proof.
  unfold updated_row. cbn [foldr].
  rewrite bool_decide_eq_false_2; [reflexivity|].
  intros H. apply list_elem_of_In in H. destruct cls; cbn in H;
    destruct H as [H|[]]; discriminate H.
Qed.

Lemma fits_int64_int (n : Z) :
  - 2 ^ 63 <= n <= 2 ^ 63 - 1 -> fits_int64 (VInt n) = true.
Proof.
  intros H. cbn [fits_int64]. apply andb_true_iff. split; apply Z.leb_le; lia.
Qed.

Lemma existsb_false {A : Type} (f : A -> bool) (l : list A) :
  (forall x, In x l -> f x = false) -> existsb f l = false.
Proof.
  intros H. apply not_true_iff_false. intros E.
  apply existsb_exists in E as (x & Hin & Hx). rewrite (H x Hin) in Hx.
  discriminate.
Qed.

(** The checks on the row that a rename writes: only the uniqueness of the
    name is in question. *)
Lemma check_row_renamed (cls : Cls) (now key : Z) (value : string)
    (row : gmap string Value) (others : list (gmap string Value)) :
  cls <> Fortune ->
  attr row "id" = VInt key -> - 2 ^ 63 <= key <= 2 ^ 63 - 1 ->
  (exists c0, attr row "created_at" = VTime c0) ->
  (forall r, In r others -> attr r "id" <> VInt key) ->
  check_row cls others
    (updated_row now (<[column_name (named_column cls) := VStr value]> row)
       [named_column cls] row)
  = if existsb
         (fun r => bool_decide (attr r (column_name (named_column cls))
                                = VStr value)) others
    then inl (Violation (UNIQUE cls (named_column cls)))
    else inr tt.
Proof.
  intros Hcls Hid Hkey [c0 Hc] Hothers. rewrite updated_row_named.
  rewrite attr_insert_eq.
  set (row2 := <["updated_at" := VTime now]> _).
  assert (Hfalse : existsb (fun r => bool_decide (attr r "id" = VInt key)) others
                   = false).
  { apply existsb_false. intros r Hr. apply bool_decide_eq_false_2.
    now apply Hothers. }
  destruct cls; [|contradiction|]; cbn [named_column column_name] in *.
  - assert (H1 : attr row2 "id" = VInt key)
      by (subst row2; now rewrite !attr_insert_ne by discriminate).
    assert (H2 : attr row2 "name" = VStr value)
      by (subst row2; rewrite attr_insert_ne by discriminate;
          apply attr_insert_eq).
    assert (H3 : attr row2 "created_at" = VTime c0)
      by (subst row2; now rewrite !attr_insert_ne by discriminate).
    assert (H4 : attr row2 "updated_at" = VTime now)
      by (subst row2; apply attr_insert_eq).
    clearbody row2. unfold check_row.
    cbn [columns not_null unique forallb List.find column_name].
    rewrite H1, H2, H3, H4, (fits_int64_int _ Hkey). cbn [fits_int64 andb negb].
    rewrite !bool_decide_eq_false_2 by discriminate.
    rewrite Hfalse. clear Hfalse. destruct (existsb _ others); reflexivity.
  - assert (H1 : attr row2 "id" = VInt key)
      by (subst row2; now rewrite !attr_insert_ne by discriminate).
    assert (H2 : attr row2 "tag" = VStr value)
      by (subst row2; rewrite attr_insert_ne by discriminate;
          apply attr_insert_eq).
    assert (H3 : attr row2 "created_at" = VTime c0)
      by (subst row2; now rewrite !attr_insert_ne by discriminate).
    assert (H4 : attr row2 "updated_at" = VTime now)
      by (subst row2; apply attr_insert_eq).
    clearbody row2. unfold check_row.
    cbn [columns not_null unique forallb List.find column_name].
    rewrite H1, H2, H3, H4, (fits_int64_int _ Hkey). cbn [fits_int64 andb negb].
    rewrite !bool_decide_eq_false_2 by discriminate.
    rewrite Hfalse. clear Hfalse. destruct (existsb _ others); reflexivity.
Qed.

End Renaming.

Section RenamingConflict.

Lemma load_plain (d : DB) (cls : Cls) (row : gmap string Value) :
  cls <> Fortune -> load d cls row = Some (mkEntity (load_obj cls row) None []).
Proof. intros H. destruct cls; [reflexivity | contradiction | reflexivity]. Qed.

Lemma row_created (now : Z) (d : DB) (cls : Cls) (row : gmap string Value) :
  store_ok now d = true -> In row (table cls d) ->
  exists c0, attr row "created_at" = VTime c0.
Proof.
  intros Hok Hin. apply store_ok_inv in Hok as [Ht _].
  specialize (Ht cls). apply table_ok_inv in Ht as [_ Ht].
  specialize (Ht row Hin). unfold row_times_ok in Ht.
  destruct (attr row "created_at"); try discriminate. eauto.
Qed.

(** The UPDATE of a rename that meets the name in another row. *)
Lemma UPDATE_name_taken (cls : Cls) (now key : Z) (value : string)
    (row other : gmap string Value) (tx : Tx) :
  cls <> Fortune -> - 2 ^ 63 <= key <= 2 ^ 63 - 1 ->
  store_ok now (tx_db tx) = true ->
  find_row cls key (tx_db tx) = Some row ->
  In other (table cls (tx_db tx)) -> attr other "id" <> VInt key ->
  attr other (column_name (named_column cls)) = VStr value ->
  attr row (column_name (named_column cls)) <> VStr value ->
  UPDATE cls now key (<[column_name (named_column cls) := VStr value]> row) [] tx
  = (inl (Violation (UNIQUE cls (named_column cls))), tx).
Proof.
  intros Hcls Hkey Hok Hrow Hin Hoid Hother Hnew.
  unfold UPDATE, bind, gets, lift, throw, ret. rewrite Hrow.
  rewrite changed_columns_named.
  rewrite bool_decide_eq_false_2 by congruence.
  pose proof (find_some _ _ Hrow) as [Hrin Hrk]. apply has_key_attr in Hrk.
  rewrite (check_row_renamed cls now key value row); try assumption.
  - assert (E : existsb
                  (fun r => bool_decide
                              (attr r (column_name (named_column cls))
                               = VStr value))
                  (List.filter (fun r => negb (has_key key r))
                     (table cls (tx_db tx))) = true).
    { apply existsb_exists. exists other. split.
      - apply filter_In. split; [exact Hin|].
        apply negb_true_iff, not_true_iff_false. intros H.
        now apply has_key_attr in H.
      - now apply bool_decide_eq_true_2. }
    rewrite E. reflexivity.
  - eapply row_created; eassumption.
  - intros r Hr. apply filter_In in Hr as [_ Hr].
    apply negb_true_iff in Hr. intros H. apply has_key_attr in H. congruence.
Qed.

Lemma execute_fields (s : Session) :
  inactive s = false ->
  let t := snd (execute s) in
  db t = db s /\ pending t = pending s /\ inactive t = false
  /\ clock t = clock s /\ tsid t = tsid s /\ faults t = faults s.
Proof. intros H. unfold execute. rewrite H. cbn. auto 10. Qed.

(** [patch_tag] and [patch_author] with a value that another row holds. *)
Lemma patch_named_conflict (cls : Cls) (key : Z) (value : string)
    (row other : gmap string Value) (s : Session) :
  cls <> Fortune -> - 2 ^ 63 <= key <= 2 ^ 63 - 1 ->
  inactive s = false -> pending s = [] -> hd false (faults s) = false ->
  store_ok (func_now s) (db s) = true ->
  find_row cls key (db s) = Some row ->
  In other (table cls (db s)) -> attr other "id" <> VInt key ->
  attr other (column_name (named_column cls)) = VStr value ->
  attr row (column_name (named_column cls)) <> VStr value ->
  exists t,
    patch_named cls (column_name (named_column cls)) key value s
    = (Raise (EntityExistsError (lower (class_name cls) ++ " exists")), t)
    /\ db t = db s.
Proof.
  intros Hcls Hkey Hact Hpend Hfaults Hok Hrow Hin Hoid Hother Hnew.
  unfold patch_named, bind at 1.
  rewrite (get_one_unfold _ _ _ Hact), Hrow, (load_plain _ _ _ Hcls).
  destruct (execute_fields s Hact) as (Hd & Hp & Hi & Hc & Ht & Hf).
  set (s1 := snd (execute s)) in *.
  destruct (find_row_key _ _ _ _ Hrow) as [_ Hrk].
  unfold setattr, load_obj. cbn [e_obj e_author e_tags o_cls o_key o_attrs o_flagged].
  rewrite Hrk. unfold bind at 1. rewrite save_unfold.
  rewrite commit_one by congruence.
  rewrite flush_entity_plain by exact Hcls.
  unfold flush_obj, bind at 1. cbn [o_key o_cls o_attrs o_flagged].
  assert (Hnow : func_now s1 = func_now s) by (unfold func_now; now rewrite Hc).
  rewrite UPDATE_name_taken with (other := other); cbn [tx_db];
    rewrite ?Hd, ?Hnow; try assumption.
  cbn [exn_of_DBError save_handler]. rewrite unique_constraint_failed.
  cbn [is_unique_violation]. unfold bind, rollback, throw.
  cbn [e_cls e_obj o_cls db].
  eexists. split; [reflexivity|]. cbn [db]. first [reflexivity | exact Hd].
Qed.

End RenamingConflict.

(** [PATCH /api/authors/{author_id}] and [PATCH /api/tags/{tag_id}] with a
    name that another author, or a tag that another tag, already has: the
    answer is 409 with the detail "author exists" or "tag exists", and the
    database is as it was. *)
Theorem PATCH_named_conflict (key : Z) (value : string)
    (row other : gmap string Value) (s : Session) :
  0 <= key <= maxsize ->
  store_ok (func_now s) (db s) = true -> hd false (faults s) = false ->
  attr other "id" <> VInt key ->
  (within 1 128 value ->
   find_row Author key (db s) = Some row -> In other (authors (db s)) ->
   attr other "name" = VStr value -> attr row "name" <> VStr value ->
   let answer := PATCH_author (serialize_id key) value s in
   fst answer = mkResponse 409 (Detail "author exists")
   /\ db (snd answer) = db s)
  /\ (within 1 32 value ->
      find_row Tag key (db s) = Some row -> In other (tags (db s)) ->
      attr other "tag" = VStr value -> attr row "tag" <> VStr value ->
      let answer := PATCH_tag (serialize_id key) value s in
      fst answer = mkResponse 409 (Detail "tag exists")
      /\ db (snd answer) = db s).
Proof.
  intros Hkey Hok Hfaults Hoid.
  assert (Hk64 : - 2 ^ 63 <= key <= 2 ^ 63 - 1) by (unfold maxsize in Hkey; lia).
  split; intros Hv Hrow Hin Hother Hnew; cbn zeta.
  - destruct (patch_named_conflict Author key value row other (fresh_session s))
      as (t & E & Hd); try assumption; try reflexivity; try discriminate.
    unfold PATCH_author, AuthorName.
    rewrite (EntityId_serialize_id _ _ Hkey),
      (StringConstraints_within _ _ _ _ Hv).
    cbn [both]. rewrite endpoint_valid, endpoint_state, SessionDep_unfold.
    cbn [fst snd]. unfold patch_author.
    cbn [named_column column_name] in E. rewrite E. cbn [fst snd].
    split; [reflexivity | exact Hd].
  - destruct (patch_named_conflict Tag key value row other (fresh_session s))
      as (t & E & Hd); try assumption; try reflexivity; try discriminate.
    unfold PATCH_tag, TagValue.
    rewrite (EntityId_serialize_id _ _ Hkey),
      (StringConstraints_within _ _ _ _ Hv).
    cbn [both]. rewrite endpoint_valid, endpoint_state, SessionDep_unfold.
    cbn [fst snd]. unfold patch_tag.
    cbn [named_column column_name] in E. rewrite E. cbn [fst snd].
    split; [reflexivity | exact Hd].
Qed.

Lemma PATCH_named_conflict_witness :
  0 <= 2 <= maxsize
  /\ fst (PATCH_author (serialize_id 2) "Mark Twain" session_with_two_authors)
     = mkResponse 409 (Detail "author exists")
  /\ db (snd (PATCH_author (serialize_id 2) "Mark Twain"
                session_with_two_authors))
     = db session_with_two_authors.
Proof.
  assert (H2 : 0 <= 2 <= maxsize) by (unfold maxsize; lia).
  split; [exact H2|].
  refine (proj1 (PATCH_named_conflict 2 "Mark Twain"
                   (List.nth 1 (authors (db session_with_two_authors)) ∅)
                   (List.nth 0 (authors (db session_with_two_authors)) ∅)
                   session_with_two_authors H2 _ _ _) _ _ _ _ _).
  - vm_compute. reflexivity.
  - reflexivity.
  - vm_compute. discriminate.
  - unfold within. cbn. lia.
  - vm_compute. reflexivity.
  - left. reflexivity.
  - vm_compute. reflexivity.
  - vm_compute. discriminate.
Defined.

Section RenamingDone.

(** The row that the UPDATE of a rename leaves, and the database around it. *)
Lemma UPDATE_named_inv (cls : Cls) (now key : Z) (value : string)
    (row row2 : gmap string Value) (tx tx' : Tx) :
  find_row cls key (tx_db tx) = Some row ->
  UPDATE cls now key (<[column_name (named_column cls) := VStr value]> row) [] tx
  = (inr row2, tx') ->
  attr row2 "id" = VInt key
  /\ attr row2 (column_name (named_column cls)) = VStr value
  /\ attr row2 "created_at" = attr row "created_at"
  /\ find_row cls key (tx_db tx') = Some row2
  /\ (forall key', key' <> key ->
        find_row cls key' (tx_db tx') = find_row cls key' (tx_db tx))
  /\ (forall cls', cls' <> cls -> table cls' (tx_db tx') = table cls' (tx_db tx))
  /\ fortunes_tags (tx_db tx') = fortunes_tags (tx_db tx)
  /\ (attr row (column_name (named_column cls)) = VStr value -> tx' = tx)
  /\ (attr row (column_name (named_column cls)) <> VStr value ->
      attr row2 "updated_at" = VTime now).
Proof.
  intros Hrow H. pose proof (find_some _ _ Hrow) as [_ Hid].
  apply has_key_attr in Hid.
  apply UPDATE_inv in H as (row' & Hrow' & H).
  assert (row' = row) by congruence. subst row'. clear Hrow'.
  rewrite changed_columns_named in H.
  destruct H as [(Hch & -> & ->)|(Hch & -> & _ & _ & Hdb)].
  - destruct (bool_decide_reflect
                (VStr value = attr row (column_name (named_column cls))))
      as [Hv|Hv]; [|discriminate].
    repeat (split; [solve [auto | congruence]|]).
    intros Hne. exfalso. now apply Hne.
  - destruct (bool_decide_reflect
                (VStr value = attr row (column_name (named_column cls))))
      as [Hv|Hv]; [congruence|].
    rewrite updated_row_named, attr_insert_eq in *.
    set (row2 := <["updated_at" := VTime now]> _) in *.
    assert (Hn : column_name (named_column cls) <> "id"
                 /\ column_name (named_column cls) <> "created_at"
                 /\ column_name (named_column cls) <> "updated_at")
      by (destruct cls; repeat split; discriminate).
    destruct Hn as (N1 & N2 & N3).
    assert (H1 : attr row2 "id" = VInt key)
      by (subst row2; now rewrite !attr_insert_ne by (discriminate || auto)).
    assert (Hk2 : has_key key row2 = true) by now apply has_key_attr.
    split; [exact H1|]. split.
    { subst row2. rewrite attr_insert_ne by auto. apply attr_insert_eq. }
    split.
    { subst row2. now rewrite !attr_insert_ne by (discriminate || auto). }
    rewrite Hdb. unfold find_row. rewrite table_with_table.
    destruct (decide (cls = cls)) as [_|]; [|contradiction].
    split; [now apply find_replace_row with (row := row)|]. split.
    { intros key' Hk'. apply find_replace_row_other; auto. }
    split.
    { intros cls' Hc. rewrite table_with_table.
      destruct (decide (cls = cls')); [congruence | reflexivity]. }
    split; [apply fortunes_tags_with_table|]. split; [congruence|].
    intros _. subst row2. apply attr_insert_eq.
Qed.

End RenamingDone.

(** [patch_author] and [patch_tag] when they return: the object that comes
    back is the author (the tag) of the identifier, under its new name and
    with its [created_at]; it is what the database now holds for the
    identifier; every other row of the table, the other tables and the rows
    of [fortunes_tags] are as before.  When the name is the one the row has
    already, nothing at all is written, [updated_at] included; otherwise
    [updated_at] is the time of the request. *)
Theorem patch_named_renames (cls : Cls) (key : Z) (value : string)
    (row : gmap string Value) (s t : Session) (e : Entity) (fs : list Entity) :
  cls = Author \/ cls = Tag ->
  inactive s = false -> pending s = [] ->
  find_row cls key (db s) = Some row ->
  patch_named cls (column_name (named_column cls)) key value s
  = (Return (e, fs), t) ->
  e_cls e = cls /\ e_key e = Some key
  /\ attr (e_attrs e) (column_name (named_column cls)) = VStr value
  /\ attr (e_attrs e) "created_at" = attr row "created_at"
  /\ find_row cls key (db t) = Some (e_attrs e)
  /\ (forall key', key' <> key ->
        find_row cls key' (db t) = find_row cls key' (db s))
  /\ (forall cls', cls' <> cls -> table cls' (db t) = table cls' (db s))
  /\ fortunes_tags (db t) = fortunes_tags (db s)
  /\ (attr row (column_name (named_column cls)) = VStr value -> db t = db s)
  /\ (attr row (column_name (named_column cls)) <> VStr value ->
      attr (e_attrs e) "updated_at" = VTime (func_now s))
  /\ fs = fortunes_of e (db t).
Proof.
  intros Hcls Hact Hpend Hrow H.
  assert (Hnf : cls <> Fortune) by (destruct Hcls; subst; discriminate).
  unfold patch_named, bind at 1 in H.
  rewrite (get_one_unfold _ _ _ Hact), Hrow, (load_plain _ _ _ Hnf) in H.
  destruct (execute_fields s Hact) as (Hd & Hp & Hi & Hc & Ht & Hf).
  set (s1 := snd (execute s)) in *.
  destruct (find_row_key _ _ _ _ Hrow) as [_ Hrk].
  unfold setattr, load_obj in H.
  cbn [e_obj e_author e_tags o_cls o_key o_attrs o_flagged] in H.
  rewrite Hrk in H. unfold bind at 1 in H.
  set (self := mkEntity _ None []) in H.
  destruct (save self s1) as [[x|e1] s2] eqn:Es; [discriminate|].
  apply with_fortunes_inv in H as [Hs2 Hr].
  destruct (Hr _ eq_refl) as [_ [= -> ->]]. clear Hr.
  destruct Hs2 as (Hdt & _).
  rewrite save_unfold in Es.
  destruct (commit (snd (session_add self s1))) as [[x|flushed] s3] eqn:Ec.
  { destruct (save_handler self x s3) as [[y|fl] s4] eqn:Eh; [discriminate|].
    apply save_handler_state in Eh as (_ & _ & _ & y & [=]). }
  apply commit_single in Ec as (_ & _ & e0 & tx' & -> & Hfl & Hd3 & Hi3);
    [|exact Hi | congruence].
  cbn [List.last] in Es.
  apply refresh_inv in Es as (Hd2 & _ & _ & _ & key' & row' & Hk' & Hrow' & Hl).
  subst self. rewrite flush_entity_plain in Hfl by exact Hnf.
  unfold flush_obj, bind, ret in Hfl. cbn [o_key o_cls o_attrs o_flagged] in Hfl.
  destruct (UPDATE cls (func_now s1) key _ [] (mkTx (db s1) (tsid s1)))
    as [[err|row2] tx2] eqn:Eu; [discriminate|].
  injection Hfl as <- <-.
  assert (Hnow : func_now s1 = func_now s) by (unfold func_now; now rewrite Hc).
  rewrite Hnow in Eu.
  apply UPDATE_named_inv with (row := row) in Eu; [|cbn [tx_db]; congruence].
  cbn [tx_db] in Eu.
  destruct Eu as (U1 & U2 & U3 & U4 & U5 & U6 & U7 & U8 & U9).
  cbn [e_key e_cls e_obj load_obj o_key o_cls] in Hk', Hrow', Hl.
  rewrite (row_key_int _ _ U1) in Hk'. injection Hk' as <-.
  rewrite Hd3, U4 in Hrow'. injection Hrow' as <-.
  rewrite (load_plain _ _ _ Hnf) in Hl. injection Hl as <-.
  cbn [e_cls e_key e_attrs e_obj load_obj o_cls o_key o_attrs].
  rewrite Hdt, Hd2, Hd3, <- Hd.
  split; [reflexivity|]. split; [now apply row_key_int|].
  split; [exact U2|]. split; [exact U3|]. split; [exact U4|].
  split; [exact U5|]. split; [exact U6|]. split; [exact U7|].
  split; [intros Hv; now rewrite (U8 Hv)|]. split; [exact U9 | reflexivity].
Qed.

Lemma patch_named_renames_witness :
  exists e fs t,
    patch_author 2 "Oscar Fingal Wilde" session_with_two_authors
    = (Return (e, fs), t)
    /\ attr (e_attrs e) "name" = VStr "Oscar Fingal Wilde"
    /\ find_row Author 2 (db t) = Some (e_attrs e)
    /\ find_row Author 1 (db t) = find_row Author 1 (db session_with_two_authors).
Proof.
  destruct (patch_author 2 "Oscar Fingal Wilde" session_with_two_authors)
    as [[x|[e fs]] t] eqn:E; [vm_compute in E; discriminate E|].
  exists e, fs, t. split; [reflexivity|].
  destruct (patch_named_renames Author 2 "Oscar Fingal Wilde"
              (List.nth 1 (authors (db session_with_two_authors)) ∅)
              session_with_two_authors t e fs)
    as (_ & _ & H3 & _ & H5 & H6 & _); try reflexivity.
  - now left.
  - exact E.
  - split; [exact H3|]. split; [exact H5|]. apply H6. discriminate.
Defined.

(** ** Creating a fortune *)

Section Creating.

(** A column that the application assigns keeps, in a new row, the value of
    the object. *)
Lemma new_row_column (cls : Cls) (now : Z) (values : gmap string Value)
    (id : Value) (c : Column) :
  In c (columns cls) -> c <> c_id -> c <> c_created_at ->
  attr (new_row cls now values id) (column_name c)
  = attr values (column_name c).
Proof.
  intros Hin H1 H2. unfold new_row.
  rewrite !attr_insert_ne
    by (intros E; apply (column_name_inj c_id) in E
                  || apply (column_name_inj c_created_at) in E; congruence).
  destruct cls; cbn in Hin;
    repeat (destruct Hin as [<-|Hin]; [try congruence|]); try contradiction;
    cbn [columns map column_name list_to_map foldr fst snd];
    unfold attr at 1; simplify_map_eq; reflexivity.
Qed.

(** The flush of a related object: a new one gets a row at the end of its
    table, a loaded one is left alone; the other tables are not touched. *)
Lemma flush_related_frame (now : Z) (o o' : Obj) (tx tx' : Tx) :
  flush_obj now o tx = (inr o', tx') ->
  related_ok (tx_db tx) o = true ->
  o_cls o' = o_cls o
  /\ (forall cls', cls' <> o_cls o ->
        table cls' (tx_db tx') = table cls' (tx_db tx))
  /\ fortunes_tags (tx_db tx') = fortunes_tags (tx_db tx)
  /\ (exists key, attr (o_attrs o') "id" = VInt key /\ o_key o' = Some key
                  /\ find_row (o_cls o) key (tx_db tx') = Some (o_attrs o'))
  /\ (forall c, In c (columns (o_cls o)) -> c <> c_id -> c <> c_created_at ->
        c <> c_updated_at ->
        attr (o_attrs o') (column_name c) = attr (o_attrs o) (column_name c))
  /\ (o_key o = None ->
      table (o_cls o) (tx_db tx')
      = (table (o_cls o) (tx_db tx) ++ [o_attrs o'])%list)
  /\ (o_key o <> None -> tx' = tx /\ o_attrs o' = o_attrs o).
Proof.
  unfold flush_obj. intros H Hok.
  apply bind_inr in H as (row & tx1 & Hrow & Hret).
  unfold ret in Hret. injection Hret as <- <-. cbn [load_obj o_cls o_key o_attrs].
  split; [reflexivity|].
  unfold related_ok in Hok. destruct (o_key o) as [key|] eqn:Hk.
  - apply andb_true_iff in Hok as [Hf Hfl].
    apply bool_decide_eq_true in Hf, Hfl.
    destruct (UPDATE_inv _ _ _ _ _ _ _ _ Hrow) as (row' & Hf' & Hcase).
    rewrite Hf in Hf'. injection Hf' as <-. rewrite Hfl in Hcase.
    rewrite changed_columns_unmodified in Hcase.
    destruct Hcase as [(_ & -> & ->)|(Hne & _)]; [|now destruct Hne].
    destruct (find_row_key _ _ _ _ Hf) as [_ Hrk].
    pose proof (find_some _ _ Hf) as [_ Hid]. apply has_key_attr in Hid.
    split; [reflexivity|]. split; [reflexivity|].
    split; [now exists key|]. split; [reflexivity|].
    split; [discriminate | auto].
  - destruct (obj_ok_fresh _ _ Hk Hok) as [Hc Hu].
    destruct (INSERT_fresh _ _ _ _ _ _ Hrow Hc Hu)
      as (_ & _ & _ & _ & n & Hn & Hfind).
    destruct (INSERT_inv _ _ _ _ _ _ Hrow) as (id & -> & _ & _ & _ & Hdb).
    rewrite Hdb. split.
    { intros cls' Hc'. rewrite table_with_table.
      destruct (decide (o_cls o = cls')); [congruence | reflexivity]. }
    split; [apply fortunes_tags_with_table|].
    split; [exists n; split; [exact Hn|]; split;
            [now apply row_key_int | now rewrite <- Hdb]|].
    split; [intros c Hin H1 H2 _; now apply new_row_column|].
    split; [|congruence]. intros _. rewrite table_with_table.
    destruct (decide (o_cls o = o_cls o)); [reflexivity | contradiction].
Qed.

(** The flush of the tags of a fortune touches the table of tags only. *)
Lemma flush_tags_frame (now : Z) (ts ts' : list Obj) (tx tx' : Tx) :
  mapM (flush_obj now) ts tx = (inr ts', tx') ->
  Forall (fun o => o_cls o = Tag) ts ->
  forallb (related_ok (tx_db tx)) ts = true ->
  authors (tx_db tx') = authors (tx_db tx)
  /\ fortunes (tx_db tx') = fortunes (tx_db tx)
  /\ fortunes_tags (tx_db tx') = fortunes_tags (tx_db tx).
Proof.
  revert ts' tx. induction ts as [|o os IH]; intros os' tx H Hcls Hok.
  - cbn in H. unfold ret in H. now injection H as <- <-.
  - cbn [mapM] in H. apply bind_inr in H as (o' & tx1 & Ho & H).
    apply bind_inr in H as (os1 & tx2 & Hos & Hret).
    unfold ret in Hret. injection Hret as <- <-.
    cbn [forallb] in Hok. apply andb_true_iff in Hok as [Hok1 Hok2].
    inversion Hcls as [|? ? Hc Hcs]; subst.
    destruct (flush_related _ _ _ _ _ Ho Hok1) as [Ha1 _].
    destruct (flush_related_frame _ _ _ _ _ Ho Hok1) as (_ & Hf & Hft & _).
    assert (Hok2' : forallb (related_ok (tx_db tx1)) os = true).
    { rewrite forallb_forall in *. intros x Hx.
      apply (related_ok_appended (tx_db tx)); auto. }
    destruct (IH _ _ Hos Hcs Hok2') as (I1 & I2 & I3).
    rewrite I1, I2, I3, Hft. rewrite Hc in Hf.
    split; [exact (Hf Author ltac:(discriminate))|].
    split; [exact (Hf Fortune ltac:(discriminate)) | reflexivity].
Qed.


Lemma find_row_table (cls : Cls) (key : Z) (d d' : DB) :
  table cls d' = table cls d -> find_row cls key d' = find_row cls key d.
Proof. unfold find_row. now intros ->. Qed.

(** The flush of a new fortune with its author and its tags. *)
Lemma flush_new_fortune (now : Z) (content : string) (a : Obj) (ts : list Obj)
    (tx tx' : Tx) (e' : Entity) :
  flush_entity now
    (mkEntity (mkObj Fortune None {[ "content" := VStr content ]} [])
       (Some a) ts) tx = (inr e', tx') ->
  o_cls a = Author -> Forall (fun o => o_cls o = Tag) ts ->
  related_ok (tx_db tx) a = true ->
  forallb (related_ok (tx_db tx)) ts = true ->
  exists arow aid fid,
    attr arow "id" = VInt aid
    /\ attr arow "name" = attr (o_attrs a) "name"
    /\ find_row Author aid (tx_db tx') = Some arow
    /\ e_key e' = Some fid /\ e_cls e' = Fortune
    /\ find_row Fortune fid (tx_db tx') = Some (e_attrs e')
    /\ attr (e_attrs e') "content" = VStr content
    /\ attr (e_attrs e') "author_id" = VInt aid
    /\ fortunes (tx_db tx') = (fortunes (tx_db tx) ++ [e_attrs e'])%list
    /\ (o_key a = None ->
        authors (tx_db tx') = (authors (tx_db tx) ++ [arow])%list)
    /\ (o_key a <> None ->
        authors (tx_db tx') = authors (tx_db tx) /\ arow = o_attrs a).
Proof.
  intros H Ha Hts Hoka Hokts. unfold flush_entity in H.
  cbn [e_author e_tags e_obj] in H.
  apply bind_inr in H as (author & tx1 & Hauthor & H).
  apply bind_inr in Hauthor as (a' & tx1' & Hfa & Hret).
  unfold ret in Hret. injection Hret as <- <-.
  apply bind_inr in H as (tags & tx2 & Htags & H).
  apply bind_inr in H as (o2 & tx3 & Ho2 & H).
  apply bind_inr in H as (u & tx4 & Hsync & Hret).
  unfold ret in Hret. injection Hret as <- <-.
  cbn [o_cls o_key o_attrs o_flagged] in Ho2.
  (* the author *)
  destruct (flush_related _ _ _ _ _ Hfa Hoka) as [Happ1 _].
  destruct (flush_related_frame _ _ _ _ _ Hfa Hoka)
    as (Ac & Af & Aft & (aid & Aid & Akey & Afind) & Acol & Anew & Aold).
  rewrite Ha in *.
  (* the tags *)
  assert (Hokts1 : forallb (related_ok (tx_db tx1')) ts = true).
  { rewrite forallb_forall in *. intros x Hx.
    apply (related_ok_appended (tx_db tx)); auto. }
  destruct (flush_tags_frame _ _ _ _ _ Htags Hts Hokts1) as (T1 & T2 & T3).
  (* the fortune *)
  set (o1 := mkObj Fortune None _ []) in Ho2.
  assert (Hok1 : related_ok (tx_db tx2) o1 = true) by reflexivity.
  destruct (flush_related_frame _ _ _ _ _ Ho2 Hok1)
    as (Fc & Ff & Fft & (fid & Fid & Fkey & Ffind) & Fcol & Fnew & _).
  change (o_cls o1) with Fortune in Fc, Ff, Ffind, Fcol, Fnew.
  specialize (Fnew eq_refl).
  (* the rows of fortunes_tags *)
  assert (Hdb4 : forall cls, table cls (tx_db tx4) = table cls (tx_db tx3)).
  { rewrite Fc, Fkey in Hsync.
    destruct u. apply sync_tags_inv in Hsync as (ft & -> & _).
    intros cls. apply table_with_fortunes_tags. }
  exists (o_attrs a'), aid, fid.
  unfold e_key, e_cls, e_attrs. cbn [e_obj].
  split; [exact Aid|]. split.
  { apply (Acol c_name); [cbn; auto | discriminate..]. }
  split.
  { rewrite (find_row_table Author aid (tx_db tx3)) by apply Hdb4.
    rewrite (find_row_table Author aid (tx_db tx2))
      by (apply Ff; discriminate).
    rewrite (find_row_table Author aid (tx_db tx1')) by exact T1.
    exact Afind. }
  split; [exact Fkey|]. split; [exact Fc|]. split.
  { rewrite (find_row_table Fortune fid (tx_db tx3)) by apply Hdb4.
    exact Ffind. }
  split.
  { assert (Hcc := Fcol c_content). cbn [column_name columns] in Hcc.
    rewrite Hcc; [|cbn; auto | discriminate..].
    subst o1. cbn [o_attrs]. unfold attr. now simplify_map_eq. }
  split.
  { assert (Hcc := Fcol c_author_id). cbn [column_name columns] in Hcc.
    rewrite Hcc; [|cbn; auto | discriminate..].
    subst o1. cbn [o_attrs]. rewrite attr_insert_eq. exact Aid. }
  split.
  { change (fortunes (tx_db tx4)) with (table Fortune (tx_db tx4)).
    rewrite Hdb4, Fnew. cbn [table]. rewrite T2.
    f_equal. exact (Af Fortune ltac:(discriminate)). }
  assert (Hau : authors (tx_db tx4) = authors (tx_db tx1')).
  { change (authors (tx_db tx4)) with (table Author (tx_db tx4)).
    rewrite Hdb4, (Ff Author) by discriminate. exact T1. }
  rewrite Hau. split.
  - intros Hk. exact (Anew Hk).
  - intros Hk. destruct (Aold Hk) as [-> Hattrs]. now split.
Qed.

End Creating.

Section CreatingFortune.

Lemma new_or_existing_cls (cls : Cls) (name : string) (v : Value)
    (s t : Session) (e : Entity) :
  new_or_existing cls [(name, v)] s = (Return e, t) -> e_cls e = cls.
Proof.
  intros H. apply new_or_existing_inv in H as [_ H].
  destruct (H e eq_refl) as [_ [(row & _ & Hl)| ->]]; [|reflexivity].
  exact (proj2 (load_attrs _ _ _ _ Hl)).
Qed.

Lemma mapM_new_or_existing_cls (cls : Cls) (name : string) (vs : list string)
    (s t : Session) (es : list Entity) :
  mapM (fun v => new_or_existing cls [(name, VStr v)]) vs s = (Return es, t) ->
  Forall (fun o => o_cls o = cls) (map e_obj es).
Proof.
  revert s t es. induction vs as [|v vs IH]; intros s t es H; cbn [mapM] in H.
  - unfold ret in H. injection H as <- _. constructor.
  - apply bind_inr in H as (e & s1 & He & H).
    apply bind_inr in H as (es1 & s2 & Hes & Hret).
    unfold ret in Hret. injection Hret as <- _. cbn [map]. constructor.
    + exact (new_or_existing_cls _ _ _ _ _ _ He).
    + exact (IH _ _ _ Hes).
Qed.

(** The author that [_create_fortune] gets or creates. *)
Lemma author_by_name (name : string) (s s1 : Session) (author : Entity) :
  store_ok (func_now s) (db s) = true ->
  new_or_existing Author [("name", VStr name)] s = (Return author, s1) ->
  attr (e_attrs author) "name" = VStr name
  /\ ((exists row, In row (authors (db s)) /\ attr row "name" = VStr name) ->
      e_key author <> None)
  /\ ((forall row, In row (authors (db s)) -> attr row "name" <> VStr name) ->
      e_key author = None).
Proof.
  intros Hok H.
  pose proof (new_or_existing_inv _ _ _ _ _ _ H) as [_ Hi].
  destruct (Hi _ eq_refl) as [Hact _]. clear Hi.
  rewrite new_or_existing_unfold in H; [|exact Hact|].
  2:{ constructor; [|constructor]. now exists c_name. }
  destruct (existing Author [("name", VStr name)] (db s)) as [|e0 [|e1 l]] eqn:E;
    [| |discriminate]; injection H as <- _.
  - split; [reflexivity|]. split; [|reflexivity].
    intros (row & Hin & Hname). exfalso.
    assert (Hex : In (mkEntity (load_obj Author row) None [])
                    (existing Author [("name", VStr name)] (db s))).
    { unfold existing. apply in_omap_load. exists row. split; [|reflexivity].
      apply filter_In. split; [exact Hin|]. unfold satisfies. cbn.
      now rewrite bool_decide_eq_true_2. }
    now rewrite E in Hex.
  - assert (Hin : In e0 (existing Author [("name", VStr name)] (db s)))
      by (rewrite E; now left).
    destruct (existing_inv _ _ _ _ Hin) as (Hrow & _ & Hattr).
    split; [apply Hattr; now left|]. split.
    + intros _. unfold existing in Hin. apply in_omap_load in Hin
        as (row & Hr & Hl). apply filter_In in Hr as [Hr _].
      injection Hl as <-. unfold e_key. cbn.
      pose proof (store_ok_keys _ _ Author Hok) as Hk.
      apply keys_ok_inv in Hk as [Hint _]. destruct (Hint row Hr) as [n Hn].
      now rewrite (row_key_int _ _ Hn).
    + intros Hnone. exfalso. apply (Hnone _ Hrow). apply Hattr. now left.
Qed.

End CreatingFortune.

(** One attempt of [_create_fortune] that returns, on a session of the
    service: the fortune that comes back has the content of the request and
    an author of the name of the request, whose identifier is its
    [author_id]; its row is the one row added to the table of fortunes.
    The author is got or created: when an author of that name is in the
    database the table of authors is left as it is, otherwise the author's
    row is the one row added to it. *)
Theorem create_fortune_stores_the_request (fortune_in : FortuneIn)
    (s t : Session) (e : Entity) :
  session_ok s = true ->
  _create_fortune__wrapped__ fortune_in s = (Return e, t) ->
  exists arow,
    attr (e_attrs e) "content" = VStr (in_content fortune_in)
    /\ e_author e = Some (load_obj Author arow)
    /\ attr arow "name" = VStr (in_author fortune_in)
    /\ attr (e_attrs e) "author_id" = attr arow "id"
    /\ fortunes (db t) = (fortunes (db s) ++ [e_attrs e])%list
    /\ ((exists row, In row (authors (db s))
                     /\ attr row "name" = VStr (in_author fortune_in)) ->
        authors (db t) = authors (db s) /\ In arow (authors (db s)))
    /\ ((forall row, In row (authors (db s)) ->
                     attr row "name" <> VStr (in_author fortune_in)) ->
        authors (db t) = (authors (db s) ++ [arow])%list).
Proof.
  intros Hok H. apply session_ok_inv in Hok as [Hst Hpend].
  unfold _create_fortune__wrapped__ in H.
  apply bind_inr in H as (author & s1 & Ha & H).
  apply bind_inr in H as (tags & s2 & Ht & H).
  pose proof (new_or_existing_inv _ _ _ _ _ _ Ha) as [Hs1 Hi].
  destruct (Hi _ eq_refl) as [Hact _]. clear Hi.
  assert (Hst1 : store_ok (func_now s) (db s1) = true)
    by (destruct Hs1 as [-> _]; exact Hst).
  destruct (mapM_new_or_existing _ _ _ _ _ _ _ Ht Hst1 not_protected_tag)
    as [Hs2 Hrel].
  specialize (Hrel _ eq_refl).
  pose proof (mapM_new_or_existing_cls _ _ _ _ _ _ Ht) as Hcls.
  pose proof (new_or_existing_related _ _ _ _ _ _ _ Ha Hst not_protected_name)
    as Hrela.
  pose proof (new_or_existing_cls _ _ _ _ _ _ Ha) as Hca.
  destruct (author_by_name _ _ _ _ Hst Ha) as (Hname & Hsome & Hnone).
  pose proof (same_store_trans _ _ _ Hs1 Hs2)
    as (Hd2 & Hp2 & Hi2 & Hc2 & Ht2 & Hf2).
  destruct Hs1 as (Hd1 & _).
  (* the save *)
  rewrite save_unfold in H.
  destruct (commit (snd (session_add _ s2))) as [[x|flushed] s3] eqn:Ec.
  { destruct (save_handler _ x s3) as [[y|fl] s4] eqn:Eh; [discriminate|].
    apply save_handler_state in Eh as (_ & _ & _ & y & [=]). }
  apply commit_single in Ec as (_ & _ & e0 & tx' & -> & Hfl & Hd3 & Hi3);
    [|congruence..].
  cbn [List.last] in H.
  apply refresh_inv in H as (Hdt & _ & _ & _ & key' & row' & Hk' & Hrow' & Hl).
  unfold Fortune_ in Hfl.
  apply flush_new_fortune in Hfl
    as (arow & aid & fid & A1 & A2 & A3 & F1 & F2 & F3 & F4 & F5 & F6 & A4 & A5);
    [|exact Hca|exact Hcls| |];
    cbn [tx_db] in *; [|now rewrite Hd2|now rewrite Hd2, <- Hd1].
  rewrite F1 in Hk'. injection Hk' as <-. rewrite F2, Hd3, F3 in Hrow'.
  injection Hrow' as <-. rewrite F2, Hd3 in Hl.
  unfold load in Hl. rewrite F5, (row_key_int (e_attrs e0) fid) in Hl.
  2:{ apply find_some in F3 as [_ F3]. now apply has_key_attr. }
  rewrite A3 in Hl. injection Hl as <-.
  unfold e_attrs in *. cbn [e_obj e_author load_obj o_attrs] in *.
  rewrite Hdt, Hd3, <- Hd2 in *.
  exists arow. split; [exact F4|]. split; [reflexivity|].
  split; [now rewrite A2|]. split; [now rewrite F5, A1|].
  split; [rewrite F6; now rewrite Hd2|]. split.
  - intros Hex. destruct (A5 (Hsome Hex)) as [-> ->]. rewrite Hd2.
    split; [reflexivity|].
    unfold related_ok in Hrela. unfold e_key in Hsome.
    destruct (o_key (e_obj author)) as [k|]; [|now destruct (Hsome Hex)].
    apply andb_true_iff in Hrela as [Hr _]. apply bool_decide_eq_true in Hr.
    unfold e_cls in Hca. rewrite Hca in Hr.
    apply find_some in Hr as [Hr _]. cbn [table] in Hr.
    rewrite ?Hd2 in Hr. exact Hr.
  - intros Hno. rewrite (A4 (Hnone Hno)). now rewrite Hd2.
Qed.

Lemma create_fortune_stores_the_request_witness :
  exists e t,
    _create_fortune__wrapped__ twain_fortune empty_session = (Return e, t)
    /\ attr (e_attrs e) "content" = VStr "Truth is stranger than fiction."
    /\ exists arow,
        e_author e = Some (load_obj Author arow)
        /\ attr arow "name" = VStr "Mark Twain"
        /\ authors (db t) = [arow].
Proof.
  destruct (_create_fortune__wrapped__ twain_fortune empty_session)
    as [[x|e] t] eqn:E; [vm_compute in E; discriminate E|].
  exists e, t. split; [reflexivity|].
  destruct (create_fortune_stores_the_request twain_fortune empty_session t e
              eq_refl E) as (arow & H1 & H2 & H3 & _ & _ & _ & H7).
  split; [exact H1|]. exists arow. split; [exact H2|]. split; [exact H3|].
  apply H7. intros row [].
Defined.

(** ** Listing authors and tags *)

Section ListingWithFortunes.



End ListingWithFortunes.



(** ** Unique columns stay unique *)

Section Uniqueness.

Lemma column_values_app (c : Column) (l1 l2 : list (gmap string Value)) :
  column_values c (l1 ++ l2) = (column_values c l1 ++ column_values c l2)%list.
Proof. unfold column_values. apply map_app. Qed.

Lemma column_values_cons (c : Column) (r : gmap string Value)
    (l : list (gmap string Value)) :
  column_values c (r :: l) = attr r (column_name c) :: column_values c l.
Proof. reflexivity. Qed.

Lemma in_column_values (c : Column) (rows : list (gmap string Value)) (v : Value) :
  In v (column_values c rows) <->
  exists r, In r rows /\ attr r (column_name c) = v.
Proof.
  unfold column_values. rewrite in_map_iff.
  split; intros (r & H1 & H2); exists r; auto.
Qed.

Lemma INSERT_unique (cls : Cls) (now : Z) (values row : gmap string Value)
    (tx tx' : Tx) :
  INSERT cls now values tx = (inr row, tx') ->
  unique_ok (tx_db tx) -> unique_ok (tx_db tx').
Proof.
  intros H Hu. apply INSERT_inv in H as (id & _ & _ & Hcheck & _ & ->).
  apply check_row_inv in Hcheck as (_ & _ & Hne).
  intros cls' c Hc. rewrite table_with_table.
  destruct (decide (cls = cls')) as [<-|]; [|now apply Hu].
  rewrite column_values_app. apply NoDup_app. split; [now apply Hu|].
  split; [|cbn; apply NoDup_singleton].
  intros v Hv Hv'. apply list_elem_of_In in Hv, Hv'.
  apply in_column_values in Hv as (r & Hr & <-).
  cbn in Hv'. destruct Hv' as [Hv'|[]]. now apply (Hne c r).
Qed.

Lemma UPDATE_unique (cls : Cls) (now key : Z) (values row2 : gmap string Value)
    (flagged : list string) (tx tx' : Tx) :
  UPDATE cls now key values flagged tx = (inr row2, tx') ->
  unique_ok (tx_db tx) -> unique_ok (tx_db tx').
Proof.
  intros H Hu. apply UPDATE_inv in H as (row & Hrow & H).
  destruct H as [(_ & _ & ->)|(_ & _ & Hcheck & _ & ->)]; [exact Hu|].
  apply check_row_inv in Hcheck as (_ & _ & Hne).
  intros cls' c Hc. rewrite table_with_table.
  destruct (decide (cls = cls')) as [<-|]; [|now apply Hu].
  pose proof (find_some _ _ Hrow) as [_ Hk]. apply has_key_attr in Hk.
  destruct (replace_row_split key row2 row _ Hrow) as (l1 & l2 & E1 & E2).
  unfold find_row in *. rewrite E2.
  pose proof (Hu cls c_id (c_id_unique cls)) as Hids.
  pose proof (Hu cls c Hc) as Hvals.
  rewrite E1, column_values_app, column_values_cons in Hids, Hvals.
  cbn [column_name] in Hids.
  apply NoDup_app in Hids as (_ & Hi1 & Hi2).
  apply NoDup_app in Hvals as (Hv1 & Hv12 & Hv2).
  apply NoDup_cons in Hi2 as [Hi2 _]. apply NoDup_cons in Hv2 as [_ Hv2].
  assert (Hother : forall r, In r l1 \/ In r l2 ->
                             attr r (column_name c) <> attr row2 (column_name c)).
  { intros r Hr. apply Hne; [exact Hc|]. apply filter_In. split.
    - rewrite E1. apply in_or_app. destruct Hr; [left | right; right]; auto.
    - apply negb_true_iff, not_true_iff_false. intros Hkr.
      apply has_key_attr in Hkr. destruct Hr as [Hr|Hr].
      + apply (Hi1 (VInt key)).
        * apply list_elem_of_In, in_column_values. now exists r.
        * rewrite Hk. apply list_elem_of_here.
      + apply Hi2. rewrite Hk.
        apply list_elem_of_In, in_column_values. now exists r. }
  rewrite column_values_app, column_values_cons.
  apply NoDup_app. split; [exact Hv1|]. split.
  - intros v Hv Hv'. apply list_elem_of_In in Hv.
    apply in_column_values in Hv as (r & Hr & <-).
    apply elem_of_cons in Hv' as [Hv'|Hv'].
    + apply (Hother r); auto.
    + apply (Hv12 (attr r (column_name c))).
      * apply list_elem_of_In, in_column_values. now exists r.
      * now apply elem_of_cons; right.
  - apply NoDup_cons. split; [|exact Hv2].
    intros Hin. apply list_elem_of_In, in_column_values in Hin as (r & Hr & E).
    apply (Hother r); auto.
Qed.

Lemma flush_obj_unique (now : Z) (o o' : Obj) (tx tx' : Tx) :
  flush_obj now o tx = (inr o', tx') ->
  unique_ok (tx_db tx) -> unique_ok (tx_db tx').
Proof.
  unfold flush_obj. intros H Hu.
  apply bind_inr in H as (row & tx1 & Hrow & Hret).
  unfold ret in Hret. injection Hret as _ <-.
  destruct (o_key o).
  - eapply UPDATE_unique; eassumption.
  - eapply INSERT_unique; eassumption.
Qed.

Lemma mapM_flush_obj_unique (now : Z) (os os' : list Obj) (tx tx' : Tx) :
  mapM (flush_obj now) os tx = (inr os', tx') ->
  unique_ok (tx_db tx) -> unique_ok (tx_db tx').
Proof.
  revert os' tx. induction os as [|o os IH]; intros os' tx H Hu; cbn [mapM] in H.
  - unfold ret in H. now injection H as _ <-.
  - apply bind_inr in H as (o' & tx1 & Ho & H).
    apply bind_inr in H as (os1 & tx2 & Hos & Hret).
    unfold ret in Hret. injection Hret as _ <-.
    eapply IH; [exact Hos|]. eapply flush_obj_unique; eassumption.
Qed.

Lemma flush_entity_unique (now : Z) (e e' : Entity) (tx tx' : Tx) :
  flush_entity now e tx = (inr e', tx') ->
  unique_ok (tx_db tx) -> unique_ok (tx_db tx').
Proof.
  unfold flush_entity. intros H Hu.
  apply bind_inr in H as (author & tx1 & Hauthor & H).
  apply bind_inr in H as (tags & tx2 & Htags & H).
  apply bind_inr in H as (o2 & tx3 & Ho2 & H).
  apply bind_inr in H as (u & tx4 & Hsync & Hret).
  unfold ret in Hret. injection Hret as _ <-.
  assert (H1 : unique_ok (tx_db tx1)).
  { destruct (e_author e) as [a|].
    - apply bind_inr in Hauthor as (a' & tx1' & Hfa & Hret).
      unfold ret in Hret. injection Hret as _ <-.
      eapply flush_obj_unique; eassumption.
    - unfold ret in Hauthor. now injection Hauthor as _ <-. }
  assert (H2 : unique_ok (tx_db tx2))
    by (eapply mapM_flush_obj_unique; eassumption).
  assert (H3 : unique_ok (tx_db tx3))
    by (eapply flush_obj_unique; eassumption).
  destruct (o_cls o2); try (unfold ret in Hsync; now injection Hsync as _ <-).
  destruct (o_key o2); [|unfold ret in Hsync; now injection Hsync as _ <-].
  destruct u. apply sync_tags_inv in Hsync as (ft & -> & _).
  intros cls c Hc. rewrite table_with_fortunes_tags. now apply H3.
Qed.

Lemma mapM_flush_entity_unique (now : Z) (es es' : list Entity) (tx tx' : Tx) :
  mapM (flush_entity now) es tx = (inr es', tx') ->
  unique_ok (tx_db tx) -> unique_ok (tx_db tx').
Proof.
  revert es' tx. induction es as [|e es IH]; intros es' tx H Hu; cbn [mapM] in H.
  - unfold ret in H. now injection H as _ <-.
  - apply bind_inr in H as (e' & tx1 & He & H).
    apply bind_inr in H as (es1 & tx2 & Hes & Hret).
    unfold ret in Hret. injection Hret as _ <-.
    eapply IH; [exact Hes|]. eapply flush_entity_unique; eassumption.
Qed.

Lemma commit_unique (s t : Session) (r : Result (list Entity)) :
  commit s = (r, t) -> unique_ok (db s) -> unique_ok (db t).
Proof.
  unfold commit. intros H Hu.
  destruct (inactive s); [now injection H as _ <-|].
  assert (G : forall fs,
             match mapM (flush_entity (func_now s)) (pending s)
                     (mkTx (db s) (tsid s)) with
             | (inl err, tx) =>
                 (Raise (exn_of_DBError err),
                  mkSession (db s) [] true (clock s) (tx_tsid tx)
                    (S (statements s)) fs)
             | (inr flushed, tx) =>
                 (Return flushed,
                  mkSession (tx_db tx) [] false (clock s) (tx_tsid tx)
                    (S (statements s)) fs)
             end = (r, t) -> unique_ok (db t)).
  { intros fs G.
    destruct (mapM _ _ _) as [[err|flushed] tx] eqn:E; injection G as _ <-;
      [exact Hu|].
    cbn [db]. eapply mapM_flush_entity_unique in E; eauto. }
  destruct (faults s) as [|[] rest]; [eapply G; exact H | | eapply G; exact H].
  now injection H as _ <-.
Qed.

Lemma save_unique (self : Entity) (s t : Session) (r : Result Entity) :
  save self s = (r, t) -> unique_ok (db s) -> unique_ok (db t).
Proof.
  rewrite save_unfold. intros H Hu.
  destruct (commit (snd (session_add self s))) as [[x|flushed] s1] eqn:Ec;
    apply commit_unique in Ec; try exact Hu.
  - destruct (save_handler self x s1) as [[y|fl] s2] eqn:Eh;
      pose proof (save_handler_state _ _ _ _ _ Eh) as (Hd & _).
    + injection H as _ <-. now rewrite Hd.
    + apply refresh_state in H as (Hd' & _). now rewrite Hd', Hd.
  - apply refresh_state in H as (Hd' & _). now rewrite Hd'.
Qed.


(** The writes of the service reach the database through [save] alone. *)
Lemma mapM_new_or_existing_same (cls : Cls) (name : string) (vs : list string)
    (s t : Session) (r : Result (list Entity)) :
  mapM (fun v => new_or_existing cls [(name, VStr v)]) vs s = (r, t) ->
  same_store s t.
Proof.
  revert s t r. induction vs as [|v vs IH]; intros s t r H; cbn [mapM] in H.
  - unfold ret in H. injection H as _ <-. apply same_store_refl.
  - unfold bind at 1 in H.
    destruct (new_or_existing cls [(name, VStr v)] s) as [[x|e] s1] eqn:E;
      apply new_or_existing_inv in E as [Hs _].
    + now injection H as _ <-.
    + unfold bind at 1 in H.
      destruct (mapM _ vs s1) as [[x|es] s2] eqn:E2; apply IH in E2;
        unfold ret in H; injection H as _ <-;
        eapply same_store_trans; eassumption.
Qed.

Lemma create_through_save (fortune_in : FortuneIn) (s t : Session)
    (o : Result Entity) :
  _create_fortune__wrapped__ fortune_in s = (o, t) ->
  db t = db s
  \/ exists self s', db s' = db s /\ save self s' = (o, t).
Proof.
  unfold _create_fortune__wrapped__. intros H. unfold bind at 1 in H.
  destruct (new_or_existing Author _ s) as [[x|author] s1] eqn:E1;
    apply new_or_existing_inv in E1 as [(Hd1 & _) _].
  { injection H as _ <-. now left. }
  unfold bind at 1 in H.
  destruct (mapM _ (in_tags fortune_in) s1) as [[x|tags] s2] eqn:E2;
    apply mapM_new_or_existing_same in E2 as (Hd2 & _).
  { injection H as _ <-. left. congruence. }
  right. eexists _, s2. split; [congruence | exact H].
Qed.

Lemma patch_through_save (fortune_id : Z) (patch : FortunePatch) (s t : Session)
    (o : Result Entity) :
  _patch_fortune__wrapped__ fortune_id patch s = (o, t) ->
  db t = db s
  \/ exists self s', db s' = db s /\ save self s' = (o, t).
Proof.
  unfold _patch_fortune__wrapped__. intros H. unfold bind at 1 in H.
  destruct (get_one Fortune fortune_id s) as [[x|f0] s1] eqn:E1;
    apply get_one_inv in E1 as [(Hd1 & _) _].
  { injection H as _ <-. now left. }
  unfold bind at 1 in H.
  lazymatch type of H with
  | match ?X with (_, _) => _ end = _ => destruct X as [[x|f1] s2] eqn:E2
  end.
  all: assert (Hd2 : db s2 = db s1).
  all: try (destruct (patch_author_ patch) as [name|];
            [destruct (bool_decide (name = ""))|];
            try (unfold ret in E2; now injection E2 as _ <-);
            unfold bind in E2;
            destruct (new_or_existing Author _ s1) as [[y|a] s1'] eqn:E;
            apply new_or_existing_inv in E as [(Hd & _) _];
            unfold ret in E2; injection E2 as _ <-; exact Hd).
  { injection H as _ <-. left. congruence. }
  unfold bind at 1 in H.
  lazymatch type of H with
  | match ?X with (_, _) => _ end = _ => destruct X as [[x|f3] s3] eqn:E3
  end.
  all: assert (Hd3 : db s3 = db s2).
  all: try (destruct (patch_tags patch) as [tags|];
            [|unfold ret in E3; now injection E3 as _ <-];
            unfold bind in E3;
            destruct (mapM _ tags s2) as [[y|ts] s2'] eqn:E;
            apply mapM_new_or_existing_same in E as (Hd & _);
            unfold ret in E3; injection E3 as _ <-; exact Hd).
  { injection H as _ <-. left. congruence. }
  right. eexists _, s3. split; [congruence | exact H].
Qed.

Lemma wrapped_through_save (r : WriteRequest) (s t : Session)
    (o : Result Entity) :
  wrapped r s = (o, t) ->
  db t = db s
  \/ exists self s', db s' = db s /\ save self s' = (o, t).
Proof.
  destruct r; cbn [wrapped]; [apply create_through_save | apply patch_through_save].
Qed.

Lemma patch_named_through_save (cls : Cls) (name : string) (key : Z)
    (value : string) (s t : Session) (r : Result (Entity * list Entity)) :
  patch_named cls name key value s = (r, t) ->
  db t = db s
  \/ exists self s' o t', db s' = db s /\ save self s' = (o, t')
                          /\ db t = db t'.
Proof.
  unfold patch_named. intros H. unfold bind at 1 in H.
  destruct (get_one cls key s) as [[x|f0] s1] eqn:E1;
    apply get_one_inv in E1 as [(Hd1 & _) _].
  { injection H as _ <-. now left. }
  unfold bind at 1 in H.
  destruct (save _ s1) as [[x|f1] s2] eqn:E2.
  - injection H as _ <-. right. eexists _, s1, _, s2. eauto.
  - apply with_fortunes_inv in H as [(Hd & _) _].
    right. eexists _, s1, _, s2. eauto.
Qed.

Section LoopInvariant.

Context {A : Type} (fn : M A) (P : DB -> Prop).

Hypothesis fn_keeps : forall s r t, P (db s) -> fn s = (r, t) -> P (db t).

(** What every attempt keeps of the database, the retry loop keeps, for
    every fuel. *)
Lemma retry_loop_keeps (fuel : nat) (wait : nat -> Z) (stop : nat -> bool)
    (n : nat) (idle : Z) (s : Session) :
  P (db s) -> P (db (snd (retry_loop fuel wait stop fn n idle s))).
Proof.
  revert n idle s. induction fuel as [|fuel IH]; intros n idle s H;
    cbn [retry_loop]; [exact H|].
  destruct (fn s) as [[e|a] s'] eqn:E; pose proof (fn_keeps _ _ _ H E) as H';
    [|exact H'].
  destruct (retry_if_exception_type e); [|exact H'].
  destruct (stop n); [exact H'|]. apply IH. exact H'.
Qed.

End LoopInvariant.

End Uniqueness.

(** The columns declared [primary_key=True] or [unique=True] stay unique:
    when no two rows of a table agree on such a column, this is still so
    after [save], whatever it is given and whatever it answers, and after
    each of the four writing endpoints, whatever the request. *)
Theorem unique_columns_stay_unique (s : Session) :
  unique_ok (db s) ->
  (forall self, unique_ok (db (snd (save self s))))
  /\ (forall fuel author tags content,
         unique_ok (db (snd (POST_fortune fuel author tags content s))))
  /\ (forall fuel fortune_id patch,
         unique_ok (db (snd (PATCH_fortune fuel fortune_id patch s))))
  /\ (forall author_id name, unique_ok (db (snd (PATCH_author author_id name s))))
  /\ (forall tag_id tag, unique_ok (db (snd (PATCH_tag tag_id tag s)))).
Proof.
  intros Hu.
  assert (Hw : forall r s0 o t, unique_ok (db s0) -> wrapped r s0 = (o, t) ->
                 unique_ok (db t)).
  { intros r s0 o t H0 H.
    apply wrapped_through_save in H as [->|(self & s' & Hd & H)]; [exact H0|].
    eapply save_unique; [exact H|]. now rewrite Hd. }
  assert (Hh : forall fuel r,
             unique_ok (db (snd (endpoint (Valid r) (handle fuel)
                                   item_or_none s)))).
  { intros fuel r. rewrite endpoint_state, handle_await_retry.
    unfold await_retry. rewrite retried_retrying. unfold retrying, retry.
    pose proof (retry_loop_keeps (wrapped r) unique_ok
                  (fun s0 o t H0 H => Hw r s0 o t H0 H)
                  fuel (wait_exponential 100 100) (stop_after_attempt 4)
                  1%nat 0 (fresh_session s) Hu) as Hk.
    destruct (retry_loop _ _ _ _ _ _ _) as [run s1]. cbn [snd] in *.
    destruct (outcome run) as [[x|a]|]; exact Hk. }
  assert (Hn : forall cls name key value,
             unique_ok (db (snd (endpoint (Valid (key, value))
                                   (fun p => patch_named cls name (fst p) (snd p))
                                   (fun r => ItemWithFortunes (fst r) (snd r))
                                   s)))).
  { intros cls name key value. rewrite endpoint_state. cbn [fst snd].
    destruct (patch_named cls name key value (fresh_session s)) as [r t] eqn:E.
    apply patch_named_through_save in E
      as [Hd|(self & s' & o & t' & Hd & H & Hd')]; cbn [snd db fresh_session].
    - now rewrite Hd.
    - rewrite Hd'. eapply save_unique; [exact H|]. now rewrite Hd. }
  split; [|split; [|split; [|split]]].
  - intros self. destruct (save self s) as [r t] eqn:E.
    exact (save_unique _ _ _ _ E Hu).
  - intros fuel author tags content. unfold POST_fortune.
    destruct (validate_FortuneIn ["body"] author tags content)
      as [fortune_in|errors|x]; try exact Hu.
    exact (Hh fuel (Create fortune_in)).
  - intros fuel fortune_id patch. unfold PATCH_fortune.
    destruct (both _ _) as [[key p]|errors|x]; try exact Hu.
    exact (Hh fuel (Patch key p)).
  - intros author_id name. unfold PATCH_author.
    destruct (both _ _) as [[key value]|errors|x]; try exact Hu.
    exact (Hn Author "name" key value).
  - intros tag_id tag. unfold PATCH_tag.
    destruct (both _ _) as [[key value]|errors|x]; try exact Hu.
    exact (Hn Tag "tag" key value).
Qed.

Lemma unique_columns_stay_unique_witness :
  unique_ok (db session_with_two_fortunes)
  /\ unique_ok
       (db (snd (POST_fortune 4 (Some "Mark Twain") None (Some "Go to bed.")
                   session_with_two_fortunes))).
Proof.
  assert (H : unique_ok (db session_with_two_fortunes)).
  { intros cls c Hc. apply (bool_decide_unpack _).
    destruct cls; cbn in Hc; destruct Hc as [<-|[<-|[]]];
      vm_compute; exact I. }
  split; [exact H|].
  apply (proj1 (proj2 (unique_columns_stay_unique _ H))).
Defined.

(** ** Patching a fortune *)

Section Patching.

(** The UPDATE of an object of the service with a flagged column: the row
    is replaced in place, and every column that the object holds or that is
    flagged takes the value of the object. *)
Lemma UPDATE_flagged (cls : Cls) (now key : Z) (values row row2 : gmap string Value)
    (flagged : list string) (c0 : Column) (tx tx' : Tx) :
  UPDATE cls now key values flagged tx = (inr row2, tx') ->
  find_row cls key (tx_db tx) = Some row ->
  forallb
    (fun k =>
       negb (bool_decide (k ∈ flagged))
       && match values !! k with
          | Some v => bool_decide (v = attr row k)
          | None => true
          end) protected = true ->
  In c0 (columns cls) -> column_name c0 ∈ flagged ->
  tx_db tx' = with_table cls (replace_row key row2 (table cls (tx_db tx))) (tx_db tx)
  /\ attr row2 "id" = VInt key
  /\ attr row2 "created_at" = attr row "created_at"
  /\ forall c, In c (columns cls) -> c <> c_updated_at ->
       column_name c ∈ flagged \/ values !! column_name c <> None ->
       attr row2 (column_name c) = attr values (column_name c).
Proof.
  intros H Hrow Hp Hc0 Hfl0.
  pose proof (find_some _ _ Hrow) as [_ Hk]. apply has_key_attr in Hk.
  apply UPDATE_inv in H as (row' & Hrow' & H).
  assert (row' = row) by congruence. subst row'.
  destruct H as [(E & _)|(_ & -> & _ & _ & Hdb)].
  { exfalso. now apply (changed_columns_flagged cls values row flagged c0). }
  destruct (updated_row_attrs cls now values row flagged Hp) as (U1 & U2 & _).
  split; [exact Hdb|]. split; [congruence|]. split; [exact U2|].
  intros c Hc Hnu Hval. unfold updated_row.
  set (changed := changed_columns cls values flagged row).
  assert (Hfold : attr (foldr (fun c r => <[column_name c
                                            := attr values (column_name c)]> r)
                          row changed) (column_name c)
                  = attr values (column_name c)).
  { rewrite attr_foldr_insert.
    destruct (decide (c ∈ changed)) as [Hin|Hnin].
    - rewrite bool_decide_eq_true_2; [reflexivity|]. now apply in_changed_names.
    - rewrite bool_decide_eq_false_2 by now rewrite in_changed_names.
      assert (Hf : (bool_decide (column_name c ∈ flagged)
                    || match values !! column_name c with
                       | Some v => negb (bool_decide
                                           (v = attr row (column_name c)))
                       | None => false
                       end) = false).
      { apply not_true_iff_false. intros Ht. apply Hnin.
        apply list_elem_of_In. unfold changed, changed_columns.
        apply filter_In. now split. }
      apply orb_false_iff in Hf as [Hf1 Hf2].
      destruct Hval as [Hval|Hval].
      + now rewrite bool_decide_eq_true_2 in Hf1.
      + unfold attr at 2. destruct (values !! column_name c) as [v|];
          [|contradiction]. cbn.
        apply negb_false_iff, bool_decide_eq_true_1 in Hf2. congruence. }
  destruct (bool_decide (c_updated_at ∈ changed)); [exact Hfold|].
  rewrite attr_insert_ne; [exact Hfold|].
  intros E. apply (column_name_inj c_updated_at) in E. congruence.
Qed.

Lemma link_inv (fid : Z) (tids : list Z) (ft ft' : list (Z * Z)) :
  link fid tids ft = inr ft' ->
  ft' = (ft ++ map (fun t => (fid, t)) tids)%list.
Proof.
  revert ft. induction tids as [|t ts IH]; intros ft H; cbn in H.
  - injection H as <-. now rewrite app_nil_r.
  - destruct (existsb _ ft); [discriminate|].
    apply IH in H. rewrite H, <- app_assoc. reflexivity.
Qed.

(** What [sync_tags] leaves in [fortunes_tags]: the pairs of the other
    fortunes, and for this fortune the pairs of the given tags. *)
Lemma sync_tags_pairs (fid : Z) (tids : list Z) (tx tx' : Tx) :
  sync_tags fid tids tx = (inr tt, tx') ->
  forall p,
    In p (fortunes_tags (tx_db tx')) <->
    (fst p <> fid /\ In p (fortunes_tags (tx_db tx)))
    \/ (fst p = fid /\ In (snd p) tids).
Proof.
  unfold sync_tags, bind, gets. intros H.
  set (kept := List.filter _ (fortunes_tags (tx_db tx))) in H.
  set (added := List.filter _ tids) in H.
  unfold lift at 1 in H.
  destruct (link fid added kept) as [err|ft] eqn:El; [discriminate|].
  apply link_inv in El. subst ft.
  unfold lift, put_db in H. destruct (check_fk _); [discriminate|].
  injection H as <-. cbn [tx_db fortunes_tags with_fortunes_tags].
  intros [a b]. cbn [fst snd]. rewrite in_app_iff, in_map_iff.
  unfold kept, added. rewrite filter_In. cbn [fst snd]. split.
  - intros [[Hin Hk]|(t & [= <- <-] & Ht)].
    + apply orb_true_iff in Hk as [Hk|Hk].
      * left. split; [|exact Hin]. apply negb_true_iff in Hk.
        now apply Z.eqb_neq.
      * destruct (Z.eq_dec a fid) as [->|Hne]; [right | left; auto].
        split; [reflexivity|]. apply existsb_exists in Hk as (t & Ht & E).
        apply Z.eqb_eq in E. now subst.
    + right. apply filter_In in Ht as [Ht _]. auto.
  - intros [[Hne Hin]|[-> Hin]].
    + left. split; [exact Hin|]. apply orb_true_iff. left.
      apply negb_true_iff. now apply Z.eqb_neq.
    + destruct (existsb (fun p => bool_decide (p = (fid, b)))
                  (List.filter
                     (fun p => negb (fst p =? fid)
                               || existsb (Z.eqb (snd p)) tids)
                     (fortunes_tags (tx_db tx)))) eqn:Ex.
      * left. apply existsb_exists in Ex as (p & Hp & E).
        apply bool_decide_eq_true_1 in E. subst p.
        now apply filter_In in Hp.
      * right. exists b. split; [reflexivity|]. apply filter_In.
        split; [exact Hin|]. apply negb_true_iff. exact Ex.
Qed.


Lemma mapM_length {S E A B : Type} (f : A -> ST S E B) (xs : list A)
    (ys : list B) (s s' : S) :
  mapM f xs s = (inr ys, s') -> List.length ys = List.length xs.
Proof.
  revert ys s s'. induction xs as [|x xs IH]; intros ys s s' H; cbn [mapM] in H.
  - unfold ret in H. now injection H as <- _.
  - apply bind_inr in H as (y & s1 & Hy & H).
    apply bind_inr in H as (ys1 & s2 & Hys & Hret).
    unfold ret in Hret. injection Hret as <- _. cbn.
    f_equal. eapply IH, Hys.
Qed.

(** The flush of a loaded fortune that [_patch_fortune] has edited. *)
Lemma flush_patched_fortune (now key : Z) (f e' : Entity) (a : Obj)
    (row : gmap string Value) (tx tx' : Tx) :
  flush_entity now f tx = (inr e', tx') ->
  e_cls f = Fortune -> e_key f = Some key ->
  e_author f = Some a -> o_cls a = Author ->
  Forall (fun o => o_cls o = Tag) (e_tags f) ->
  entity_ok (tx_db tx) f = true -> "content" ∈ o_flagged (e_obj f) ->
  find_row Fortune key (tx_db tx) = Some row ->
  exists arow aid tags',
    e_key e' = Some key /\ e_cls e' = Fortune
    /\ find_row Fortune key (tx_db tx') = Some (e_attrs e')
    /\ attr (e_attrs e') "content" = attr (e_attrs f) "content"
    /\ attr (e_attrs e') "created_at" = attr row "created_at"
    /\ attr (e_attrs e') "author_id" = VInt aid
    /\ attr arow "id" = VInt aid
    /\ attr arow "name" = attr (o_attrs a) "name"
    /\ find_row Author aid (tx_db tx') = Some arow
    /\ (o_key a <> None -> arow = o_attrs a)
    /\ (forall key', key' <> key ->
          find_row Fortune key' (tx_db tx') = find_row Fortune key' (tx_db tx))
    /\ List.length tags' = List.length (e_tags f)
    /\ forall p,
         In p (fortunes_tags (tx_db tx')) <->
         (fst p <> key /\ In p (fortunes_tags (tx_db tx)))
         \/ (fst p = key /\ In (snd p) (omap o_key tags')).
Proof.
  intros H Hcls Hkey Hau Ha Hts Hok Hfl Hrow. unfold flush_entity in H.
  unfold entity_ok in Hok. apply andb_true_iff in Hok as [Hmain Hrel].
  unfold related in Hrel. rewrite Hau in *. cbn [forallb] in Hrel.
  apply andb_true_iff in Hrel as [Hoka Hokts].
  unfold e_cls, e_key in Hcls, Hkey.
  apply bind_inr in H as (author & tx1 & Hauthor & H).
  apply bind_inr in Hauthor as (a' & tx1' & Hfa & Hret).
  unfold ret in Hret. injection Hret as <- <-.
  apply bind_inr in H as (tags & tx2 & Htags & H).
  apply bind_inr in H as (o2 & tx3 & Ho2 & H).
  apply bind_inr in H as ([] & tx4 & Hsync & Hret).
  unfold ret in Hret. injection Hret as <- <-.
  (* the author *)
  destruct (flush_related _ _ _ _ _ Hfa Hoka) as [Happ1 _].
  destruct (flush_related_frame _ _ _ _ _ Hfa Hoka)
    as (Ac & Af & Aft & (aid & Aid & Akey & Afind) & Acol & Anew & Aold).
  rewrite Ha in *.
  (* the tags *)
  assert (Hokts1 : forallb (related_ok (tx_db tx1')) (e_tags f) = true).
  { rewrite forallb_forall in *. intros x Hx.
    apply (related_ok_appended (tx_db tx)); auto. }
  destruct (flush_related_list _ _ _ _ _ Htags Hokts1) as [Happ2 _].
  destruct (flush_tags_frame _ _ _ _ _ Htags Hts Hokts1) as (T1 & T2 & T3).
  pose proof (mapM_length _ _ _ _ _ Htags) as Hlen.
  (* the fortune *)
  set (o1 := mkObj _ _ _ _) in Ho2.
  assert (Hrow2 : find_row Fortune key (tx_db tx2) = Some row).
  { rewrite (find_row_table Fortune key (tx_db tx1')) by exact T2.
    rewrite (find_row_table Fortune key (tx_db tx));
      [exact Hrow | apply Af; discriminate]. }
  unfold flush_obj in Ho2.
  apply bind_inr in Ho2 as (row2 & tx3' & Hup & Hret).
  unfold ret in Hret. injection Hret as <- <-.
  subst o1. cbn [o_key o_cls o_attrs o_flagged] in Hup.
  rewrite Hkey, Hcls in Hup.
  unfold obj_ok in Hmain. rewrite Hkey, Hcls, Hrow in Hmain.
  assert (Hp : forallb
                 (fun k =>
                    negb (bool_decide (k ∈ o_flagged (e_obj f)))
                    && match <["author_id" := attr (o_attrs a') "id"]>
                               (o_attrs (e_obj f)) !! k with
                       | Some v => bool_decide (v = attr row k)
                       | None => true
                       end) protected = true).
  { cbn [protected forallb] in *.
    now rewrite !lookup_insert_ne by discriminate. }
  destruct (UPDATE_flagged _ _ _ _ _ _ _ c_content _ _ Hup Hrow2 Hp)
    as (Hdb3 & U1 & U2 & Ucol); [cbn; auto | exact Hfl|].
  cbn [load_obj o_cls o_key o_attrs] in Hsync.
  rewrite ?(row_key_int _ _ U1), ?Hcls in Hsync.
  pose proof (sync_tags_pairs _ _ _ _ Hsync) as Hpairs.
  destruct (sync_tags_inv _ _ _ _ Hsync) as (ft & Hdb4 & _).
  assert (Htab4 : forall cls, table cls (tx_db tx4) = table cls (tx_db tx3')).
  { intros cls. rewrite Hdb4. apply table_with_fortunes_tags. }
  assert (Hk2 : has_key key row2 = true) by now apply has_key_attr.
  exists (o_attrs a'), aid, tags.
  unfold e_key, e_cls, e_attrs. cbn [e_obj load_obj o_key o_cls o_attrs].
  rewrite ?Hcls.
  split; [now apply row_key_int|]. split; [reflexivity|]. split.
  { rewrite (find_row_table Fortune key (tx_db tx3')) by apply Htab4.
    rewrite Hdb3. unfold find_row. rewrite table_with_table.
    destruct (decide (Fortune = Fortune)); [|contradiction].
    now apply find_replace_row with (row := row). }
  split.
  { assert (Hcc := Ucol c_content). cbn [column_name columns] in Hcc.
    rewrite Hcc; [|cbn; auto | discriminate | now left].
    now rewrite attr_insert_ne by discriminate. }
  split; [exact U2|]. split.
  { assert (Hcc := Ucol c_author_id). cbn [column_name columns] in Hcc.
    rewrite Hcc; [|cbn; auto | discriminate |].
    - now rewrite attr_insert_eq.
    - right. now rewrite lookup_insert_eq. }
  split; [exact Aid|]. split.
  { apply (Acol c_name); [cbn; auto | discriminate..]. }
  split.
  { rewrite (find_row_table Author aid (tx_db tx3')) by apply Htab4.
    rewrite Hdb3. unfold find_row. rewrite table_with_table.
    destruct (decide (Fortune = Author)); [discriminate|].
    fold (find_row Author aid (tx_db tx2)).
    rewrite (find_row_table Author aid (tx_db tx1')) by exact T1.
    exact Afind. }
  split; [intros Hk; now destruct (Aold Hk)|]. split.
  { intros key' Hk'.
    rewrite (find_row_table Fortune key' (tx_db tx3')) by apply Htab4.
    rewrite Hdb3. unfold find_row. rewrite table_with_table.
    destruct (decide (Fortune = Fortune)); [|contradiction].
    rewrite find_replace_row_other by auto.
    fold (find_row Fortune key' (tx_db tx2)).
    rewrite (find_row_table Fortune key' (tx_db tx1')) by exact T2.
    apply find_row_table, Af. discriminate. }
  split; [exact Hlen|].
  intros p. rewrite Hpairs. rewrite Hdb3, fortunes_tags_with_table, T3, Aft.
  reflexivity.
Qed.

End Patching.

Section PatchingFortune.

(** The step [if patch.author: ...] of [_patch_fortune]. *)
Lemma author_step_inv (f f1 : Entity) (o : option string) (s t : Session) :
  match o with
  | Some name =>
      if bool_decide (name = "") then ret f
      else
        author <- new_or_existing Author [("name", VStr name)] ;;
        ret (set_author f author)
  | None => ret f
  end s = (Return f1, t) ->
  e_obj f1 = e_obj f /\ e_tags f1 = e_tags f
  /\ (((o = None \/ o = Some "") /\ f1 = f /\ t = s)
      \/ exists name author,
          o = Some name /\ name <> ""
          /\ new_or_existing Author [("name", VStr name)] s = (Return author, t)
          /\ e_author f1 = Some (e_obj author)).
Proof.
  intros H. destruct o as [name|].
  - destruct (bool_decide_reflect (name = "")) as [->|Hne].
    + unfold ret in H. injection H as <- <-. auto 10.
    + apply bind_inr in H as (author & s1 & Ha & Hret).
      unfold ret in Hret. injection Hret as <- <-.
      split; [reflexivity|]. split; [reflexivity|]. right.
      now exists name, author.
  - unfold ret in H. injection H as <- <-. auto 10.
Qed.

(** The step [if patch.tags is not None: ...] of [_patch_fortune]. *)
Lemma tags_step_inv (f f1 : Entity) (o : option (list string)) (s t : Session) :
  match o with
  | Some tags =>
      tags <- mapM (fun tag => new_or_existing Tag [("tag", VStr tag)]) tags ;;
      ret (set_tags f tags)
  | None => ret f
  end s = (Return f1, t) ->
  e_obj f1 = e_obj f /\ e_author f1 = e_author f
  /\ ((o = None /\ f1 = f /\ t = s)
      \/ exists tags ts,
          o = Some tags
          /\ mapM (fun tag => new_or_existing Tag [("tag", VStr tag)]) tags s
             = (Return ts, t)
          /\ e_tags f1 = map e_obj ts).
Proof.
  intros H. destruct o as [tags|].
  - apply bind_inr in H as (ts & s1 & Ht & Hret).
    unfold ret in Hret. injection Hret as <- <-.
    split; [reflexivity|]. split; [reflexivity|]. right. now exists tags, ts.
  - unfold ret in H. injection H as <- <-. auto 10.
Qed.

Lemma filter_none {A : Type} (p : A -> bool) (l : list A) :
  (forall x, In x l -> p x = false) -> List.filter p l = [].
Proof.
  intros H. induction l as [|x l IH]; [reflexivity|]. cbn.
  rewrite (H x) by now left. apply IH. intros y Hy. apply H. now right.
Qed.

End PatchingFortune.

(** One attempt of [_patch_fortune] that returns, on a session of the
    service: the fortune that comes back is the fortune of the identifier,
    as the database now holds it, with its [created_at]; [content] is the
    content of the patch, or the old one when the patch has none; [author]
    is an author of the name of the patch, or the old author when the patch
    has none; with [tags = []] the fortune has no tags left.  The rows of
    the other fortunes, and their tags, are as before. *)
Theorem patch_fortune_applies_the_patch (key : Z) (patch : FortunePatch)
    (row : gmap string Value) (s t : Session) (e : Entity) :
  session_ok s = true ->
  find_row Fortune key (db s) = Some row ->
  _patch_fortune__wrapped__ key patch s = (Return e, t) ->
  e_key e = Some key
  /\ find_row Fortune key (db t) = Some (e_attrs e)
  /\ attr (e_attrs e) "created_at" = attr row "created_at"
  /\ (forall c, patch_content patch = Some c -> c <> "" ->
        attr (e_attrs e) "content" = VStr c)
  /\ (patch_content patch = None ->
      attr (e_attrs e) "content" = attr row "content")
  /\ (forall name, patch_author_ patch = Some name -> name <> "" ->
        exists arow,
          e_author e = Some (load_obj Author arow)
          /\ attr arow "name" = VStr name
          /\ attr (e_attrs e) "author_id" = attr arow "id")
  /\ (patch_author_ patch = None ->
      attr (e_attrs e) "author_id" = attr row "author_id")
  /\ (patch_tags patch = Some [] ->
      e_tags e = []
      /\ forall p, In p (fortunes_tags (db t)) -> fst p <> key)
  /\ (forall p, fst p <> key ->
        (In p (fortunes_tags (db t)) <-> In p (fortunes_tags (db s))))
  /\ (forall key', key' <> key ->
        find_row Fortune key' (db t) = find_row Fortune key' (db s)).
Proof.
  intros Hok Hrow H. apply session_ok_inv in Hok as [Hst Hpend].
  pose proof Hst as Hst0.
  unfold _patch_fortune__wrapped__ in H.
  (* the lookup *)
  apply bind_inr in H as (f0 & s1 & E1 & H).
  destruct (get_one_inv _ _ _ _ _ E1) as [Hs1 Hf0].
  destruct (Hf0 f0 eq_refl) as (Hact & row' & Hfind & Hload). clear Hf0.
  assert (row' = row) by congruence. subst row'. clear Hfind.
  pose proof (carried_loaded _ _ _ _ Hrow Hload) as Hc0.
  pose proof (find_row_key _ _ _ _ Hrow) as [_ Hrk].
  pose proof (find_some _ _ Hrow) as [_ Hid]. apply has_key_attr in Hid.
  assert (Hd1 : db s1 = db s) by apply Hs1.
  unfold load in Hload. rewrite Hrk in Hload.
  destruct (attr row "author_id") as [|aid0| |] eqn:Eaid; try discriminate.
  destruct (find_row Author aid0 (db s)) as [arow0|] eqn:Earow; [|discriminate].
  injection Hload as Hf0.
  set (tags0 := map (load_obj Tag) _) in Hf0.
  (* the author *)
  apply bind_inr in H as (f1 & s2 & E2 & H).
  pose proof E2 as E2'.
  rewrite <- Hd1 in Hst, Hc0.
  destruct (carried_author _ _ _ _ _ _ E2' Hst Hc0) as [Hs2 Hc1].
  specialize (Hc1 _ eq_refl).
  apply author_step_inv in E2 as (O1 & T1 & A1).
  (* the content *)
  pose proof (carried_content _ _ (patch_content patch) Hc1) as Hc2.
  set (f2 := match patch_content patch with
             | Some content => _
             | None => f1
             end) in *.
  assert (F2 : e_author f2 = e_author f1 /\ e_tags f2 = e_tags f1
               /\ o_key (e_obj f2) = o_key (e_obj f1)
               /\ (forall c, patch_content patch = Some c -> c <> "" ->
                     attr (e_attrs f2) "content" = VStr c)
               /\ (patch_content patch = None -> f2 = f1)).
  { subst f2. destruct (patch_content patch) as [c|];
      [|split; [reflexivity|]; split; [reflexivity|]; split; [reflexivity|];
        split; [discriminate | reflexivity]].
    destruct (bool_decide_reflect (c = "")) as [Ec|Hne].
    - split; [reflexivity|]. split; [reflexivity|]. split; [reflexivity|].
      split; [|discriminate]. intros c' [= <-] Hc'. now destruct Hc'.
    - split; [reflexivity|]. split; [reflexivity|]. split; [reflexivity|].
      split; [|discriminate].
      intros c' [= <-] _. unfold e_attrs, setattr. cbn. apply attr_insert_eq. }
  destruct F2 as (A2 & T2 & K2 & C2 & C2').
  (* the tags *)
  assert (Hd2 : db s2 = db s1) by apply Hs2.
  apply bind_inr in H as (f3 & s3 & E3 & H).
  pose proof E3 as E3'.
  rewrite <- Hd2 in Hst, Hc2.
  destruct (carried_tags _ _ _ _ _ _ E3' Hst Hc2) as [Hs3 Hc3].
  specialize (Hc3 _ eq_refl). destruct Hc3 as (He3 & _ & Hcls3 & Hfl3).
  apply tags_step_inv in E3 as (O3 & A3 & T3).
  assert (Hd3 : db s3 = db s2) by apply Hs3.
  assert (Hdb : db s3 = db s) by congruence.
  pose proof (same_store_trans _ _ _ Hs1 (same_store_trans _ _ _ Hs2 Hs3))
    as (_ & Hp3 & Hi3 & Hc3 & _).
  assert (Hnow : func_now s3 = func_now s) by (unfold func_now; now rewrite Hc3).
  (* what goes to [save] *)
  assert (Hkey3 : e_key f3 = Some key).
  { unfold e_key. rewrite O3, K2, O1, <- Hf0. cbn. exact Hrk. }
  assert (Hauthor3 : exists a, e_author f3 = Some a /\ o_cls a = Author
             /\ (forall name, patch_author_ patch = Some name -> name <> "" ->
                   attr (o_attrs a) "name" = VStr name)
             /\ (patch_author_ patch = None -> a = load_obj Author arow0)).
  { rewrite A3, A2. destruct A1 as [([Hn|Hn] & -> & _)|(name & author & Hn & Hne & Ea & ->)].
    - exists (load_obj Author arow0). rewrite <- Hf0. cbn.
      repeat split; auto. intros name Hname. congruence.
    - exists (load_obj Author arow0). rewrite <- Hf0. cbn.
      repeat split; auto. intros name Hname Hne. congruence.
    - exists (e_obj author). split; [reflexivity|]. split.
      + exact (new_or_existing_cls _ _ _ _ _ _ Ea).
      + split; [|congruence]. intros name' Hname' _.
        assert (name' = name) by congruence. subst name'.
        assert (Hst1 : store_ok (func_now s1) (db s1) = true).
        { unfold func_now. destruct Hs1 as (-> & _ & _ & -> & _). exact Hst0. }
        exact (proj1 (author_by_name _ _ _ _ Hst1 Ea)). }
  destruct Hauthor3 as (a & Ha3 & Hacls & Haname & Haold).
  assert (Htags3 : Forall (fun o => o_cls o = Tag) (e_tags f3)
                   /\ (patch_tags patch = Some [] -> e_tags f3 = [])).
  { destruct T3 as [(Hn & -> & _)|(tags & ts & Hn & Et & ->)].
    - split; [|congruence]. rewrite T2, T1, <- Hf0. cbn. subst tags0.
      apply Forall_forall. intros o Ho.
      apply list_elem_of_In, in_map_iff in Ho as (r & <- & _).
      reflexivity.
    - split; [exact (mapM_new_or_existing_cls _ _ _ _ _ _ Et)|].
      intros Hnil. assert (tags = []) by congruence. subst tags.
      cbn in Et. unfold ret in Et. now injection Et as <- _. }
  destruct Htags3 as (Htcls & Htnil).
  (* the save *)
  rewrite save_unfold in H.
  destruct (commit (snd (session_add f3 s3))) as [[x|flushed] s4] eqn:Ec.
  { destruct (save_handler f3 x s4) as [[y|fl] s5] eqn:Eh; [discriminate|].
    apply save_handler_state in Eh as (_ & _ & _ & y & [=]). }
  apply commit_single in Ec as (_ & _ & e0 & tx' & -> & Hfl & Hd4 & Hi4);
    [|congruence..].
  cbn [List.last] in H.
  apply refresh_inv in H as (Hdt & _ & _ & _ & key' & row' & Hk' & Hrow' & Hl).
  rewrite <- Hd3 in He3.
  apply (flush_patched_fortune _ key _ _ a row) in Hfl
    as (arow & aid & tags' & P1 & P2 & P3 & P4 & P5 & P6 & P7 & P8 & P9 & P10
        & P11 & P12 & P13);
    cbn [tx_db]; try assumption; try congruence;
    try (rewrite Hdb; exact Hrow).
  cbn [tx_db] in *.
  rewrite P1 in Hk'. injection Hk' as <-. rewrite P2, Hd4, P3 in Hrow'.
  injection Hrow' as <-. rewrite P2, Hd4 in Hl.
  unfold load in Hl. rewrite P6, (row_key_int (e_attrs e0) key) in Hl.
  2:{ apply find_some in P3 as [_ P3]. now apply has_key_attr. }
  rewrite P9 in Hl. injection Hl as <-.
  unfold e_key, e_attrs in *. cbn [e_obj e_author e_tags load_obj o_attrs o_key].
  rewrite Hdt, Hd4. rewrite Hdb in *.
  split.
  { apply row_key_int. apply find_some in P3 as [_ P3]. now apply has_key_attr. }
  split; [exact P3|]. split; [exact P5|]. split.
  { intros c Hc Hne. rewrite P4, O3. now apply C2. }
  split.
  { intros Hc. rewrite P4, O3, (C2' Hc), O1, <- Hf0. reflexivity. }
  split.
  { intros name Hn Hne. exists arow. split; [reflexivity|].
    split; [rewrite P8; now apply Haname | now rewrite P6, P7]. }
  split.
  { intros Hn. rewrite P6. specialize (Haold Hn). subst a.
    assert (Hk0 : attr arow0 "id" = VInt aid0).
    { apply find_some in Earow as [_ Earow]. now apply has_key_attr. }
    assert (Hne : o_key (load_obj Author arow0) <> None).
    { cbn. rewrite (row_key_int _ _ Hk0). discriminate. }
    specialize (P10 Hne). cbn in P10. subst arow. congruence. }
  split.
  { intros Hnil. specialize (Htnil Hnil). rewrite Htnil in P12.
    assert (tags' = []) by (destruct tags'; [reflexivity | discriminate]).
    subst tags'.
    assert (Hnone : forall p, In p (fortunes_tags (tx_db tx')) -> fst p <> key).
    { intros p Hp. apply P13 in Hp as [[Hp _]|[_ []]]. exact Hp. }
    split; [|exact Hnone].
    rewrite filter_none; [reflexivity|].
    intros p Hp. apply Z.eqb_neq. now apply Hnone. }
  split.
  { intros p Hp. rewrite P13. split.
    - intros [[_ Hin]|[Hk _]]; [exact Hin | contradiction].
    - intros Hin. now left. }
  exact P11.
Qed.

Lemma patch_fortune_applies_the_patch_witness :
  exists e t,
    _patch_fortune__wrapped__ 3
      (mkFortunePatch None (Some []) (Some "To be good is noble."))
      session_with_fortune = (Return e, t)
    /\ attr (e_attrs e) "content" = VStr "To be good is noble."
    /\ e_tags e = [].
Proof.
  destruct (_patch_fortune__wrapped__ 3
              (mkFortunePatch None (Some []) (Some "To be good is noble."))
              session_with_fortune) as [[x|e] t] eqn:E;
    [vm_compute in E; discriminate E|].
  exists e, t. split; [reflexivity|].
  assert (Hok : session_ok session_with_fortune = true)
    by (vm_compute; reflexivity).
  assert (Hrow : find_row Fortune 3 (db session_with_fortune)
                 = Some (List.hd ∅ (fortunes (db session_with_fortune))))
    by (vm_compute; reflexivity).
  destruct (patch_fortune_applies_the_patch 3 _ _ _ _ _ Hok Hrow E)
    as (_ & _ & _ & H4 & _ & _ & _ & H8 & _).
  split; [apply H4; [reflexivity | discriminate]|].
  apply H8. reflexivity.
Defined.

(** ** The import script *)

Section ImportScript.

Import ImportData.

Lemma setdefault_NoDup {A : Type} `{EqDecision A} (k : A) (keys : list A) :
  NoDup keys -> NoDup (setdefault k keys).
Proof.
  intros H0. unfold setdefault.
  destruct (bool_decide_reflect (k ∈ keys)) as [Hin|Hnin]; [exact H0|].
  apply NoDup_app. split; [exact H0|]. split; [|apply NoDup_singleton].
  intros x Hx Hx'. apply list_elem_of_singleton in Hx'. now subst.
Qed.

Lemma setdefault_in {A : Type} `{EqDecision A} (k x : A) (keys : list A) :
  In x (setdefault k keys) <-> In x keys \/ x = k.
Proof.
  unfold setdefault.
  destruct (bool_decide_reflect (k ∈ keys)) as [Hin|Hnin].
  - apply list_elem_of_In in Hin. split; [auto|]. now intros [?| ->].
  - rewrite in_app_iff. cbn. split.
    + intros [Hx|[<-|[]]]; auto.
    + intros [Hx| ->]; auto.
Qed.

Lemma foldl_setdefault_NoDup (tag_list keys : list string) :
  NoDup keys ->
  NoDup (foldl (fun tags tag_name => setdefault tag_name tags) keys tag_list).
Proof.
  revert keys. induction tag_list as [|t ts IH]; intros keys H0; cbn; [exact H0|].
  apply IH. now apply setdefault_NoDup.
Qed.

Lemma foldl_setdefault_in (tag_list keys : list string) (x : string) :
  In x (foldl (fun tags tag_name => setdefault tag_name tags) keys tag_list)
  <-> In x keys \/ In x tag_list.
Proof.
  revert keys. induction tag_list as [|t ts IH]; intros keys; cbn.
  - tauto.
  - rewrite IH, setdefault_in. intuition.
Qed.

Lemma split_not_nil (sep : ascii) (s : string) : split sep s <> [].
Proof.
  destruct s as [|c s]; cbn; [discriminate|].
  destruct (Ascii.eqb c sep); [discriminate|].
  destruct (split sep s); discriminate.
Qed.

Lemma pop_inr (key : string) (row : Row) (cell : option string) :
  pop key row = inr cell <-> row !! key = Some cell.
Proof.
  unfold pop. destruct (row !! key); split; try discriminate;
    intros [= ->]; reflexivity.
Qed.

(** What one row does to the state, when the loop goes on. *)
Lemma import_row_inv (row : Row) (st st' : State) :
  import_row row st = inr st' ->
  exists author_name fortune_content,
    row !! "author" = Some author_name
    /\ row !! "fortune" = Some fortune_content
    /\ all_authors st' = setdefault author_name (all_authors st)
    /\ ((In fortune_content (all_fortunes st)
         /\ all_fortunes st' = all_fortunes st /\ all_tags st' = all_tags st
         /\ added st' = added st)
        \/ (~ In fortune_content (all_fortunes st)
            /\ exists cell,
                row !! "tags" = Some (Some cell)
                /\ all_fortunes st' = (all_fortunes st ++ [fortune_content])%list
                /\ all_tags st'
                   = foldl (fun tags tag_name => setdefault tag_name tags)
                       (all_tags st) (split "/" cell)
                /\ added st'
                   = (added st
                      ++ [mkNewFortune fortune_content author_name
                            (split "/" cell)])%list)).
Proof.
  unfold import_row. intros H.
  destruct (pop "author" row) as [err|author_name] eqn:Ea; [discriminate|].
  destruct (pop "fortune" row) as [err|fortune_content] eqn:Ef; [discriminate|].
  apply pop_inr in Ea, Ef. exists author_name, fortune_content.
  split; [exact Ea|]. split; [exact Ef|].
  destruct (bool_decide_reflect (fortune_content ∈ all_fortunes st)) as [Hin|Hnin].
  - injection H as <-. cbn. split; [reflexivity|]. left.
    apply list_elem_of_In in Hin. auto.
  - destruct (pop "tags" row) as [err|[cell|]] eqn:Et; try discriminate.
    apply pop_inr in Et. injection H as <-. cbn. split; [reflexivity|].
    right. split; [now rewrite <- list_elem_of_In|]. now exists cell.
Qed.


Lemma import_row_consistent (row : Row) (st st' : State) :
  import_row row st = inr st' -> import_consistent st -> import_consistent st'.
Proof.
  intros H (Ha & Ht & Hf & Hc & Hin).
  apply import_row_inv in H
    as (author_name & fortune_content & _ & _ & Eau & H).
  assert (Hmono : forall x, In x (all_authors st) -> In x (all_authors st')).
  { intros x Hx. rewrite Eau. apply setdefault_in. now left. }
  destruct H as [(_ & Ef & Et & Ead)|(Hnew & cell & _ & Ef & Et & Ead)].
  - unfold import_consistent. rewrite Eau, Ef, Et, Ead.
    split; [now apply setdefault_NoDup|]. split; [exact Ht|].
    split; [exact Hf|]. split; [exact Hc|].
    intros f Hfin. destruct (Hin f Hfin) as (H1 & H2 & H3).
    split; [|now split]. apply setdefault_in. now left.
  - unfold import_consistent. rewrite Eau, Ef, Et, Ead.
    split; [now apply setdefault_NoDup|].
    split; [now apply foldl_setdefault_NoDup|].
    rewrite map_app. cbn [map nf_content].
    split; [now rewrite Hf|]. split.
    + apply NoDup_app. split; [exact Hc|]. split; [|apply NoDup_singleton].
      intros x Hx Hx'. apply list_elem_of_singleton in Hx'. subst x.
      apply Hnew. rewrite Hf. now apply list_elem_of_In.
    + intros f Hfin. apply in_app_iff in Hfin as [Hfin|[<-|[]]].
      * destruct (Hin f Hfin) as (H1 & H2 & H3).
        split; [apply setdefault_in; now left|]. split; [|exact H3].
        intros t Ht'. apply foldl_setdefault_in. left. now apply H2.
      * cbn [nf_author nf_tags]. split; [apply setdefault_in; now right|].
        split; [|apply split_not_nil].
        intros t Ht'. apply foldl_setdefault_in. now right.
Qed.

Lemma import_rows_consistent (reader : list Row) (st st' : State) :
  import_rows reader st = inr st' -> import_consistent st ->
  import_consistent st'.
Proof.
  revert st. induction reader as [|row rows IH]; intros st H Hc; cbn in H.
  - now injection H as <-.
  - destruct (import_row row st) as [err|st1] eqn:E; [discriminate|].
    eapply IH; [exact H|]. eapply import_row_consistent; eassumption.
Qed.

(** The fortunes that the loop adds, from any state on. *)
Lemma import_rows_added (reader : list Row) (st st' : State) :
  import_rows reader st = inr st' ->
  all_fortunes st = map nf_content (added st) ->
  forall f,
    In f (added st') <->
    In f (added st)
    \/ (~ In (nf_content f) (all_fortunes st)
        /\ exists i row cell,
            reader !! i = Some row
            /\ row !! "fortune" = Some (nf_content f)
            /\ (forall j row', (j < i)%nat -> reader !! j = Some row' ->
                  row' !! "fortune" <> Some (nf_content f))
            /\ row !! "author" = Some (nf_author f)
            /\ row !! "tags" = Some (Some cell)
            /\ nf_tags f = split "/" cell).
Proof.
  revert st. induction reader as [|row rows IH]; intros st H Hf f; cbn in H.
  - injection H as <-. split; [auto|].
    intros [Hin|(_ & i & row & cell & Hi & _)]; [exact Hin|].
    now rewrite lookup_nil in Hi.
  - destruct (import_row row st) as [err|st1] eqn:E; [discriminate|].
    apply import_row_inv in E
      as (author_name & fortune_content & Ra & Rf & _ & E).
    destruct E as [(Hold & Ef & _ & Ead)|(Hnew & cell & Rt & Ef & _ & Ead)].
    + rewrite (IH st1 H) by congruence. rewrite Ead, Ef.
      split; (intros [Hin|(Hnin & i & row' & cell & Hi & Hc & Hfirst & Hrest)];
              [now left | right; split; [exact Hnin|]]).
      * exists (S i), row', cell. split; [exact Hi|]. split; [exact Hc|].
        split; [|exact Hrest].
        intros [|j] r Hj Hr; cbn in Hr.
        -- injection Hr as <-. congruence.
        -- apply (Hfirst j); [lia | exact Hr].
      * destruct i as [|i]; cbn in Hi.
        -- injection Hi as <-. congruence.
        -- exists i, row', cell. split; [exact Hi|]. split; [exact Hc|].
           split; [|exact Hrest].
           intros j r Hj Hr. apply (Hfirst (S j)); [lia | exact Hr].
    + rewrite (IH st1 H) by (rewrite Ef, Ead, map_app, Hf; reflexivity).
      rewrite Ead, Ef, !in_app_iff. cbn [In]. split.
      * intros [[Hin|[<-|[]]]|(Hnin & i & row' & cell' & Hi & Hc & Hfirst & Hrest)].
        -- now left.
        -- right. cbn [nf_content nf_author nf_tags]. split; [exact Hnew|].
           exists 0%nat, row, cell. cbn. repeat split; try assumption.
           intros j r Hj. lia.
        -- right. split; [tauto|].
           exists (S i), row', cell'. split; [exact Hi|]. split; [exact Hc|].
           split; [|exact Hrest].
           intros [|j] r Hj Hr; cbn in Hr.
           ++ injection Hr as <-. intros E'. apply Hnin. right. left. congruence.
           ++ apply (Hfirst j); [lia | exact Hr].
      * intros [Hin|(Hnin & i & row' & cell' & Hi & Hc & Hfirst & Ha & Ht & Hts)].
        -- left. now left.
        -- destruct i as [|i]; cbn in Hi.
           ++ injection Hi as <-. left. right. left.
              destruct f as [fc fa ft]. cbn in *. f_equal; congruence.
           ++ right. split.
              ** intros [Hin|[E'|[]]]; [tauto|].
                 apply (Hfirst 0%nat row); [lia | reflexivity | congruence].
              ** exists i, row', cell'. split; [exact Hi|]. split; [exact Hc|].
                 split; [|now repeat split].
                 intros j r Hj Hr. apply (Hfirst (S j)); [lia | exact Hr].
Qed.

End ImportScript.

(** The loop of the import script that runs to its end leaves one author
    object per name, one tag object per name and one fortune per content;
    every fortune that it adds has its author and its tags in the
    dictionaries, and at least one tag: a cell of tags, even an empty one,
    splits into one name or more. *)
Theorem import_keeps_one_object_per_name (reader : list ImportData.Row)
    (st : ImportData.State) :
  ImportData.main reader = inr st -> import_consistent st.
Proof.
  intros H. eapply import_rows_consistent; [exact H|].
  unfold import_consistent. cbn.
  split; [constructor|]. split; [constructor|]. split; [reflexivity|].
  split; [constructor|]. intros f [].
Qed.

Lemma import_keeps_one_object_per_name_witness :
  ImportData.main sample_rows = inr sample_import
  /\ import_consistent sample_import
  /\ ImportData.all_authors sample_import
     = [Some "Mark Twain"; Some "Oscar Wilde"; Some "Anonymous"].
Proof.
  assert (H : ImportData.main sample_rows = inr sample_import)
    by (vm_compute; reflexivity).
  split; [exact H|].
  split; [exact (import_keeps_one_object_per_name _ _ H)|].
  vm_compute. reflexivity.
Defined.

(** Of the rows with one content the first wins: the fortunes that the
    import adds are, content by content, those of the first row with the
    content, with the author of that row and the tags that its cell of tags
    splits into at every "/". *)
Theorem import_first_row_wins (reader : list ImportData.Row)
    (st : ImportData.State) (f : ImportData.NewFortune) :
  ImportData.main reader = inr st ->
  (In f (ImportData.added st) <->
   exists i row cell,
     reader !! i = Some row
     /\ row !! "fortune" = Some (ImportData.nf_content f)
     /\ (forall j row', (j < i)%nat -> reader !! j = Some row' ->
           row' !! "fortune" <> Some (ImportData.nf_content f))
     /\ row !! "author" = Some (ImportData.nf_author f)
     /\ row !! "tags" = Some (Some cell)
     /\ ImportData.nf_tags f = ImportData.split "/" cell).
Proof.
  intros H. rewrite (import_rows_added reader _ st H eq_refl f). cbn.
  split.
  - intros [[]|(_ & H')]. exact H'.
  - intros H'. right. split; [tauto | exact H'].
Qed.

Lemma import_first_row_wins_witness :
  ImportData.main sample_rows = inr sample_import
  /\ In (ImportData.mkNewFortune (Some "Go to bed.") (Some "Mark Twain")
           ["wit"; "sleep"])
       (ImportData.added sample_import)
  /\ ~ In (ImportData.mkNewFortune (Some "Go to bed.") (Some "Anonymous") [""])
         (ImportData.added sample_import).
Proof.
  assert (H : ImportData.main sample_rows = inr sample_import)
    by (vm_compute; reflexivity).
  split; [exact H|]. split.
  - apply (proj2 (import_first_row_wins sample_rows sample_import _ H)).
    exists 0%nat, (List.nth 0 sample_rows ∅), "wit/sleep".
    split; [reflexivity|]. split; [vm_compute; reflexivity|].
    split; [intros j row' Hj; lia|]. split; [vm_compute; reflexivity|].
    split; vm_compute; reflexivity.
  - intros Hin.
    apply (proj1 (import_first_row_wins sample_rows sample_import _ H)) in Hin
      as (i & row & cell & Hi & _ & Hfirst & Ha & _).
    destruct i as [|[|[|i]]]; cbn in Hi; try discriminate;
      injection Hi as <-.
    + vm_compute in Ha. discriminate Ha.
    + vm_compute in Ha. discriminate Ha.
    + apply (Hfirst 0%nat (List.nth 0 sample_rows ∅)); [lia | reflexivity|].
      vm_compute. reflexivity.
Defined.

(** ** The tags of a new fortune *)

Section CreatingTags.





End CreatingTags.

Section CreatedTags.







End CreatedTags.


